(** * mmetl: the Slack transformer's thread assembly, thread stores and
      channel/post transformation, embedded from [services/slack]. *)

From Stdlib Require Import ZArith Lia Ascii String.
From stdpp Require Import base option list strings gmap fin_maps fin_sets.

Local Open Scope Z_scope.
Local Open Scope string_scope.

(** ** Machine integers *)

(** Go's [int64]: a [Z] kept in the signed 64-bit range by [wrap64]. *)
Module Int64.
Definition MaxInt64 : Z := 9223372036854775807.
Definition MinInt64 : Z := -9223372036854775808.
Definition modulus : Z := 18446744073709551616.

Definition in_range (z : Z) : Prop := MinInt64 <= z <= MaxInt64.

Definition wrap64 (z : Z) : Z := (z - MinInt64) mod modulus + MinInt64.

(** [x++] on an [int64]. *)
Definition incr (z : Z) : Z := wrap64 (z + 1).
End Int64.

(** ** Strings *)

(** Go strings are byte strings.  The rune functions below read them as
    UTF-8: a rune starts at every byte that is not a continuation byte
    (10xxxxxx), which is what [utf8.RuneCountInString] counts and what
    [[]rune(s)] splits at on well-formed UTF-8. *)
Module Utf8.
Definition is_continuation (b : ascii) : bool :=
  match b with
  | Ascii _ _ _ _ _ _ b6 b7 => b7 && negb b6
  end.

Fixpoint RuneCountInString (s : string) : nat :=
  match s with
  | EmptyString => 0%nat
  | String b r =>
      ((if is_continuation b then 0 else 1) + RuneCountInString r)%nat
  end.

(** [string([]rune(s)[:n])] *)
Fixpoint takeRunes (n : nat) (s : string) : string :=
  match s with
  | EmptyString => EmptyString
  | String b r =>
      if is_continuation b then String b (takeRunes n r)
      else match n with
           | O => EmptyString
           | S m => String b (takeRunes m r)
           end
  end.
End Utf8.

(** ** Data model *)

(** [model.ChannelType] *)
Inductive ChannelType :=
| ChannelTypeOpen
| ChannelTypePrivate
| ChannelTypeDirect
| ChannelTypeGroup.

Global Instance ChannelType_eq_dec : EqDecision ChannelType.
Proof. solve_decision. Defined.

(** [model.SlackAttachment] is only ever marshalled by the transformer; it
    is held as its JSON encoding. *)
Record SlackAttachment := { attachmentJSON : string }.

Global Instance SlackAttachment_eq_dec : EqDecision SlackAttachment.
Proof. solve_decision. Defined.

(** Addresses of heap-allocated [IntermediatePost] values
    ([*IntermediatePost]). *)
Abbreviation loc := positive.

Module IntermediatePost.
Record t := mk {
  User : string;
  Channel : string;
  Message : string;
  Props : gmap string (list SlackAttachment);
  CreateAt : Z;
  Attachments : list string;
  Replies : list loc;
  IsDirect : bool;
  ChannelMembers : list string;
}.

Definition zero : t :=
  mk "" "" "" ∅ 0 [] [] false [].

Definition set_Message (v : string) (p : t) : t :=
  mk (User p) (Channel p) v (Props p) (CreateAt p) (Attachments p)
     (Replies p) (IsDirect p) (ChannelMembers p).
Definition set_Props (v : gmap string (list SlackAttachment)) (p : t) : t :=
  mk (User p) (Channel p) (Message p) v (CreateAt p) (Attachments p)
     (Replies p) (IsDirect p) (ChannelMembers p).
Definition set_CreateAt (v : Z) (p : t) : t :=
  mk (User p) (Channel p) (Message p) (Props p) v (Attachments p)
     (Replies p) (IsDirect p) (ChannelMembers p).
Definition set_Attachments (v : list string) (p : t) : t :=
  mk (User p) (Channel p) (Message p) (Props p) (CreateAt p) v
     (Replies p) (IsDirect p) (ChannelMembers p).
Definition set_Replies (v : list loc) (p : t) : t :=
  mk (User p) (Channel p) (Message p) (Props p) (CreateAt p) (Attachments p)
     v (IsDirect p) (ChannelMembers p).
Definition set_IsDirect (v : bool) (p : t) : t :=
  mk (User p) (Channel p) (Message p) (Props p) (CreateAt p) (Attachments p)
     (Replies p) v (ChannelMembers p).
Definition set_ChannelMembers (v : list string) (p : t) : t :=
  mk (User p) (Channel p) (Message p) (Props p) (CreateAt p) (Attachments p)
     (Replies p) (IsDirect p) v.

(** PosgreSQLMaxPostSize is the default PostgreSQL max post size in
    mattermost 6.6 *)
Definition PosgreSQLMaxPostSize : nat := Eval cbv in Z.to_nat (65535 / 4).

Definition Sanitise (s : t) : t :=
  if decide (PosgreSQLMaxPostSize < Utf8.RuneCountInString (Message s))%nat
  then set_Message (Utf8.takeRunes PosgreSQLMaxPostSize (Message s)) s
  else s.
End IntermediatePost.

Module IntermediateChannel.
Record t := mk {
  Id : string;
  OriginalName : string;
  Name : string;
  DisplayName : string;
  Members : list string;
  MembersUsernames : list string;
  Purpose : string;
  Header : string;
  Topic : string;
  Type_ : ChannelType;
}.

Definition set_Name (v : string) (c : t) : t :=
  mk (Id c) (OriginalName c) v (DisplayName c) (Members c)
     (MembersUsernames c) (Purpose c) (Header c) (Topic c) (Type_ c).
Definition set_DisplayName (v : string) (c : t) : t :=
  mk (Id c) (OriginalName c) (Name c) v (Members c)
     (MembersUsernames c) (Purpose c) (Header c) (Topic c) (Type_ c).
Definition set_Purpose (v : string) (c : t) : t :=
  mk (Id c) (OriginalName c) (Name c) (DisplayName c) (Members c)
     (MembersUsernames c) v (Header c) (Topic c) (Type_ c).
Definition set_Header (v : string) (c : t) : t :=
  mk (Id c) (OriginalName c) (Name c) (DisplayName c) (Members c)
     (MembersUsernames c) (Purpose c) v (Topic c) (Type_ c).
Definition set_MembersUsernames (v : list string) (c : t) : t :=
  mk (Id c) (OriginalName c) (Name c) (DisplayName c) (Members c)
     v (Purpose c) (Header c) (Topic c) (Type_ c).
End IntermediateChannel.

Module IntermediateUser.
Record t := mk {
  Id : string;
  Username : string;
  FirstName : string;
  LastName : string;
  Position : string;
  Email : string;
  Password : string;
  Memberships : list string;
  AuthData : option string;
  AuthService : string;
}.

Definition set_Email (v : string) (u : t) : t :=
  mk (Id u) (Username u) (FirstName u) (LastName u) (Position u) v
     (Password u) (Memberships u) (AuthData u) (AuthService u).
Definition set_Position (v : string) (u : t) : t :=
  mk (Id u) (Username u) (FirstName u) (LastName u) v (Email u)
     (Password u) (Memberships u) (AuthData u) (AuthService u).
Definition set_FirstName (v : string) (u : t) : t :=
  mk (Id u) (Username u) v (LastName u) (Position u) (Email u)
     (Password u) (Memberships u) (AuthData u) (AuthService u).
Definition set_LastName (v : string) (u : t) : t :=
  mk (Id u) (Username u) (FirstName u) v (Position u) (Email u)
     (Password u) (Memberships u) (AuthData u) (AuthService u).
End IntermediateUser.

Module SlackFile.
Record t := mk { Id : string; Name : string }.
End SlackFile.

Module SlackComment.
Record t := mk { User : string; Comment : string }.
End SlackComment.

(** The fields of [SlackPost] the transformer reads.  [Files] is a slice;
    a nil and an empty slice behave alike in every use. *)
Module SlackPost.
Record t := mk {
  User : string;
  Text : string;
  TimeStamp : string;
  ThreadTS : string;
  Type_ : string;
  SubType : string;
  Comment : option SlackComment.t;
  File : option SlackFile.t;
  Files : list SlackFile.t;
  Attachments : list SlackAttachment;
}.
End SlackPost.

Module SlackChannel.
Record t := mk {
  Id : string;
  Name : string;
  Members : list string;
  Purpose : string;   (* channel.Purpose.Value *)
  Topic : string;     (* channel.Topic.Value *)
  Type_ : ChannelType;
}.

Definition set_Name (v : string) (c : t) : t :=
  mk (Id c) v (Members c) (Purpose c) (Topic c) (Type_ c).
Definition set_Type (v : ChannelType) (c : t) : t :=
  mk (Id c) (Name c) (Members c) (Purpose c) (Topic c) v.
End SlackChannel.

Definition WorkflowUserName : string := "imported-workflow".

(** ** The world the transformer runs in *)

#[local] Set Warnings "-register-all".

(** A post as the cache-backed store keeps it remotely: the JSON document
    of a post with its replies inline.  The [Replies] field of the record
    is not used in a document; the children are the second component. *)
Inductive PostDoc :=
| Doc (fields : IntermediatePost.t) (replies : list PostDoc).

Inductive LogLevel := Debug | Info | Warn | Error.

Inductive LogEntry :=
(* log.Printf("ERROR processing post in thread, couldn't find rootPost: %+v\n", original) *)
| PrintfRootPostNotFound (original : SlackPost.t)
(* log.Println(line), log.Printf(line) *)
| Println (line : string)
(* t.Logger.<Level>(line) *)
| Logger (lvl : LogLevel) (line : string)
(* t.Logger.WithError(err).Error(line) *)
| LoggerWithError (err line : string).

Record World := mkWorld {
  heap : gmap loc IntermediatePost.t;   (* the posts behind *IntermediatePost *)
  redis : gmap string PostDoc;          (* the remote key-value backend *)
  logs : list LogEntry;                 (* log output, oldest first *)
}.

Definition set_heap (h : gmap loc IntermediatePost.t) (w : World) : World :=
  mkWorld h (redis w) (logs w).
Definition add_log (e : LogEntry) (w : World) : World :=
  mkWorld (heap w) (redis w) (logs w ++ [e]).

(** Computations over the world; [None] is a run that does not complete
    (a dereference of an address that holds no post, or a loop that ran
    past its bound). *)
Definition M (A : Type) : Type := World -> option (A * World).

Global Instance M_ret : MRet M := λ A a w, Some (a, w).
Global Instance M_bind : MBind M := λ A B f m w,
  match m w with
  | Some (a, w') => f a w'
  | None => None
  end.

Definition gets {A} (f : World -> A) : M A := λ w, Some (f w, w).
Definition stuck {A} : M A := λ _, None.
Definition logf (e : LogEntry) : M unit := λ w, Some (tt, add_log e w).

(** [*l] *)
Definition load (l : loc) : M IntermediatePost.t :=
  λ w, match heap w !! l with
       | Some p => Some (p, w)
       | None => None
       end.
(** [*l = p] *)
Definition store (l : loc) (p : IntermediatePost.t) : M unit :=
  λ w, Some (tt, set_heap (<[l := p]> (heap w)) w).
(** [l.field = v], through [f] *)
Definition modify (l : loc) (f : IntermediatePost.t -> IntermediatePost.t) : M unit :=
  p ← load l; store l (f p).
(** [&IntermediatePost{...}] *)
Definition alloc (p : IntermediatePost.t) : M loc :=
  λ w, let l := fresh (dom (heap w)) in
       Some (l, set_heap (<[l := p]> (heap w)) w).

(** ** Thread stores *)

(** The [ThreadsStorage] interface.  A store value is the state of one
    store instance; [LookupThread] may fetch from the backend and allocate,
    [HasThread] only reads the world, [StoreThread] and [GetChangedThreads]
    act on the instance alone. *)
Class ThreadsStorage (T : Type) := {
  LookupThread : T -> string -> M (option loc * T);
  HasThread : T -> string -> World -> bool;
  StoreThread : T -> string -> loc -> T;
  GetChangedThreads : T -> list loc;
}.

(** ** Thread assembly *)

(** The loop "avoid timestamp duplications" of [AddPostToThreads]:
    [post.CreateAt++] until the value is not a key of [timestamps].  One
    unit of fuel is one iteration. *)
Fixpoint avoidTimestampDuplications (fuel : nat) (post : loc)
    (timestamps : gmap Z bool) : M unit :=
  match fuel with
  | O => stuck
  | S fuel' =>
      p ← load post;
      match timestamps !! IntermediatePost.CreateAt p with
      | None => mret tt
      | Some _ =>
          store post (IntermediatePost.set_CreateAt
                        (Int64.incr (IntermediatePost.CreateAt p)) p);;
          avoidTimestampDuplications fuel' post timestamps
      end
  end.

Definition AddPostToThreads `{ThreadsStorage T} (original : SlackPost.t)
    (post : loc) (threads : T) (channel : IntermediateChannel.t)
    (timestamps : gmap Z bool) (importWorkflowPosts : bool)
    : M (T * gmap Z bool) :=
  (* direct and group posts need the channel members in the import line *)
  (if decide (IntermediateChannel.Type_ channel = ChannelTypeDirect
              ∨ IntermediateChannel.Type_ channel = ChannelTypeGroup)
   then modify post (IntermediatePost.set_IsDirect true);;
        modify post (IntermediatePost.set_ChannelMembers
                       (IntermediateChannel.MembersUsernames channel))
   else modify post (IntermediatePost.set_IsDirect false));;
  (* avoid timestamp duplications; the loop needs at most one turn per
     entry of the ledger and one more, unless the ledger holds all 2^64
     values *)
  avoidTimestampDuplications (S (size timestamps)) post timestamps;;
  p ← load post;
  let timestamps := <[IntermediatePost.CreateAt p := true]> timestamps in
  (* if post is part of a thread *)
  if decide (SlackPost.ThreadTS original ≠ ""
             ∧ SlackPost.ThreadTS original ≠ SlackPost.TimeStamp original)
  then
    '(rootPost, threads) ← LookupThread threads (SlackPost.ThreadTS original);
    match rootPost with
    | None =>
        logf (PrintfRootPostNotFound original);;
        mret (threads, timestamps)
    | Some rootPost =>
        root ← load rootPost;
        if negb importWorkflowPosts
           && bool_decide (IntermediatePost.User root = WorkflowUserName)
        then mret (threads, timestamps)
        else
          modify rootPost (λ r, IntermediatePost.set_Replies
                                  (IntermediatePost.Replies r ++ [post]) r);;
          mret (threads, timestamps)
    end
  else
    modify post IntermediatePost.Sanitise;;
    (* if post is the root of a thread *)
    if decide (SlackPost.TimeStamp original = SlackPost.ThreadTS original)
    then
      overwrite ← gets (HasThread threads (SlackPost.ThreadTS original));
      (if overwrite : bool
       then logf (Println ("WARNING: overwriting root post for thread "
                           +:+ SlackPost.ThreadTS original))
       else mret tt);;
      mret (StoreThread threads (SlackPost.ThreadTS original) post, timestamps)
    else
      overwrite ← gets (HasThread threads (SlackPost.TimeStamp original));
      (if overwrite : bool
       then logf (Println ("WARNING: overwriting root post for thread "
                           +:+ SlackPost.TimeStamp original))
       else mret tt);;
      mret (StoreThread threads (SlackPost.TimeStamp original) post, timestamps).

(** [RedisConfig]: endpoint and credentials of the backend. *)
Module RedisConfig.
Record t := mk {
  Addr : string;
  User : string;
  Password : string;
}.
End RedisConfig.

(** Modelled from the spec: the local variant of the thread store
    ([newMemoryStorage] and its methods are not in the sources).  A map
    from thread identifier to the root post's address; every entry counts
    as changed. *)
Record memoryStorage := mkMemoryStorage {
  memThreads : gmap string loc;
}.

Definition newMemoryStorage : memoryStorage := mkMemoryStorage ∅.

Global Instance memoryStorage_ThreadsStorage : ThreadsStorage memoryStorage := {|
  LookupThread s threadTS := mret (memThreads s !! threadTS, s);
  HasThread s threadTS _ := bool_decide (is_Some (memThreads s !! threadTS));
  StoreThread s threadTS post := mkMemoryStorage (<[threadTS := post]> (memThreads s));
  GetChangedThreads s := (map_to_list (memThreads s)).*2;
|}.

(** Modelled from the spec: the cache-backed variant of the thread store
    ([newRedisStorage] and its methods are not in the sources).  Remote
    keys are [<channel-name>:<thread-timestamp>]; the instance keeps a
    local cache of the posts it stored or fetched, and that cache is its
    change set.  Writing the changed posts back is the export step of the
    pipeline and is not part of this model: the backend of a [World]
    holds what earlier instances have left there. *)
Record redisStorage := mkRedisStorage {
  redisChannel : string;
  redisCache : gmap string loc;
}.

(** Modelled from the spec: the factory that holds the connection to the
    backend ([newRedisFactory] and [redisFactory] are not in the
    sources). *)
Record redisFactory := mkRedisFactory {
  factoryConfig : RedisConfig.t;
}.

(** [factory.newRedisStorage(channelName, attachmentsDir)] *)
Definition newRedisStorage (factory : redisFactory)
    (channelName attachmentsDir : string) : redisStorage :=
  mkRedisStorage channelName ∅.

Definition redisKey (channel threadTS : string) : string :=
  channel +:+ ":" +:+ threadTS.

(** Deserialization of a remote document: the replies are allocated
    first, left to right, then the post that points to them. *)
Fixpoint decodePost (d : PostDoc) : M loc :=
  match d with
  | Doc fields replies =>
      ls ← (fix decodeAll (ds : list PostDoc) : M (list loc) :=
              match ds with
              | [] => mret []
              | d' :: ds' =>
                  l ← decodePost d'; ls ← decodeAll ds'; mret (l :: ls)
              end) replies;
      alloc (IntermediatePost.set_Replies ls fields)
  end.

Global Instance redisStorage_ThreadsStorage : ThreadsStorage redisStorage := {|
  LookupThread s threadTS :=
    match redisCache s !! threadTS with
    | Some post => mret (Some post, s)
    | None =>
        doc ← gets (λ w, redis w !! redisKey (redisChannel s) threadTS);
        match doc with
        | None => mret (None, s)
        | Some d =>
            post ← decodePost d;
            mret (Some post,
                  mkRedisStorage (redisChannel s)
                                 (<[threadTS := post]> (redisCache s)))
        end
    end;
  HasThread s threadTS w :=
    bool_decide (is_Some (redisCache s !! threadTS))
    || bool_decide (is_Some (redis w !! redisKey (redisChannel s) threadTS));
  StoreThread s threadTS post :=
    mkRedisStorage (redisChannel s) (<[threadTS := post]> (redisCache s));
  GetChangedThreads s := (map_to_list (redisCache s)).*2;
|}.

(** The store a channel gets from [newChannelThreadsStorage]: the dynamic
    value behind the [ThreadsStorage] interface. *)
Inductive channelStorage :=
| MemoryStorage (s : memoryStorage)
| RedisStorage (s : redisStorage).

Global Instance channelStorage_ThreadsStorage : ThreadsStorage channelStorage := {|
  LookupThread s threadTS :=
    match s with
    | MemoryStorage m =>
        '(r, m') ← LookupThread m threadTS; mret (r, MemoryStorage m')
    | RedisStorage c =>
        '(r, c') ← LookupThread c threadTS; mret (r, RedisStorage c')
    end;
  HasThread s threadTS w :=
    match s with
    | MemoryStorage m => HasThread m threadTS w
    | RedisStorage c => HasThread c threadTS w
    end;
  StoreThread s threadTS post :=
    match s with
    | MemoryStorage m => MemoryStorage (StoreThread m threadTS post)
    | RedisStorage c => RedisStorage (StoreThread c threadTS post)
    end;
  GetChangedThreads s :=
    match s with
    | MemoryStorage m => GetChangedThreads m
    | RedisStorage c => GetChangedThreads c
    end;
|}.

(** ** What the transformer takes from outside these sources *)

(** Constants of [model], helpers of the package and library calls that
    the sources use and do not define.  [uploads] below stands for the
    zip archive and the disk. *)
Class Env := {
  (* model.ChannelGroupMaxUsers *)
  ChannelGroupMaxUsers : nat;
  (* model.ChannelNameMaxLength, model.Channel...MaxRunes *)
  ChannelNameMaxLength : nat;
  ChannelDisplayNameMaxRunes : nat;
  ChannelPurposeMaxRunes : nat;
  ChannelHeaderMaxRunes : nat;
  (* model.User...MaxRunes *)
  UserPositionMaxRunes : nat;
  UserFirstNameMaxRunes : nat;
  UserLastNameMaxRunes : nat;
  (* model.PostPropsMaxRunes *)
  PostPropsMaxRunes : nat;
  (* model.NewId() *)
  NewId : string;
  (* newRedisFactory(redisConfig): the factory, or the connection error *)
  newRedisFactory : RedisConfig.t -> redisFactory + string;
  SlackConvertChannelName : string -> string -> string;
  SlackConvertTimeStamp : string -> Z;
  isValidChannelNameCharacters : string -> bool;
  truncateRunes : string -> nat -> string;
  (* strings.ToLower *)
  ToLower : string -> string;
  (* norm.NFC of path.Join(dir, name) *)
  normalisedJoin : string -> string -> string;
  (* the methods of SlackPost that tell the message types apart *)
  IsPlainMessage : SlackPost.t -> bool;
  IsFileComment : SlackPost.t -> bool;
  IsBotMessage : SlackPost.t -> bool;
  IsJoinLeaveMessage : SlackPost.t -> bool;
  IsMeMessage : SlackPost.t -> bool;
  IsChannelTopicMessage : SlackPost.t -> bool;
  IsChannelPurposeMessage : SlackPost.t -> bool;
  IsChannelNameMessage : SlackPost.t -> bool;
}.

(** [strings.Trim(s, cutset)] for a cutset of ASCII characters. *)
Module Strings.
Fixpoint contains (cutset : string) (a : ascii) : bool :=
  match cutset with
  | EmptyString => false
  | String b rest => bool_decide (a = b) || contains rest a
  end.

Fixpoint trimLeft (cutset : string) (s : list ascii) : list ascii :=
  match s with
  | [] => []
  | a :: rest => if contains cutset a then trimLeft cutset rest else s
  end.

Definition Trim (s cutset : string) : string :=
  string_of_list_ascii
    (rev (trimLeft cutset (rev (trimLeft cutset (list_ascii_of_string s))))).
End Strings.

Section transformer.
Context `{Env}.

(** *** Channels *)

Definition IntermediateChannel_Sanitise (c : IntermediateChannel.t)
    : M IntermediateChannel.t :=
  if decide (IntermediateChannel.Type_ c = ChannelTypeDirect) then mret c
  else
    let c := IntermediateChannel.set_Name
               (Strings.Trim (IntermediateChannel.Name c) "_-") c in
    c ← (if decide (ChannelNameMaxLength
                    < String.length (IntermediateChannel.Name c))%nat
         then
           logf (Logger Warn
                   ("Channel " +:+ IntermediateChannel.DisplayName c +:+
                    " handle exceeds the maximum length. It will be truncated when imported."));;
           mret (IntermediateChannel.set_Name
                   (substring 0 ChannelNameMaxLength
                      (IntermediateChannel.Name c)) c)
         else mret c);
    let c := if decide (String.length (IntermediateChannel.Name c) = 1%nat)
             then IntermediateChannel.set_Name
                    ("slack-channel-" +:+ IntermediateChannel.Name c) c
             else c in
    let c := if isValidChannelNameCharacters (IntermediateChannel.Name c)
             then c
             else IntermediateChannel.set_Name
                    (ToLower (IntermediateChannel.Id c)) c in
    let c := IntermediateChannel.set_DisplayName
               (Strings.Trim (IntermediateChannel.DisplayName c) "_-") c in
    c ← (if decide (ChannelDisplayNameMaxRunes
                    < Utf8.RuneCountInString
                        (IntermediateChannel.DisplayName c))%nat
         then
           logf (Logger Warn
                   ("Channel " +:+ IntermediateChannel.DisplayName c +:+
                    " display name exceeds the maximum length. It will be truncated when imported."));;
           mret (IntermediateChannel.set_DisplayName
                   (truncateRunes (IntermediateChannel.DisplayName c)
                      ChannelDisplayNameMaxRunes) c)
         else mret c);
    let c := if decide (String.length (IntermediateChannel.DisplayName c)
                        = 1%nat)
             then IntermediateChannel.set_DisplayName
                    ("slack-channel-" +:+ IntermediateChannel.DisplayName c) c
             else c in
    c ← (if decide (ChannelPurposeMaxRunes
                    < Utf8.RuneCountInString (IntermediateChannel.Purpose c))%nat
         then
           logf (Logger Warn
                   ("Channel " +:+ IntermediateChannel.DisplayName c +:+
                    " purpose exceeds the maximum length. It will be truncated when imported."));;
           mret (IntermediateChannel.set_Purpose
                   (truncateRunes (IntermediateChannel.Purpose c)
                      ChannelPurposeMaxRunes) c)
         else mret c);
    if decide (ChannelHeaderMaxRunes
               < Utf8.RuneCountInString (IntermediateChannel.Header c))%nat
    then
      logf (Logger Warn
              ("Channel " +:+ IntermediateChannel.DisplayName c +:+
               " header exceeds the maximum length. It will be truncated when imported."));;
      mret (IntermediateChannel.set_Header
              (truncateRunes (IntermediateChannel.Header c)
                 ChannelHeaderMaxRunes) c)
    else mret c.

Fixpoint filterValidMembers (members : list string)
    (users : gmap string IntermediateUser.t) : list string :=
  match members with
  | [] => []
  | member :: rest =>
      match users !! member with
      | Some _ => member :: filterValidMembers rest users
      | None => filterValidMembers rest users
      end
  end.

Definition getOriginalName (channel : SlackChannel.t) : string :=
  if decide (SlackChannel.Name channel = "") then SlackChannel.Id channel
  else SlackChannel.Name channel.

(** The loop of [TransformChannels]; [resultChannels] is the slice built
    so far. *)
Fixpoint transformChannelsFrom (users : gmap string IntermediateUser.t)
    (channels : list SlackChannel.t)
    (resultChannels : list IntermediateChannel.t)
    : M (list IntermediateChannel.t) :=
  match channels with
  | [] => mret resultChannels
  | channel :: rest =>
      let validMembers :=
        filterValidMembers (SlackChannel.Members channel) users in
      if bool_decide (SlackChannel.Type_ channel = ChannelTypeDirect
                      ∨ SlackChannel.Type_ channel = ChannelTypeGroup)
         && bool_decide (length validMembers <= 1)%nat
      then
        logf (Logger Warn
                ("Bulk export for direct channels containing a single member is not supported. Not importing channel "
                 +:+ SlackChannel.Name channel));;
        transformChannelsFrom users rest resultChannels
      else
        let channel :=
          if bool_decide (SlackChannel.Type_ channel = ChannelTypeGroup)
             && bool_decide (ChannelGroupMaxUsers < length validMembers)%nat
          then SlackChannel.set_Type ChannelTypePrivate
                 (SlackChannel.set_Name (SlackChannel.Purpose channel) channel)
          else channel in
        let name := SlackConvertChannelName (SlackChannel.Name channel)
                      (SlackChannel.Id channel) in
        newChannel ← IntermediateChannel_Sanitise
          (IntermediateChannel.mk
             "" (getOriginalName channel) name (getOriginalName channel)
             validMembers [] (SlackChannel.Purpose channel)
             (SlackChannel.Topic channel) "" (SlackChannel.Type_ channel));
        transformChannelsFrom users rest (resultChannels ++ [newChannel])
  end.

Definition TransformChannels (users : gmap string IntermediateUser.t)
    (channels : list SlackChannel.t) : M (list IntermediateChannel.t) :=
  transformChannelsFrom users channels [].

(** *** Users *)

Definition IntermediateUser_Sanitise (u : IntermediateUser.t)
    : M IntermediateUser.t :=
  u ← (if decide (IntermediateUser.Email u = "")
       then
         let u := IntermediateUser.set_Email
                    (IntermediateUser.Username u +:+ "@example.com") u in
         logf (Logger Warn
                 ("User " +:+ IntermediateUser.Username u +:+
                  " does not have an email address in the Slack export. Used "
                  +:+ IntermediateUser.Email u +:+
                  " as a placeholder. The user should update their email address once logged in to the system."));;
         mret u
       else mret u);
  u ← (if decide (UserPositionMaxRunes
                  < Utf8.RuneCountInString (IntermediateUser.Position u))%nat
       then
         logf (Logger Warn
                 ("User " +:+ IntermediateUser.Username u +:+ " position "
                  +:+ IntermediateUser.Position u +:+
                  " is too long. Field will be truncated"));;
         mret (IntermediateUser.set_Position
                 (substring 0 UserPositionMaxRunes
                    (IntermediateUser.Position u)) u)
       else mret u);
  u ← (if decide (UserFirstNameMaxRunes
                  < Utf8.RuneCountInString (IntermediateUser.FirstName u))%nat
       then
         logf (Logger Warn
                 ("User " +:+ IntermediateUser.Username u +:+ " first name "
                  +:+ IntermediateUser.FirstName u +:+
                  " is too long. Field will be truncated"));;
         mret (IntermediateUser.set_FirstName
                 (substring 0 UserFirstNameMaxRunes
                    (IntermediateUser.FirstName u)) u)
       else mret u);
  if decide (UserLastNameMaxRunes
             < Utf8.RuneCountInString (IntermediateUser.LastName u))%nat
  then
    logf (Logger Warn
            ("User " +:+ IntermediateUser.Username u +:+ " last name "
             +:+ IntermediateUser.LastName u +:+
             " is too long. Field will be truncated"));;
    mret (IntermediateUser.set_LastName
            (substring 0 UserLastNameMaxRunes
               (IntermediateUser.LastName u)) u)
  else mret u.

(** [selectOrCreateWorkflowUser]; the users map is [t.Intermediate.UsersById]. *)
Definition selectOrCreateWorkflowUser
    (users : gmap string IntermediateUser.t)
    : M (IntermediateUser.t * gmap string IntermediateUser.t) :=
  let userID := "importedworkflow" in
  match users !! userID with
  | Some existingUser => mret (existingUser, users)
  | None =>
      newUser ← IntermediateUser_Sanitise
        (IntermediateUser.mk userID WorkflowUserName WorkflowUserName ""
           "" "imported-workflow@tinkoff.ru" NewId [] None "");
      mret (newUser, <[userID := newUser]> users)
  end.

(** *** Stores *)

(** [newChannelThreadsStorage]; [factory] is [t.redisFactory], returned
    as the call leaves it. *)
Definition newChannelThreadsStorage (factory : option redisFactory)
    (channelName attachmentsDir : string)
    (redisConfig : option RedisConfig.t)
    : (channelStorage + string) * option redisFactory :=
  match redisConfig with
  | None => (inl (MemoryStorage newMemoryStorage), factory)
  | Some config =>
      match factory with
      | Some f =>
          (inl (RedisStorage (newRedisStorage f channelName attachmentsDir)),
           factory)
      | None =>
          match newRedisFactory config with
          | inr err => (inr err, None)
          | inl f =>
              (inl (RedisStorage
                      (newRedisStorage f channelName attachmentsDir)),
               Some f)
          end
      end
  end.

(** *** Posts *)

Record TransformConfig := mkTransformConfig {
  AttachmentsDir : string;
  SkipAttachments : bool;
  DiscardInvalidProps : bool;
  AuthDataAsEmail : bool;
  AuthService : string;
  ImportWorkflowMessages : bool;
  SkipPosts : bool;
  SkipChannels : bool;
  RedisConfig_ : option RedisConfig.t;
}.

Definition getNormalisedFilePath (file : SlackFile.t)
    (attachmentsDir : string) : string :=
  normalisedJoin attachmentsDir
    (SlackFile.Id file +:+ "_" +:+ SlackFile.Name file).

(** [addFileToPost].  [uploads] maps the id of an uploaded file to what
    opening it in the archive and copying it to the attachments directory
    comes to: [None] for success, [Some err] for the error of the step
    that fails.  The result is the returned error. *)
Definition addFileToPost (file : SlackFile.t)
    (uploads : gmap string (option string)) (post : loc)
    (attachmentsDir : string) : M (option string) :=
  match uploads !! SlackFile.Id file with
  | None =>
      mret (Some ("failed to retrieve file with id " +:+ SlackFile.Id file))
  | Some (Some err) => mret (Some err)
  | Some None =>
      let destFilePath := getNormalisedFilePath file attachmentsDir in
      logf (Println ("SUCCESS COPYING FILE " +:+ SlackFile.Id file
                     +:+ " TO DEST " +:+ destFilePath));;
      modify post (λ p, IntermediatePost.set_Attachments
                          (IntermediatePost.Attachments p ++ [destFilePath]) p);;
      mret None
  end.

(** The block "if (post.File != nil || post.Files != nil) &&
    !cfg.SkipAttachments" of the plain and the bot case. *)
Definition addFilesToPost (cfg : TransformConfig)
    (uploads : gmap string (option string)) (post : SlackPost.t)
    (newPost : loc) : M unit :=
  let addFile (file : SlackFile.t) : M unit :=
    err ← addFileToPost file uploads newPost (AttachmentsDir cfg);
    match err with
    | Some e => logf (LoggerWithError e "Failed to add file to post")
    | None => mret tt
    end in
  if negb (SkipAttachments cfg) then
    match SlackPost.File post with
    | Some file => addFile file
    | None =>
        (fix each (files : list SlackFile.t) : M unit :=
           match files with
           | [] => mret tt
           | file :: rest => addFile file;; each rest
           end) (SlackPost.Files post)
    end
  else mret tt.

(** [json.Marshal(model.StringInterface{"attachments": attachments})] *)
Definition marshalProps (attachments : list SlackAttachment) : string :=
  let quote := String "034"%char EmptyString in
  "{" +:+ quote +:+ "attachments" +:+ quote +:+ ":["
  +:+ String.concat "," (attachmentJSON <$> attachments) +:+ "]}".

(** The block "if len(post.Attachments) > 0" of the plain and the bot
    case; [false] stands for its [continue]. *)
Definition addPropsToPost (cfg : TransformConfig) (post : SlackPost.t)
    (newPost : loc) : M bool :=
  if decide (0 < length (SlackPost.Attachments post))%nat then
    let props : gmap string (list SlackAttachment) :=
      {[ "attachments" := SlackPost.Attachments post ]} in
    let propsB := marshalProps (SlackPost.Attachments post) in
    if decide (Utf8.RuneCountInString propsB <= PostPropsMaxRunes)%nat then
      modify newPost (IntermediatePost.set_Props props);;
      mret true
    else if DiscardInvalidProps cfg then
      logf (Logger Warn "Unable import post as props exceed the maximum character count. Skipping as --discard-invalid-props is enabled.");;
      mret false
    else
      logf (Logger Warn "Unable to add props to post as they exceed the maximum character count.");;
      mret true
  else mret true.

(** [&IntermediatePost{User: ..., Channel: ..., Message: ..., CreateAt: ...}] *)
Definition newIntermediatePost (author : IntermediateUser.t)
    (channel : IntermediateChannel.t) (message timeStamp : string)
    : IntermediatePost.t :=
  IntermediatePost.mk (IntermediateUser.Username author)
    (IntermediateChannel.Name channel) message ∅
    (SlackConvertTimeStamp timeStamp) [] [] false [].

(** The body of the loop over a channel's posts in [TransformPosts]: the
    switch on the message type.  A [continue] or [break] returns the
    users, the store and the ledger as they are. *)
Definition transformPost `{ThreadsStorage T} (cfg : TransformConfig)
    (uploads : gmap string (option string))
    (channel : IntermediateChannel.t) (post : SlackPost.t)
    (users : gmap string IntermediateUser.t) (threads : T)
    (timestamps : gmap Z bool)
    : M (gmap string IntermediateUser.t * T * gmap Z bool) :=
  let add (newPost : loc) (users : gmap string IntermediateUser.t) :=
    '(threads, timestamps) ←
      AddPostToThreads post newPost threads channel timestamps
        (ImportWorkflowMessages cfg);
    mret (users, threads, timestamps) in
  (* the four cases that only need the author of post.User *)
  let authored (prefix : string) :=
    if decide (SlackPost.User post = "") then
      logf (Logger Warn (prefix +:+ "Unable to import the message as the user field is missing."));;
      mret (users, threads, timestamps)
    else
      match users !! SlackPost.User post with
      | None =>
          logf (Logger Warn
                  (prefix +:+ "Unable to add the message as the Slack user does not exist in Mattermost. user="
                   +:+ SlackPost.User post));;
          mret (users, threads, timestamps)
      | Some author =>
          newPost ← alloc (newIntermediatePost author channel
                             (SlackPost.Text post) (SlackPost.TimeStamp post));
          add newPost users
      end in
  (* plain message that can have files attached *)
  if IsPlainMessage post then
    if decide (SlackPost.User post = "") then
      logf (Logger Warn "Unable to import the message as the user field is missing.");;
      mret (users, threads, timestamps)
    else
      match users !! SlackPost.User post with
      | None =>
          logf (Logger Warn
                  ("Unable to add the message as the Slack user does not exist in Mattermost. user="
                   +:+ SlackPost.User post));;
          mret (users, threads, timestamps)
      | Some author =>
          newPost ← alloc (newIntermediatePost author channel
                             (SlackPost.Text post) (SlackPost.TimeStamp post));
          addFilesToPost cfg uploads post newPost;;
          keep ← addPropsToPost cfg post newPost;
          if keep : bool then add newPost users
          else mret (users, threads, timestamps)
      end
  (* file comment *)
  else if IsFileComment post then
    match SlackPost.Comment post with
    | None =>
        logf (Logger Warn "Unable to import the message as it has no comments.");;
        mret (users, threads, timestamps)
    | Some comment =>
        if decide (SlackComment.User comment = "") then
          logf (Logger Warn "Unable to import the message as the user field is missing.");;
          mret (users, threads, timestamps)
        else
          match users !! SlackComment.User comment with
          | None =>
              logf (Logger Warn
                      ("Unable to add the message as the Slack user does not exist in Mattermost. user="
                       +:+ SlackComment.User comment));;
              mret (users, threads, timestamps)
          | Some author =>
              newPost ← alloc (newIntermediatePost author channel
                                 (SlackComment.Comment comment)
                                 (SlackPost.TimeStamp post));
              add newPost users
          end
    end
  (* bot message *)
  else if IsBotMessage post then
    if negb (ImportWorkflowMessages cfg) then mret (users, threads, timestamps)
    else
      '(author, users) ← selectOrCreateWorkflowUser users;
      newPost ← alloc (newIntermediatePost author channel
                         (SlackPost.Text post) (SlackPost.TimeStamp post));
      addFilesToPost cfg uploads post newPost;;
      keep ← addPropsToPost cfg post newPost;
      if keep : bool then add newPost users
      else mret (users, threads, timestamps)
  (* channel join/leave messages *)
  else if IsJoinLeaveMessage post then mret (users, threads, timestamps)
  (* me message *)
  else if IsMeMessage post then mret (users, threads, timestamps)
  (* change topic message *)
  else if IsChannelTopicMessage post then authored ""
  (* change channel purpose message *)
  else if IsChannelPurposeMessage post then authored ""
  (* change channel name message *)
  else if IsChannelNameMessage post then authored "Slack Import: "
  else
    logf (Logger Warn
            ("Unable to import the message as its type is not supported. post_type="
             +:+ SlackPost.Type_ post +:+ ", post_subtype="
             +:+ SlackPost.SubType post));;
    mret (users, threads, timestamps).

(** The loop over a channel's posts, in the order they are in after the
    sort. *)
Fixpoint transformChannelPosts `{ThreadsStorage T} (cfg : TransformConfig)
    (uploads : gmap string (option string))
    (channel : IntermediateChannel.t) (channelPosts : list SlackPost.t)
    (users : gmap string IntermediateUser.t) (threads : T)
    (timestamps : gmap Z bool)
    : M (gmap string IntermediateUser.t * T * gmap Z bool) :=
  match channelPosts with
  | [] => mret (users, threads, timestamps)
  | post :: rest =>
      '(users, threads, timestamps) ←
        transformPost cfg uploads channel post users threads timestamps;
      transformChannelPosts cfg uploads channel rest users threads timestamps
  end.

End transformer.

(** ** The pipeline around the channels and the posts *)

(** The fields of [SlackUser] that [TransformUsers] reads; the profile is
    inlined. *)
Module SlackUser.
Record t := mk {
  Id : string;
  Username : string;
  FirstName : string;   (* user.Profile.FirstName *)
  LastName : string;    (* user.Profile.LastName *)
  Title : string;       (* user.Profile.Title *)
  Email : string;       (* user.Profile.Email *)
}.
End SlackUser.

Definition IntermediateUser_set_Memberships (v : list string)
    (u : IntermediateUser.t) : IntermediateUser.t :=
  IntermediateUser.mk (IntermediateUser.Id u) (IntermediateUser.Username u)
    (IntermediateUser.FirstName u) (IntermediateUser.LastName u)
    (IntermediateUser.Position u) (IntermediateUser.Email u)
    (IntermediateUser.Password u) v (IntermediateUser.AuthData u)
    (IntermediateUser.AuthService u).

(** [u.AuthData = &u.Email; u.AuthService = authService].  The pointer is
    held as the address it reads: nothing writes the email afterwards. *)
Definition IntermediateUser_set_Auth (authService : string)
    (u : IntermediateUser.t) : IntermediateUser.t :=
  IntermediateUser.mk (IntermediateUser.Id u) (IntermediateUser.Username u)
    (IntermediateUser.FirstName u) (IntermediateUser.LastName u)
    (IntermediateUser.Position u) (IntermediateUser.Email u)
    (IntermediateUser.Password u) (IntermediateUser.Memberships u)
    (Some (IntermediateUser.Email u)) authService.

(** [Intermediate].  The channels and users are held by value: a channel
    is only written through the list that holds it, a user through the
    map, and every later read goes through them too. *)
Module Intermediate.
Record t := mk {
  PublicChannels : list IntermediateChannel.t;
  PrivateChannels : list IntermediateChannel.t;
  GroupChannels : list IntermediateChannel.t;
  DirectChannels : list IntermediateChannel.t;
  UsersById : gmap string IntermediateUser.t;
  Posts : list loc;
}.

Definition zero : t := mk [] [] [] [] ∅ [].

Definition set_PublicChannels (v : list IntermediateChannel.t) (i : t) : t :=
  mk v (PrivateChannels i) (GroupChannels i) (DirectChannels i)
     (UsersById i) (Posts i).
Definition set_PrivateChannels (v : list IntermediateChannel.t) (i : t) : t :=
  mk (PublicChannels i) v (GroupChannels i) (DirectChannels i)
     (UsersById i) (Posts i).
Definition set_GroupChannels (v : list IntermediateChannel.t) (i : t) : t :=
  mk (PublicChannels i) (PrivateChannels i) v (DirectChannels i)
     (UsersById i) (Posts i).
Definition set_DirectChannels (v : list IntermediateChannel.t) (i : t) : t :=
  mk (PublicChannels i) (PrivateChannels i) (GroupChannels i) v
     (UsersById i) (Posts i).
Definition set_UsersById (v : gmap string IntermediateUser.t) (i : t) : t :=
  mk (PublicChannels i) (PrivateChannels i) (GroupChannels i)
     (DirectChannels i) v (Posts i).
Definition set_Posts (v : list loc) (i : t) : t :=
  mk (PublicChannels i) (PrivateChannels i) (GroupChannels i)
     (DirectChannels i) (UsersById i) v.
End Intermediate.

(** The fields of [SlackExport] the transformer reads.  [Posts] is a Go
    map from channel name to the channel's messages: it is held as its
    entries in the order the [range] of [TransformPosts] visits them.
    [Uploads] is as for [addFileToPost]. *)
Module SlackExport.
Record t := mk {
  Users : list SlackUser.t;
  PublicChannels : list SlackChannel.t;
  PrivateChannels : list SlackChannel.t;
  GroupChannels : list SlackChannel.t;
  DirectChannels : list SlackChannel.t;
  Posts : list (string * list SlackPost.t);
  Uploads : gmap string (option string);
}.
End SlackExport.

(** The state of a [Transformer]: its intermediate data and the redis
    factory it has opened, if any.  Its logger writes to the log of the
    world. *)
Module Transformer.
Record t := mk {
  Intermediate : Intermediate.t;
  redisFactory_ : option redisFactory;
}.

Definition set_Intermediate (v : Intermediate.t) (t0 : t) : t :=
  mk v (redisFactory_ t0).
End Transformer.

(** Two more helpers that the sources use and do not define. *)
Class Helpers := {
  (* SplitChannelsByMemberSize(channels, limit): the regular and the big
     channels *)
  SplitChannelsByMemberSize :
    list SlackChannel.t -> nat -> list SlackChannel.t * list SlackChannel.t;
  (* sort.Slice(channelPosts, less) with less comparing
     SlackConvertTimeStamp of the timestamps: the slice after the sort *)
  sortedByTimeStamp : list SlackPost.t -> list SlackPost.t;
}.

Section pipeline.
Context `{Env} `{Helpers}.

(** *** Users *)

(** The loop of [TransformUsers]; [resultUsers] is the map built so
    far. *)
Fixpoint transformUsersFrom (users : list SlackUser.t)
    (authDataAsEmail : bool) (authService : string)
    (resultUsers : gmap string IntermediateUser.t)
    : M (gmap string IntermediateUser.t) :=
  match users with
  | [] => mret resultUsers
  | user :: rest =>
      newUser ← IntermediateUser_Sanitise
        (IntermediateUser.mk (SlackUser.Id user) (SlackUser.Username user)
           (SlackUser.FirstName user) (SlackUser.LastName user)
           (SlackUser.Title user) (SlackUser.Email user) "" [] None "");
      let newUser :=
        if authDataAsEmail && bool_decide (authService ≠ "")
        then IntermediateUser_set_Auth authService newUser
        else newUser in
      let resultUsers := <[IntermediateUser.Id newUser := newUser]> resultUsers in
      logf (Logger Debug
              ("Slack user with email " +:+ IntermediateUser.Email newUser
               +:+ " has been imported."));;
      transformUsersFrom rest authDataAsEmail authService resultUsers
  end.

Definition TransformUsers (users : list SlackUser.t) (authDataAsEmail : bool)
    (authService : string) (t : Transformer.t) : M Transformer.t :=
  logf (Logger Info "Transforming users");;
  resultUsers ← transformUsersFrom users authDataAsEmail authService ∅;
  mret (Transformer.set_Intermediate
          (Intermediate.set_UsersById resultUsers (Transformer.Intermediate t))
          t).

(** *** Memberships *)

(** The loop over [channel.Members] in [PopulateUserMemberships]: the
    channel's name is appended at the first member that is the user, and
    the loop breaks. *)
Fixpoint appendIfMember (userId channelName : string) (members : list string)
    (memberships : list string) : list string :=
  match members with
  | [] => memberships
  | memberId :: rest =>
      if decide (userId = memberId) then (memberships ++ [channelName])%list
      else appendIfMember userId channelName rest memberships
  end.

(** One of the two loops over channels in [PopulateUserMemberships]. *)
Fixpoint appendMemberships (userId : string)
    (channels : list IntermediateChannel.t) (memberships : list string)
    : list string :=
  match channels with
  | [] => memberships
  | channel :: rest =>
      appendMemberships userId rest
        (appendIfMember userId (IntermediateChannel.Name channel)
           (IntermediateChannel.Members channel) memberships)
  end.

(** The users of the map are visited in no particular order; what is done
    for one does not depend on the others. *)
Definition PopulateUserMemberships (t : Transformer.t) : M Transformer.t :=
  logf (Logger Info "Populating user memberships");;
  let i := Transformer.Intermediate t in
  mret (Transformer.set_Intermediate
          (Intermediate.set_UsersById
             (map_imap
                (λ userId user,
                   let memberships := [] in
                   let memberships :=
                     appendMemberships userId (Intermediate.PublicChannels i)
                       memberships in
                   let memberships :=
                     appendMemberships userId (Intermediate.PrivateChannels i)
                       memberships in
                   Some (IntermediateUser_set_Memberships memberships user))
                (Intermediate.UsersById i)) i)
          t).

(** The loop over [channel.Members] in [PopulateChannelMemberships]. *)
Fixpoint appendUsernames (members : list string)
    (users : gmap string IntermediateUser.t) (usernames : list string)
    : list string :=
  match members with
  | [] => usernames
  | memberId :: rest =>
      match users !! memberId with
      | Some user =>
          appendUsernames rest users
            (usernames ++ [IntermediateUser.Username user])%list
      | None => appendUsernames rest users usernames
      end
  end.

(** The body of each of the two loops over channels. *)
Definition populateChannel (users : gmap string IntermediateUser.t)
    (channel : IntermediateChannel.t) : IntermediateChannel.t :=
  IntermediateChannel.set_MembersUsernames
    (appendUsernames (IntermediateChannel.Members channel) users []) channel.

Definition PopulateChannelMemberships (t : Transformer.t) : M Transformer.t :=
  logf (Logger Info "Populating channel memberships");;
  let i := Transformer.Intermediate t in
  let users := Intermediate.UsersById i in
  mret (Transformer.set_Intermediate
          (Intermediate.set_DirectChannels
             (populateChannel users <$> Intermediate.DirectChannels i)
             (Intermediate.set_GroupChannels
                (populateChannel users <$> Intermediate.GroupChannels i) i))
          t).

(** *** All channels *)

(** The result is the transformer and the returned error, which is always
    nil. *)
Definition TransformAllChannels (slackExport : SlackExport.t)
    (t : Transformer.t) : M (Transformer.t * option string) :=
  logf (Logger Info "Transforming channels");;
  let i := Transformer.Intermediate t in
  let users := Intermediate.UsersById i in
  (* transform public *)
  public ← TransformChannels users (SlackExport.PublicChannels slackExport);
  (* transform private *)
  private ← TransformChannels users (SlackExport.PrivateChannels slackExport);
  (* transform group *)
  let '(regularGroupChannels, bigGroupChannels) :=
    SplitChannelsByMemberSize (SlackExport.GroupChannels slackExport)
      ChannelGroupMaxUsers in
  big ← TransformChannels users bigGroupChannels;
  let private := (private ++ big)%list in
  group ← TransformChannels users regularGroupChannels;
  (* transform direct *)
  direct ← TransformChannels users (SlackExport.DirectChannels slackExport);
  mret (Transformer.set_Intermediate
          (Intermediate.set_DirectChannels direct
             (Intermediate.set_GroupChannels group
                (Intermediate.set_PrivateChannels private
                   (Intermediate.set_PublicChannels public i))))
          t,
        None).

(** *** Posts *)

(** One of the four loops of [buildChannelsByOriginalNameMap]. *)
Fixpoint addChannelsByName (channels : list IntermediateChannel.t)
    (channelsByName : gmap string IntermediateChannel.t)
    : gmap string IntermediateChannel.t :=
  match channels with
  | [] => channelsByName
  | channel :: rest =>
      addChannelsByName rest
        (<[IntermediateChannel.OriginalName channel := channel]> channelsByName)
  end.

Definition buildChannelsByOriginalNameMap (intermediate : Intermediate.t)
    : gmap string IntermediateChannel.t :=
  let channelsByName := ∅ in
  let channelsByName :=
    addChannelsByName (Intermediate.PublicChannels intermediate) channelsByName in
  let channelsByName :=
    addChannelsByName (Intermediate.PrivateChannels intermediate) channelsByName in
  let channelsByName :=
    addChannelsByName (Intermediate.GroupChannels intermediate) channelsByName in
  addChannelsByName (Intermediate.DirectChannels intermediate) channelsByName.

(** The loop over [slackExport.Posts] in [TransformPosts].  The users and
    the factory are [t.Intermediate.UsersById] and [t.redisFactory];
    [resultPosts] is the slice built so far.  The first component of the
    result is the error the loop returns with, if it does.  The sort is
    in place, on the slice of the export, which nothing reads again. *)
Fixpoint transformPostsFrom (cfg : TransformConfig)
    (uploads : gmap string (option string))
    (channelsByOriginalName : gmap string IntermediateChannel.t)
    (posts : list (string * list SlackPost.t))
    (users : gmap string IntermediateUser.t) (factory : option redisFactory)
    (resultPosts : list loc)
    : M (option string * gmap string IntermediateUser.t
         * option redisFactory * list loc) :=
  match posts with
  | [] => mret (None, users, factory, resultPosts)
  | (originalChannelName, channelPosts) :: rest =>
      match channelsByOriginalName !! originalChannelName with
      | None =>
          logf (Logger Warn
                  ("--- Couldn't find channel " +:+ originalChannelName
                   +:+ " referenced by posts"));;
          transformPostsFrom cfg uploads channelsByOriginalName rest users
            factory resultPosts
      | Some channel =>
          let timestamps : gmap Z bool := ∅ in
          let channelPosts := sortedByTimeStamp channelPosts in
          let '(threads, factory) :=
            newChannelThreadsStorage factory originalChannelName
              (AttachmentsDir cfg) (RedisConfig_ cfg) in
          match threads with
          | inr err => mret (Some err, users, factory, resultPosts)
          | inl threads =>
              '(users, threads, _) ←
                transformChannelPosts cfg uploads channel channelPosts users
                  threads timestamps;
              transformPostsFrom cfg uploads channelsByOriginalName rest users
                factory (resultPosts ++ GetChangedThreads threads)%list
          end
      end
  end.

(** The result is the transformer and the returned error. *)
Definition TransformPosts (cfg : TransformConfig) (slackExport : SlackExport.t)
    (t : Transformer.t) : M (Transformer.t * option string) :=
  logf (Logger Info "Transforming posts");;
  let newGroupChannels : list IntermediateChannel.t := [] in
  let newDirectChannels : list IntermediateChannel.t := [] in
  let channelsByOriginalName :=
    buildChannelsByOriginalNameMap (Transformer.Intermediate t) in
  '(err, users, factory, resultPosts) ←
    transformPostsFrom cfg (SlackExport.Uploads slackExport)
      channelsByOriginalName (SlackExport.Posts slackExport)
      (Intermediate.UsersById (Transformer.Intermediate t))
      (Transformer.redisFactory_ t) [];
  let i := Intermediate.set_UsersById users (Transformer.Intermediate t) in
  match err with
  | Some e => mret (Transformer.mk i factory, Some e)
  | None =>
      let i := Intermediate.set_Posts resultPosts i in
      let i := Intermediate.set_GroupChannels
                 (Intermediate.GroupChannels i ++ newGroupChannels)%list i in
      let i := Intermediate.set_DirectChannels
                 (Intermediate.DirectChannels i ++ newDirectChannels)%list i in
      mret (Transformer.mk i factory, None)
  end.

(** *** The whole transformation *)

Definition Transform (cfg : TransformConfig) (slackExport : SlackExport.t)
    (t : Transformer.t) : M (Transformer.t * option string) :=
  t ← TransformUsers (SlackExport.Users slackExport) (AuthDataAsEmail cfg)
        (AuthService cfg) t;
  '(t, err) ←
    (if negb (SkipChannels cfg) then
       '(t, err) ← TransformAllChannels slackExport t;
       match err with
       | Some e => mret (t, Some e)
       | None =>
           t ← PopulateUserMemberships t;
           t ← PopulateChannelMemberships t;
           mret (t, None)
       end
     else mret (t, None));
  match err with
  | Some e => mret (t, Some e)
  | None =>
      if negb (SkipPosts cfg) then TransformPosts cfg slackExport t
      else mret (t, None)
  end.

End pipeline.

(** ** Vocabulary of the statements *)

(** The world with the post at [l] replaced by [v]. *)
Definition withPost (l : loc) (v : IntermediatePost.t) (w : World) : World :=
  set_heap (<[l := v]> (heap w)) w.

(** What the first statements of [AddPostToThreads] make of a post: the
    direct/group marking of its channel. *)
Definition enrichForChannel (channel : IntermediateChannel.t)
    (v : IntermediatePost.t) : IntermediatePost.t :=
  if decide (IntermediateChannel.Type_ channel = ChannelTypeDirect
             ∨ IntermediateChannel.Type_ channel = ChannelTypeGroup)
  then IntermediatePost.set_ChannelMembers
         (IntermediateChannel.MembersUsernames channel)
         (IntermediatePost.set_IsDirect true v)
  else IntermediatePost.set_IsDirect false v.

(** The creation time [c] after [k] unit increments. *)
Definition bumped (c : Z) (k : nat) : Z := Nat.iter k Int64.incr c.

(** [k] is the smallest number of unit increments that takes [c] to a
    value absent from the ledger. *)
Definition firstFree (timestamps : gmap Z bool) (c : Z) (k : nat) : Prop :=
  (∀ j, (j < k)%nat → is_Some (timestamps !! bumped c j))
  ∧ timestamps !! bumped c k = None.

(** The test "if post is part of a thread" of [AddPostToThreads]. *)
Definition isReply (original : SlackPost.t) : Prop :=
  SlackPost.ThreadTS original ≠ ""
  ∧ SlackPost.ThreadTS original ≠ SlackPost.TimeStamp original.

(** The statements of [AddPostToThreads] from "if post is part of a
    thread" on: the root/reply classification, run on a ledger that
    already records the post's creation time. *)
Definition classifyPost `{ThreadsStorage T} (original : SlackPost.t)
    (post : loc) (threads : T) (timestamps : gmap Z bool)
    (importWorkflowPosts : bool) : M (T * gmap Z bool) :=
  if decide (SlackPost.ThreadTS original ≠ ""
             ∧ SlackPost.ThreadTS original ≠ SlackPost.TimeStamp original)
  then
    '(rootPost, threads) ← LookupThread threads (SlackPost.ThreadTS original);
    match rootPost with
    | None =>
        logf (PrintfRootPostNotFound original);;
        mret (threads, timestamps)
    | Some rootPost =>
        root ← load rootPost;
        if negb importWorkflowPosts
           && bool_decide (IntermediatePost.User root = WorkflowUserName)
        then mret (threads, timestamps)
        else
          modify rootPost (λ r, IntermediatePost.set_Replies
                                  (IntermediatePost.Replies r ++ [post]) r);;
          mret (threads, timestamps)
    end
  else
    modify post IntermediatePost.Sanitise;;
    if decide (SlackPost.TimeStamp original = SlackPost.ThreadTS original)
    then
      overwrite ← gets (HasThread threads (SlackPost.ThreadTS original));
      (if overwrite : bool
       then logf (Println ("WARNING: overwriting root post for thread "
                           +:+ SlackPost.ThreadTS original))
       else mret tt);;
      mret (StoreThread threads (SlackPost.ThreadTS original) post, timestamps)
    else
      overwrite ← gets (HasThread threads (SlackPost.TimeStamp original));
      (if overwrite : bool
       then logf (Println ("WARNING: overwriting root post for thread "
                           +:+ SlackPost.TimeStamp original))
       else mret tt);;
      mret (StoreThread threads (SlackPost.TimeStamp original) post, timestamps).

(** What the assembly relies on in a thread store, whichever variant. *)
Class LawfulThreadsStorage (T : Type) `{ThreadsStorage T} : Prop := {
  (* a lookup always answers *)
  LookupThread_total (s : T) k w : is_Some (LookupThread s k w);
  (* it may allocate, and leaves the backend, the log and the posts that
     exist alone *)
  LookupThread_frame (s : T) k w r s' w' :
    LookupThread s k w = Some ((r, s'), w') →
    heap w ⊆ heap w' ∧ redis w' = redis w ∧ logs w' = logs w;
  (* a lookup that finds nothing changes nothing *)
  LookupThread_nil (s : T) k w s' w' :
    LookupThread s k w = Some ((None, s'), w') → s' = s ∧ w' = w;
  (* it finds a post exactly when HasThread says so *)
  LookupThread_HasThread (s : T) k w r s' w' :
    LookupThread s k w = Some ((r, s'), w') →
    HasThread s k w = bool_decide (is_Some r);
  (* it does not read the posts *)
  LookupThread_withPost (s : T) k w r s' w' l v :
    is_Some (heap w !! l) →
    LookupThread s k w = Some ((r, s'), w') →
    LookupThread s k (withPost l v w) = Some ((r, s'), withPost l v w');
  (* HasThread reads the backend only *)
  HasThread_redis (s : T) k w w' :
    redis w = redis w' → HasThread s k w = HasThread s k w';
  (* a post that was found is found again, at the same address *)
  LookupThread_again (s : T) k w p s' w' :
    LookupThread s k w = Some ((Some p, s'), w') →
    ∀ w'', LookupThread s' k w'' = Some ((Some p, s'), w'');
  (* a stored post is there *)
  LookupThread_StoreThread (s : T) k p w :
    LookupThread (StoreThread s k p) k w = Some ((Some p, StoreThread s k p), w);
  HasThread_StoreThread (s : T) k p w :
    HasThread (StoreThread s k p) k w = true;
  (* what was stored or found is in the change set *)
  StoreThread_changed (s : T) k p : p ∈ GetChangedThreads (StoreThread s k p);
  LookupThread_changed (s : T) k w p s' w' :
    LookupThread s k w = Some ((Some p, s'), w') → p ∈ GetChangedThreads s';
}.

(** The accepted messages of one channel, as the loop of [TransformPosts]
    hands them over: for each message, in order, a new post is allocated
    ([newPost := &IntermediatePost{...}]) and [AddPostToThreads] is called
    with the channel's store and ledger.  The addresses of the new posts
    are returned for reference. *)
Fixpoint addPostsToThreads `{ThreadsStorage T}
    (messages : list (SlackPost.t * IntermediatePost.t)) (threads : T)
    (channel : IntermediateChannel.t) (timestamps : gmap Z bool)
    (importWorkflowPosts : bool) : M (list loc * T * gmap Z bool) :=
  match messages with
  | [] => mret ([], threads, timestamps)
  | (original, newPost) :: rest =>
      post ← alloc newPost;
      '(threads, timestamps) ←
        AddPostToThreads original post threads channel timestamps
          importWorkflowPosts;
      '(posts, threads, timestamps) ←
        addPostsToThreads rest threads channel timestamps importWorkflowPosts;
      mret (post :: posts, threads, timestamps)
  end.

(** The ledger on its own: starting from [timestamps], the creation times
    [cs] are resolved one after the other to [rs], each to its first free
    value, which is then recorded. *)
Inductive Resolved : gmap Z bool → list Z → list Z → gmap Z bool → Prop :=
| Resolved_nil timestamps :
    Resolved timestamps [] [] timestamps
| Resolved_cons timestamps c k cs rs timestamps' :
    firstFree timestamps c k →
    Resolved (<[bumped c k := true]> timestamps) cs rs timestamps' →
    Resolved timestamps (c :: cs) (bumped c k :: rs) timestamps'.

(** The creation time the post at [l] carries in [w]. *)
Definition createAtOf (w : World) (l : loc) : option Z :=
  IntermediatePost.CreateAt <$> heap w !! l.

(** What the owner of a store instance does with it between opening it and
    asking for the changed threads: the three calls of the interface, and
    in-place updates of posts. *)
Inductive StoreOp :=
| OpStoreThread (threadTS : string) (post : loc)
| OpLookupThread (threadTS : string)
| OpHasThread (threadTS : string)
| OpUpdate (post : loc) (v : IntermediatePost.t).

(** Runs the operations on the instance [s]; [touched] collects the
    thread identifiers that are stored or successfully looked up. *)
Fixpoint runOps `{ThreadsStorage T} (ops : list StoreOp) (s : T)
    (touched : gset string) : M (T * gset string) :=
  match ops with
  | [] => mret (s, touched)
  | OpStoreThread threadTS post :: ops' =>
      runOps ops' (StoreThread s threadTS post) ({[threadTS]} ∪ touched)
  | OpLookupThread threadTS :: ops' =>
      '(r, s') ← LookupThread s threadTS;
      runOps ops' s' (match r with
                      | Some _ => {[threadTS]} ∪ touched
                      | None => touched
                      end)
  | OpHasThread threadTS :: ops' =>
      _ ← gets (HasThread s threadTS);
      runOps ops' s touched
  | OpUpdate post v :: ops' =>
      store post v;;
      runOps ops' s touched
  end.

(** The posts an instance holds locally, by thread identifier. *)
Definition localThreads (s : channelStorage) : gmap string loc :=
  match s with
  | MemoryStorage m => memThreads m
  | RedisStorage c => redisCache c
  end.

(** No backend entry can answer for [threadTS]: the store is the local
    variant, or the backend holds nothing under the channel's key. *)
Definition backendMiss (s : channelStorage) (threadTS : string) (w : World)
    : Prop :=
  match s with
  | MemoryStorage _ => True
  | RedisStorage c => redis w !! redisKey (redisChannel c) threadTS = None
  end.

(** [s'] is a later state of the instance [s]: the same variant, for the
    same channel. *)
Definition sameInstance (s s' : channelStorage) : Prop :=
  match s, s' with
  | MemoryStorage _, MemoryStorage _ => True
  | RedisStorage c, RedisStorage c' => redisChannel c = redisChannel c'
  | _, _ => False
  end.

(** The post as [AddPostToThreads] has it when classification starts:
    marked for its channel, at the creation time reached by [k]
    increments. *)
Definition resolvedPost (channel : IntermediateChannel.t)
    (v : IntermediatePost.t) (k : nat) : IntermediatePost.t :=
  IntermediatePost.set_CreateAt (bumped (IntermediatePost.CreateAt v) k)
    (enrichForChannel channel v).

(** [m] run in [w] returns, with a result and a world that satisfy [Q]. *)
Definition returns {A} (m : M A) (w : World) (Q : A → World → Prop) : Prop :=
  ∃ a w', m w = Some (a, w') ∧ Q a w'.

(** Only the log has changed from [w] to [w']. *)
Definition logsOnly (w : World) {A} (_ : A) (w' : World) : Prop :=
  heap w' = heap w ∧ redis w' = redis w.

(** What adding files leaves of the world: the new post is still there
    with the props it had, the other posts and the backend are as they
    were. *)
Definition filesOnly (newPost : loc) (w : World) {A} (_ : A) (w' : World)
    : Prop :=
  (∃ v v', heap w !! newPost = Some v ∧ heap w' !! newPost = Some v'
           ∧ IntermediatePost.Props v' = IntermediatePost.Props v)
  ∧ (∀ l, l ≠ newPost → heap w' !! l = heap w !! l)
  ∧ redis w' = redis w.


(** ** Vocabulary of the statements on the pipeline *)

Section vocabulary.
Context `{Env}.

(** What [IntermediateUser.Sanitise] makes of a user, field by field. *)
Definition sanitisedFrom (u u' : IntermediateUser.t) : Prop :=
  IntermediateUser.Id u' = IntermediateUser.Id u
  ∧ IntermediateUser.Username u' = IntermediateUser.Username u
  ∧ IntermediateUser.Password u' = IntermediateUser.Password u
  ∧ IntermediateUser.Memberships u' = IntermediateUser.Memberships u
  ∧ IntermediateUser.AuthData u' = IntermediateUser.AuthData u
  ∧ IntermediateUser.AuthService u' = IntermediateUser.AuthService u
  ∧ IntermediateUser.Email u'
    = (if decide (IntermediateUser.Email u = "")
       then IntermediateUser.Username u +:+ "@example.com"
       else IntermediateUser.Email u)
  ∧ IntermediateUser.Position u'
    = (if decide (UserPositionMaxRunes
                  < Utf8.RuneCountInString (IntermediateUser.Position u))%nat
       then substring 0 UserPositionMaxRunes (IntermediateUser.Position u)
       else IntermediateUser.Position u)
  ∧ IntermediateUser.FirstName u'
    = (if decide (UserFirstNameMaxRunes
                  < Utf8.RuneCountInString (IntermediateUser.FirstName u))%nat
       then substring 0 UserFirstNameMaxRunes (IntermediateUser.FirstName u)
       else IntermediateUser.FirstName u)
  ∧ IntermediateUser.LastName u'
    = (if decide (UserLastNameMaxRunes
                  < Utf8.RuneCountInString (IntermediateUser.LastName u))%nat
       then substring 0 UserLastNameMaxRunes (IntermediateUser.LastName u)
       else IntermediateUser.LastName u).

(** The test of [TransformChannels] that skips a channel, and the one
    that turns a group conversation into a private channel. *)
Definition skipped (users : gmap string IntermediateUser.t)
    (channel : SlackChannel.t) : bool :=
  bool_decide (SlackChannel.Type_ channel = ChannelTypeDirect
               ∨ SlackChannel.Type_ channel = ChannelTypeGroup)
  && bool_decide
       (length (filterValidMembers (SlackChannel.Members channel) users)
        <= 1)%nat.
Definition oversized (users : gmap string IntermediateUser.t)
    (channel : SlackChannel.t) : bool :=
  bool_decide (SlackChannel.Type_ channel = ChannelTypeGroup)
  && bool_decide
       (ChannelGroupMaxUsers
        < length (filterValidMembers (SlackChannel.Members channel) users))%nat.

(** What [TransformChannels] fixes of the channel it builds from
    [channel], whatever sanitising does to the handle, the display name,
    the purpose and the header. *)
Definition transformedFrom (users : gmap string IntermediateUser.t)
    (channel : SlackChannel.t) (newChannel : IntermediateChannel.t) : Prop :=
  IntermediateChannel.Id newChannel = ""
  ∧ IntermediateChannel.MembersUsernames newChannel = []
  ∧ IntermediateChannel.Topic newChannel = ""
  ∧ IntermediateChannel.Members newChannel
    = filter (λ member, is_Some (users !! member))
        (SlackChannel.Members channel)
  ∧ IntermediateChannel.Type_ newChannel
    = (if oversized users channel then ChannelTypePrivate
       else SlackChannel.Type_ channel)
  ∧ IntermediateChannel.OriginalName newChannel
    = (if oversized users channel
       then if decide (SlackChannel.Purpose channel = "")
            then SlackChannel.Id channel else SlackChannel.Purpose channel
       else getOriginalName channel).

(** The members of a transformed channel are known users, and a direct
    or group channel has at least two. *)
Definition membersKnown (users : gmap string IntermediateUser.t)
    (channel : IntermediateChannel.t) : Prop :=
  Forall (λ member, is_Some (users !! member))
    (IntermediateChannel.Members channel)
  ∧ (IntermediateChannel.Type_ channel = ChannelTypeDirect
     ∨ IntermediateChannel.Type_ channel = ChannelTypeGroup →
     (2 <= length (IntermediateChannel.Members channel))%nat).

(** The member usernames of a channel are the usernames of its members,
    one for one, and a direct or group channel has at least two. *)
Definition membersNamed (users : gmap string IntermediateUser.t)
    (channel : IntermediateChannel.t) : Prop :=
  Forall2 (λ memberId username,
             IntermediateUser.Username <$> users !! memberId = Some username)
    (IntermediateChannel.Members channel)
    (IntermediateChannel.MembersUsernames channel)
  ∧ (IntermediateChannel.Type_ channel = ChannelTypeDirect
     ∨ IntermediateChannel.Type_ channel = ChannelTypeGroup →
     (2 <= length (IntermediateChannel.MembersUsernames channel))%nat).

(** What [TransformUsers] makes of a Slack user, but for the lengths of
    the name fields. *)
Definition importedFrom (authDataAsEmail : bool) (authService : string)
    (user : SlackUser.t) (u' : IntermediateUser.t) : Prop :=
  IntermediateUser.Id u' = SlackUser.Id user
  ∧ IntermediateUser.Username u' = SlackUser.Username user
  ∧ IntermediateUser.Email u'
    = (if decide (SlackUser.Email user = "")
       then SlackUser.Username user +:+ "@example.com"
       else SlackUser.Email user)
  ∧ IntermediateUser.Password u' = ""
  ∧ IntermediateUser.Memberships u' = []
  ∧ IntermediateUser.AuthData u'
    = (if authDataAsEmail && bool_decide (authService ≠ "")
       then Some (IntermediateUser.Email u') else None)
  ∧ IntermediateUser.AuthService u'
    = (if authDataAsEmail && bool_decide (authService ≠ "")
       then authService else "").

(** The files [addFilesToPost] goes through for a message: none when
    attachments are skipped, else the message's [File] if it has one,
    else its [Files]. *)
Definition filesToAdd (cfg : TransformConfig) (post : SlackPost.t)
    : list SlackFile.t :=
  if SkipAttachments cfg then []
  else match SlackPost.File post with
       | Some file => [file]
       | None => SlackPost.Files post
       end.

(** The upload of [file] is in the archive and is copied without error. *)
Definition copied (uploads : gmap string (option string))
    (file : SlackFile.t) : Prop :=
  uploads !! SlackFile.Id file = Some None.

Global Instance copied_dec uploads file : Decision (copied uploads file).
Proof. unfold copied. apply _. Defined.

(** Every post the instance holds locally exists. *)
Definition storeAllocated (threads : channelStorage) (w : World) : Prop :=
  ∀ threadTS post,
    localThreads threads !! threadTS = Some post → post ∈ dom (heap w).

(** [w'] has a post wherever [w] has one, and the same backend. *)
Definition extends (w w' : World) : Prop :=
  dom (heap w) ⊆ dom (heap w') ∧ redis w' = redis w.

(** What the loop over a channel's posts keeps true from one message to
    the next: the posts that exist go on existing, the backend is as it
    was, the local posts of the store exist, the users are those there
    were and possibly the workflow user, and the ledger has the entries it
    had and at most [n] more. *)
Definition channelStep (users : gmap string IntermediateUser.t)
    (timestamps : gmap Z bool) (n : nat) (w : World)
    (res : gmap string IntermediateUser.t * channelStorage * gmap Z bool)
    (w' : World) : Prop :=
  extends w w'
  ∧ storeAllocated res.1.2 w'
  ∧ users ⊆ res.1.1
  ∧ dom res.1.1 ⊆ dom users ∪ {[ "importedworkflow" ]}
  ∧ (size res.2 <= size timestamps + n)%nat.

(** The line [TransformPosts] logs for posts of a channel it does not
    know. *)
Definition unknownChannelWarning (originalChannelName : string) : LogEntry :=
  Logger Warn ("--- Couldn't find channel " +:+ originalChannelName
               +:+ " referenced by posts").

(** What the loop over the channels' posts keeps true, whatever it
    returns: the posts that exist go on existing, the backend is as it
    was, the users are those there were and possibly the workflow user,
    the result slice has grown by posts that exist, and an error is the
    factory's, met while the transformer had no factory yet. *)
Definition postsStep (cfg : TransformConfig)
    (users : gmap string IntermediateUser.t) (factory : option redisFactory)
    (resultPosts : list loc) (w : World)
    (res : option string * gmap string IntermediateUser.t
           * option redisFactory * list loc)
    (w' : World) : Prop :=
  extends w w'
  ∧ users ⊆ res.1.1.2
  ∧ dom res.1.1.2 ⊆ dom users ∪ {[ "importedworkflow" ]}
  ∧ (∃ more, res.2 = (resultPosts ++ more)%list
             ∧ Forall (λ post, post ∈ dom (heap w')) more)
  ∧ (∀ e, res.1.1.1 = Some e →
       factory = None ∧ res.1.2 = None
       ∧ ∃ config, RedisConfig_ cfg = Some config
                   ∧ newRedisFactory config = inr e)
  ∧ (RedisConfig_ cfg = None → res.1.1.1 = None ∧ res.1.2 = factory)
  ∧ (is_Some factory → res.1.1.1 = None ∧ res.1.2 = factory).

End vocabulary.

(** ** Sample data *)

Module Sample.
Definition world : World := mkWorld ∅ ∅ [].

(** A public channel. *)
Definition general : IntermediateChannel.t :=
  IntermediateChannel.mk "C1" "general" "general" "general"
    ["U1"; "U2"] [] "" "" "" ChannelTypeOpen.

(** A plain message with the given timestamp and thread-root timestamp. *)
Definition message (timeStamp threadTS : string) : SlackPost.t :=
  SlackPost.mk "U1" "hello" timeStamp threadTS "message" "" None None [] [].

(** The post the pipeline builds for it, with creation time [createAt]. *)
Definition postAt (createAt : Z) : IntermediatePost.t :=
  IntermediatePost.mk "alice" "general" "hello" ∅ createAt [] [] false [].

(** The same, written by [user]. *)
Definition postBy (user : string) (createAt : Z) : IntermediatePost.t :=
  IntermediatePost.mk user "general" "hello" ∅ createAt [] [] false [].

(** A world whose heap holds [v] at address 1 (and [r] at address 2). *)
Definition worldWith (v : IntermediatePost.t) : World :=
  mkWorld {[ 1%positive := v ]} ∅ [].
Definition worldWith2 (v r : IntermediatePost.t) : World :=
  mkWorld {[ 1%positive := v; 2%positive := r ]} ∅ [].

(** A backend that another instance has filled for channel "general":
    thread "21" with one reply, and thread "22". *)
Definition backend : gmap string PostDoc :=
  {[ "general:21" := Doc (postAt 21) [Doc (postAt 25) []];
     "general:22" := Doc (postAt 22) [] ]}.
Definition worldWithBackend : World := mkWorld ∅ backend [].

Definition redisConfig : RedisConfig.t :=
  RedisConfig.mk "localhost:6379" "" "".

(** A new cache-backed instance for channel "general". *)
Definition redisInstance : channelStorage :=
  RedisStorage (newRedisStorage (mkRedisFactory redisConfig) "general"
                  "attachments").

(** An environment to run the transformer in: the limits of
    mattermost-server v6 but for a small props limit, and simple stand-ins
    for the helpers (handles are kept as they are, every timestamp
    converts to 10, message types go by subtype). *)
Definition env : Env := {|
  ChannelGroupMaxUsers := 8;
  ChannelNameMaxLength := 64;
  ChannelDisplayNameMaxRunes := 64;
  ChannelPurposeMaxRunes := 250;
  ChannelHeaderMaxRunes := 1024;
  UserPositionMaxRunes := 128;
  UserFirstNameMaxRunes := 64;
  UserLastNameMaxRunes := 64;
  PostPropsMaxRunes := 40;
  NewId := "id0";
  newRedisFactory := λ config, inl (mkRedisFactory config);
  SlackConvertChannelName := λ name _, name;
  SlackConvertTimeStamp := λ _, 10;
  isValidChannelNameCharacters := λ _, true;
  truncateRunes := λ s n, Utf8.takeRunes n s;
  ToLower := λ s, s;
  normalisedJoin := λ dir name, dir +:+ "/" +:+ name;
  IsPlainMessage := λ p, bool_decide (SlackPost.SubType p = "");
  IsFileComment := λ p, bool_decide (SlackPost.SubType p = "file_comment");
  IsBotMessage := λ p, bool_decide (SlackPost.SubType p = "bot_message");
  IsJoinLeaveMessage := λ p, bool_decide (SlackPost.SubType p = "channel_join");
  IsMeMessage := λ p, bool_decide (SlackPost.SubType p = "me_message");
  IsChannelTopicMessage := λ p, bool_decide (SlackPost.SubType p = "channel_topic");
  IsChannelPurposeMessage := λ p, bool_decide (SlackPost.SubType p = "channel_purpose");
  IsChannelNameMessage := λ p, bool_decide (SlackPost.SubType p = "channel_name");
|}.

Definition user (id name : string) : IntermediateUser.t :=
  IntermediateUser.mk id name "" "" "" (name +:+ "@example.org") "" [] None "".

(** Nine known users. *)
Definition users : gmap string IntermediateUser.t :=
  {[ "U1" := user "U1" "alice"; "U2" := user "U2" "bob";
     "U3" := user "U3" "carol"; "U4" := user "U4" "dave";
     "U5" := user "U5" "erin"; "U6" := user "U6" "frank";
     "U7" := user "U7" "grace"; "U8" := user "U8" "heidi";
     "U9" := user "U9" "ivan" ]}.

(** A group conversation of the nine, a direct one with a stranger. *)
Definition bigGroup : SlackChannel.t :=
  SlackChannel.mk "G1" "mpdm-alice--bob--carol-1"
    ["U1"; "U2"; "U3"; "U4"; "U5"; "U6"; "U7"; "U8"; "U9"]
    "release planning" "" ChannelTypeGroup.
Definition lonelyDirect : SlackChannel.t :=
  SlackChannel.mk "D1" "" ["U1"; "UX"] "" "" ChannelTypeDirect.

(** An attachment whose props, once marshalled, take 51 runes. *)
Definition attachment : SlackAttachment :=
  {| attachmentJSON := "{'fallback':'build 1234 passed'}" |}.

(** A plain and a bot message that carry it. *)
Definition plainWithAttachment : SlackPost.t :=
  SlackPost.mk "U1" "build" "10" "" "message" "" None None [] [attachment].
Definition botWithAttachment : SlackPost.t :=
  SlackPost.mk "" "build" "10" "" "message" "bot_message" None None []
    [attachment].

Definition config (discardInvalidProps importWorkflowMessages : bool)
    : TransformConfig :=
  mkTransformConfig "attachments" false discardInvalidProps false ""
    importWorkflowMessages false false None.
End Sample.

(** ** Sample data for the pipeline *)

Module SampleExport.
(** Stand-ins for the two helpers: group conversations are big when they
    list more members than the limit; the posts are left in the order
    they come in, which is a sorted order in [Sample.env], where all
    timestamps convert to the same time. *)
Definition helpers : Helpers := {|
  SplitChannelsByMemberSize := λ channels limit,
    (filter (λ c, (length (SlackChannel.Members c) <= limit)%nat) channels,
     filter (λ c, (limit < length (SlackChannel.Members c))%nat) channels);
  sortedByTimeStamp := λ channelPosts, channelPosts;
|}.

(** [Sample.env], with a redis server that cannot be reached. *)
Definition offlineEnv : Env := {|
  ChannelGroupMaxUsers := ChannelGroupMaxUsers (Env := Sample.env);
  ChannelNameMaxLength := ChannelNameMaxLength (Env := Sample.env);
  ChannelDisplayNameMaxRunes := ChannelDisplayNameMaxRunes (Env := Sample.env);
  ChannelPurposeMaxRunes := ChannelPurposeMaxRunes (Env := Sample.env);
  ChannelHeaderMaxRunes := ChannelHeaderMaxRunes (Env := Sample.env);
  UserPositionMaxRunes := UserPositionMaxRunes (Env := Sample.env);
  UserFirstNameMaxRunes := UserFirstNameMaxRunes (Env := Sample.env);
  UserLastNameMaxRunes := UserLastNameMaxRunes (Env := Sample.env);
  PostPropsMaxRunes := PostPropsMaxRunes (Env := Sample.env);
  NewId := NewId (Env := Sample.env);
  newRedisFactory := λ _, inr "dial tcp: connection refused";
  SlackConvertChannelName := SlackConvertChannelName (Env := Sample.env);
  SlackConvertTimeStamp := SlackConvertTimeStamp (Env := Sample.env);
  isValidChannelNameCharacters :=
    isValidChannelNameCharacters (Env := Sample.env);
  truncateRunes := truncateRunes (Env := Sample.env);
  ToLower := ToLower (Env := Sample.env);
  normalisedJoin := normalisedJoin (Env := Sample.env);
  IsPlainMessage := IsPlainMessage (Env := Sample.env);
  IsFileComment := IsFileComment (Env := Sample.env);
  IsBotMessage := IsBotMessage (Env := Sample.env);
  IsJoinLeaveMessage := IsJoinLeaveMessage (Env := Sample.env);
  IsMeMessage := IsMeMessage (Env := Sample.env);
  IsChannelTopicMessage := IsChannelTopicMessage (Env := Sample.env);
  IsChannelPurposeMessage := IsChannelPurposeMessage (Env := Sample.env);
  IsChannelNameMessage := IsChannelNameMessage (Env := Sample.env);
|}.

Definition alice : SlackUser.t :=
  SlackUser.mk "U1" "alice" "Alice" "Archer" "engineer" "alice@example.org".
Definition bob : SlackUser.t :=
  SlackUser.mk "U2" "bob" "Bob" "Baker" "designer" "".

(** A public channel and a group conversation of the two. *)
Definition general : SlackChannel.t :=
  SlackChannel.mk "C1" "general" ["U1"; "U2"] "talk" "" ChannelTypeOpen.
Definition pair : SlackChannel.t :=
  SlackChannel.mk "G1" "mpdm-alice--bob-1" ["U1"; "U2"; "UX"] "" ""
    ChannelTypeGroup.

(** A root message and a reply to it in "general", and a message in a
    channel that is not in the export. *)
Definition export : SlackExport.t :=
  SlackExport.mk [alice; bob] [general] [] [pair] []
    [ ("random", [Sample.message "5" ""]);
      ("general", [Sample.message "10" ""; Sample.message "20" "10"]) ]
    ∅.

(** A transformer as new, and one that has the channel "general". *)
Definition transformer : Transformer.t := Transformer.mk Intermediate.zero None.
Definition transformerWithGeneral : Transformer.t :=
  Transformer.mk
    (Intermediate.mk [Sample.general] [] [] [] Sample.users []) None.

Definition config (skipPosts skipChannels : bool)
    (redisConfig : option RedisConfig.t) : TransformConfig :=
  mkTransformConfig "attachments" false false false "" false skipPosts
    skipChannels redisConfig.

(** A group conversation as the transformer holds it. *)
Definition groupChannel : IntermediateChannel.t :=
  IntermediateChannel.mk "" "mpdm-alice--bob-1" "mpdm-alice--bob-1"
    "mpdm-alice--bob-1" ["U1"; "U2"] ["alice"; "bob"] "" "" ""
    ChannelTypeGroup.

(** A message with three files, of which the archive holds two, one of
    them unreadable. *)
Definition uploads : gmap string (option string) :=
  {[ "F1" := None; "F2" := Some "unexpected EOF" ]}.
Definition messageWithFiles : SlackPost.t :=
  SlackPost.mk "U1" "see attached" "10" "" "message" "" None None
    [SlackFile.mk "F1" "plan.pdf"; SlackFile.mk "F2" "notes.txt";
     SlackFile.mk "F3" "gone.png"] [].

(** A topic change by a user the export does not know. *)
Definition topicByStranger : SlackPost.t :=
  SlackPost.mk "UX" "set the topic" "10" "" "message" "channel_topic"
    None None [] [].
End SampleExport.

(** * Properties *)

(** ** The world monad *)

Lemma bind_Some {A B} (m : M A) (f : A -> M B) w a w' :
  m w = Some (a, w') → (m ≫= f) w = f a w'.
Proof. intros E. unfold mbind, M_bind. by rewrite E. Qed.

Lemma bind_None {A B} (m : M A) (f : A -> M B) w :
  m w = None → (m ≫= f) w = None.
Proof. intros E. unfold mbind, M_bind. by rewrite E. Qed.

Lemma bind_inv {A B} (m : M A) (f : A -> M B) w b w' :
  (m ≫= f) w = Some (b, w') →
  ∃ a w1, m w = Some (a, w1) ∧ f a w1 = Some (b, w').
Proof.
  unfold mbind, M_bind. destruct (m w) as [[a w1]|] eqn:E; [|done].
  intros Hf. by exists a, w1.
Qed.

Lemma World_eta w : mkWorld (heap w) (redis w) (logs w) = w.
Proof. by destruct w. Qed.

Lemma withPost_same l v w : heap w !! l = Some v → withPost l v w = w.
Proof.
  intros E. unfold withPost, set_heap. rewrite insert_id by done.
  apply World_eta.
Qed.

Lemma withPost_withPost l v v' w :
  withPost l v' (withPost l v w) = withPost l v' w.
Proof. unfold withPost, set_heap. simpl. by rewrite insert_insert_eq. Qed.

Lemma heap_withPost l v w : heap (withPost l v w) = <[l := v]> (heap w).
Proof. done. Qed.

Lemma load_Some l v w : heap w !! l = Some v → load l w = Some (v, w).
Proof. intros E. unfold load. by rewrite E. Qed.

Lemma modify_Some l f v w :
  heap w !! l = Some v → modify l f w = Some (tt, withPost l (f v) w).
Proof.
  intros E. unfold modify. by rewrite (bind_Some _ _ _ _ _ (load_Some _ _ _ E)).
Qed.

Lemma returns_ret {A} (a : A) w (Q : A → World → Prop) :
  Q a w → returns (mret a) w Q.
Proof. intros HQ. by exists a, w. Qed.

Lemma returns_bind {A B} (m : M A) (f : A → M B) w
    (P : A → World → Prop) (Q : B → World → Prop) :
  returns m w P → (∀ a w', P a w' → returns (f a) w' Q) →
  returns (m ≫= f) w Q.
Proof.
  intros (a & w1 & E & HP) Hf. unfold returns.
  rewrite (bind_Some _ _ _ _ _ E). by apply Hf.
Qed.

Lemma returns_logf e w (Q : unit → World → Prop) :
  Q tt (add_log e w) → returns (logf e) w Q.
Proof. intros HQ. by exists tt, (add_log e w). Qed.

(** A step "if the field is too long, warn and cut it". *)
Lemma returns_warn_cut {A} (P : Prop) `{Decision P} e (cut keep : A) w
    (Q : A → World → Prop) :
  Q cut (add_log e w) → Q keep w →
  returns (if decide P then logf e;; mret cut else mret keep) w Q.
Proof.
  intros Hcut Hkeep. case_decide.
  - eapply (returns_bind _ _ _ (λ _ w', w' = add_log e w));
      [by apply returns_logf|].
    intros [] w' ->. by apply returns_ret.
  - by apply returns_ret.
Qed.

(** ** Signed 64-bit arithmetic *)

Lemma wrap64_in_range z : Int64.in_range (Int64.wrap64 z).
Proof.
  unfold Int64.in_range, Int64.wrap64, Int64.MinInt64, Int64.MaxInt64, Int64.modulus.
  pose proof (Z.mod_pos_bound (z - -9223372036854775808) 18446744073709551616).
  lia.
Qed.

Lemma wrap64_id z : Int64.in_range z → Int64.wrap64 z = z.
Proof.
  unfold Int64.in_range, Int64.wrap64, Int64.MinInt64, Int64.MaxInt64, Int64.modulus.
  intros Hz. rewrite Z.mod_small; lia.
Qed.

Lemma wrap64_add_wrap64 z a :
  Int64.wrap64 (Int64.wrap64 z + a) = Int64.wrap64 (z + a).
Proof.
  unfold Int64.wrap64, Int64.MinInt64, Int64.modulus. f_equal.
  replace ((z - -9223372036854775808) mod 18446744073709551616
           + -9223372036854775808 + a - -9223372036854775808)
    with ((z - -9223372036854775808) mod 18446744073709551616 + a) by lia.
  replace (z + a - -9223372036854775808)
    with ((z - -9223372036854775808) + a) by lia.
  by rewrite Zplus_mod_idemp_l.
Qed.

Lemma bumped_0 c : bumped c 0 = c.
Proof. done. Qed.

Lemma bumped_S c k : bumped c (S k) = bumped (Int64.incr c) k.
Proof. unfold bumped. by rewrite Nat.iter_succ_r. Qed.

Lemma wrap64_bumped c k :
  Int64.wrap64 (bumped c k) = Int64.wrap64 (c + Z.of_nat k).
Proof.
  induction k as [|k IH].
  - simpl. f_equal. lia.
  - unfold bumped in *. simpl Nat.iter. unfold Int64.incr at 1.
    rewrite wrap64_id by apply wrap64_in_range.
    rewrite <- wrap64_add_wrap64, IH, wrap64_add_wrap64. f_equal. lia.
Qed.

(** Without wrap-around the increments are plain additions. *)
Lemma bumped_no_wrap c k :
  Int64.in_range c → c + Z.of_nat k <= Int64.MaxInt64 →
  bumped c k = c + Z.of_nat k.
Proof.
  intros Hc Hk. induction k as [|k IH].
  - simpl. lia.
  - unfold bumped in *. simpl Nat.iter. rewrite IH by lia.
    unfold Int64.incr. rewrite wrap64_id; [lia|].
    unfold Int64.in_range in *. unfold Int64.MaxInt64, Int64.MinInt64 in *. lia.
Qed.

Lemma mod_add_cancel (a m j k : Z) :
  0 <= j < m → 0 <= k < m → (a + j) mod m = (a + k) mod m → j = k.
Proof.
  intros Hj Hk E.
  assert (D : ((a + j) - (a + k)) mod m = 0).
  { rewrite Zminus_mod, E, Z.sub_diag. apply Zmod_0_l. }
  replace (a + j - (a + k)) with (j - k) in D by lia.
  apply Z.mod_divide in D; [|lia].
  destruct D as [q Hq].
  assert (q = 0) by nia. lia.
Qed.

Lemma wrap64_inj_mod x y :
  Int64.wrap64 x = Int64.wrap64 y →
  (x - Int64.MinInt64) mod Int64.modulus = (y - Int64.MinInt64) mod Int64.modulus.
Proof. unfold Int64.wrap64. intros E. by apply Z.add_cancel_r in E. Qed.

Lemma bumped_inj c j k :
  Z.of_nat j < Int64.modulus → Z.of_nat k < Int64.modulus →
  bumped c j = bumped c k → j = k.
Proof.
  intros Hj Hk E.
  assert (E' : Int64.wrap64 (c + Z.of_nat j) = Int64.wrap64 (c + Z.of_nat k))
    by (by rewrite <- !wrap64_bumped, E).
  apply wrap64_inj_mod in E'.
  replace (c + Z.of_nat j - Int64.MinInt64)
    with ((c - Int64.MinInt64) + Z.of_nat j) in E' by lia.
  replace (c + Z.of_nat k - Int64.MinInt64)
    with ((c - Int64.MinInt64) + Z.of_nat k) in E' by lia.
  apply mod_add_cancel in E'; lia.
Qed.

(** ** The timestamp ledger *)

Lemma firstFree_S timestamps c k :
  is_Some (timestamps !! c) →
  firstFree timestamps (Int64.incr c) k → firstFree timestamps c (S k).
Proof.
  intros Hc [Hlt Hk]. split.
  - intros [|j] Hj; [done|]. rewrite bumped_S. apply Hlt. lia.
  - by rewrite bumped_S.
Qed.

Lemma firstFree_unique timestamps c j k :
  firstFree timestamps c j → firstFree timestamps c k → j = k.
Proof.
  intros [Hj1 Hj2] [Hk1 Hk2].
  destruct (Nat.lt_trichotomy j k) as [Hlt|[->|Hlt]]; [|done|].
  - apply Hk1 in Hlt. rewrite Hj2 in Hlt. by destruct Hlt.
  - apply Hj1 in Hlt. rewrite Hk2 in Hlt. by destruct Hlt.
Qed.

(** A ledger that holds [bumped c 0 .. bumped c n] has more than [n]
    entries. *)
Lemma ledger_pigeonhole (timestamps : gmap Z bool) c n :
  Z.of_nat n < Int64.modulus →
  (∀ j, (j <= n)%nat → is_Some (timestamps !! bumped c j)) →
  (n < size timestamps)%nat.
Proof.
  intros Hn Hall.
  set (l := bumped c <$> seq 0 (S n)).
  assert (Hnd : NoDup l).
  { apply NoDup_fmap_2_strong; [|apply NoDup_seq].
    intros i j Hi%elem_of_seq Hj%elem_of_seq E.
    apply (bumped_inj c); [lia..|done]. }
  assert (Hsub : (list_to_set l : gset Z) ⊆ dom timestamps).
  { intros z Hz%elem_of_list_to_set. apply elem_of_dom.
    apply list_elem_of_fmap in Hz as (j & -> & Hj%elem_of_seq).
    apply Hall. lia. }
  apply subseteq_size in Hsub.
  rewrite size_list_to_set in Hsub by done.
  rewrite size_dom in Hsub. unfold l in Hsub.
  rewrite length_fmap, length_seq in Hsub. lia.
Qed.

Lemma firstFree_search (timestamps : gmap Z bool) c n :
  (∃ k, (k <= n)%nat ∧ firstFree timestamps c k)
  ∨ (∀ j, (j <= n)%nat → is_Some (timestamps !! bumped c j)).
Proof.
  induction n as [|n [(k & Hk & Hf)|Hall]].
  - destruct (timestamps !! bumped c 0) as [b|] eqn:E.
    + right. intros j Hj. replace j with 0%nat by lia. by rewrite E.
    + left. exists 0%nat. split; [done|]. split; [lia|done].
  - left. exists k. split; [lia|done].
  - destruct (timestamps !! bumped c (S n)) as [b|] eqn:E.
    + right. intros j Hj. destruct (decide (j = S n)) as [->|].
      * by rewrite E.
      * apply Hall. lia.
    + left. exists (S n). split; [done|]. split; [|done].
      intros j Hj. apply Hall. lia.
Qed.

(** A ledger with fewer than 2^64 entries leaves a value free within
    [size timestamps] increments. *)
Lemma firstFree_exists (timestamps : gmap Z bool) c :
  Z.of_nat (size timestamps) < Int64.modulus →
  ∃ k, (k <= size timestamps)%nat ∧ firstFree timestamps c k.
Proof.
  intros Hsz.
  destruct (firstFree_search timestamps c (size timestamps)) as [?|Hall]; [done|].
  apply ledger_pigeonhole in Hall; [lia|done].
Qed.

Lemma set_CreateAt_same v :
  IntermediatePost.set_CreateAt (IntermediatePost.CreateAt v) v = v.
Proof. by destruct v. Qed.

(** The loop, run with enough fuel, leaves the post at the first free
    creation time and touches nothing else. *)
Lemma avoidTimestampDuplications_run timestamps post k : ∀ fuel v w,
  firstFree timestamps (IntermediatePost.CreateAt v) k →
  (k < fuel)%nat →
  heap w !! post = Some v →
  avoidTimestampDuplications fuel post timestamps w
  = Some (tt, withPost post
                (IntermediatePost.set_CreateAt
                   (bumped (IntermediatePost.CreateAt v) k) v) w).
Proof.
  induction k as [|k IH]; intros fuel v w Hf Hfuel Hv;
    (destruct fuel as [|fuel]; [lia|]); cbn [avoidTimestampDuplications];
    rewrite (bind_Some _ _ _ _ _ (load_Some _ _ _ Hv)).
  - destruct Hf as [_ Hfree]. rewrite bumped_0 in *. rewrite Hfree.
    rewrite set_CreateAt_same. by rewrite withPost_same.
  - destruct Hf as [Hlt Hfree].
    destruct (Hlt 0%nat ltac:(lia)) as [b Hb]. rewrite bumped_0 in Hb.
    rewrite Hb.
    unfold store at 1. unfold mbind at 1, M_bind at 1.
    fold (withPost post (IntermediatePost.set_CreateAt
            (Int64.incr (IntermediatePost.CreateAt v)) v) w).
    rewrite (IH fuel (IntermediatePost.set_CreateAt
                        (Int64.incr (IntermediatePost.CreateAt v)) v)).
    + rewrite withPost_withPost. by rewrite bumped_S.
    + simpl. split.
      * intros j Hj. rewrite <- bumped_S. apply Hlt. lia.
      * by rewrite <- bumped_S.
    + lia.
    + rewrite heap_withPost. apply lookup_insert_eq.
Qed.

(** ** [AddPostToThreads]: timestamp resolution, then classification *)

Lemma CreateAt_enrichForChannel channel v :
  IntermediatePost.CreateAt (enrichForChannel channel v)
  = IntermediatePost.CreateAt v.
Proof. unfold enrichForChannel. by case_decide. Qed.

Lemma enrich_run channel post v w :
  heap w !! post = Some v →
  (if decide (IntermediateChannel.Type_ channel = ChannelTypeDirect
              ∨ IntermediateChannel.Type_ channel = ChannelTypeGroup)
   then modify post (IntermediatePost.set_IsDirect true);;
        modify post (IntermediatePost.set_ChannelMembers
                       (IntermediateChannel.MembersUsernames channel))
   else modify post (IntermediatePost.set_IsDirect false)) w
  = Some (tt, withPost post (enrichForChannel channel v) w).
Proof.
  intros Hv. unfold enrichForChannel. case_decide.
  - rewrite (bind_Some _ _ _ _ _ (modify_Some _ _ _ _ Hv)).
    erewrite modify_Some; [|rewrite heap_withPost; apply lookup_insert_eq].
    by rewrite withPost_withPost.
  - by apply modify_Some.
Qed.

(** [AddPostToThreads] is the classification run after the post has got
    its channel marking and the first free creation time [bumped c k], on
    the ledger that records that time. *)
Lemma AddPostToThreads_phases `{ThreadsStorage T} original post (threads : T)
    channel timestamps importWorkflowPosts v w k :
  heap w !! post = Some v →
  (k <= size timestamps)%nat →
  firstFree timestamps (IntermediatePost.CreateAt v) k →
  AddPostToThreads original post threads channel timestamps
    importWorkflowPosts w
  = classifyPost original post threads
      (<[bumped (IntermediatePost.CreateAt v) k := true]> timestamps)
      importWorkflowPosts
      (withPost post (resolvedPost channel v k) w).
Proof.
  intros Hv Hk Hf. unfold AddPostToThreads, resolvedPost.
  rewrite (bind_Some _ _ _ _ _ (enrich_run channel _ _ _ Hv)).
  rewrite <- (CreateAt_enrichForChannel channel) in Hf.
  erewrite bind_Some;
    [|apply (avoidTimestampDuplications_run _ _ k); [done|lia|];
      rewrite heap_withPost; apply lookup_insert_eq].
  rewrite withPost_withPost.
  erewrite bind_Some;
    [|apply load_Some; rewrite heap_withPost; apply lookup_insert_eq].
  rewrite CreateAt_enrichForChannel. reflexivity.
Qed.

(** ** The two store variants are lawful *)

Lemma alloc_withPost p l v w :
  is_Some (heap w !! l) →
  alloc p (withPost l v w)
  = Some (fresh (dom (heap w)),
          withPost l v (set_heap (<[fresh (dom (heap w)) := p]> (heap w)) w)).
Proof.
  intros Hl. unfold alloc. rewrite heap_withPost.
  assert (Hd : dom (<[l := v]> (heap w)) = dom (heap w)).
  { rewrite dom_insert_L. apply elem_of_dom in Hl.
    apply subseteq_union_1_L. by apply singleton_subseteq_l. }
  rewrite Hd. f_equal. f_equal.
  unfold withPost, set_heap. simpl. f_equal.
  apply insert_insert_ne. intros E. rewrite <- E in Hl.
  apply (is_fresh (dom (heap w))). by apply elem_of_dom.
Qed.

Lemma alloc_fresh w : heap w !! fresh (dom (heap w)) = None.
Proof. apply not_elem_of_dom, is_fresh. Qed.

(** Decoding a document always succeeds; it only allocates, and where it
    allocates depends on which addresses are taken, not on what they
    hold. *)
Lemma decodePost_spec : ∀ d w,
  ∃ l w', decodePost d w = Some (l, w')
    ∧ heap w ⊆ heap w' ∧ redis w' = redis w ∧ logs w' = logs w
    ∧ is_Some (heap w' !! l)
    ∧ ∀ l0 v0, is_Some (heap w !! l0) →
        decodePost d (withPost l0 v0 w) = Some (l, withPost l0 v0 w').
Proof.
  fix IH 1. intros [fields replies] w. cbn [decodePost].
  set (decodeAll := fix decodeAll (ds : list PostDoc) : M (list loc) :=
         match ds with
         | [] => mret []
         | d' :: ds' => l ← decodePost d'; ls ← decodeAll ds'; mret (l :: ls)
         end).
  assert (Hall : ∀ w, ∃ ls w', decodeAll replies w = Some (ls, w')
            ∧ heap w ⊆ heap w' ∧ redis w' = redis w ∧ logs w' = logs w
            ∧ ∀ l0 v0, is_Some (heap w !! l0) →
                decodeAll replies (withPost l0 v0 w)
                = Some (ls, withPost l0 v0 w')).
  { clear w. induction replies as [|d ds IHds]; intros w.
    - exists [], w. by repeat split.
    - destruct (IH d w) as (l & w1 & E1 & Hh1 & Hr1 & Hl1 & _ & Hw1).
      destruct (IHds w1) as (ls & w2 & E2 & Hh2 & Hr2 & Hl2 & Hw2).
      exists (l :: ls), w2. cbn [decodeAll].
      rewrite (bind_Some _ _ _ _ _ E1), (bind_Some _ _ _ _ _ E2).
      split; [done|]. split; [by etrans|].
      split; [congruence|]. split; [congruence|].
      intros l0 v0 Hl0.
      rewrite (bind_Some _ _ _ _ _ (Hw1 l0 v0 Hl0)).
      erewrite bind_Some; [done|]. apply Hw2.
      destruct Hl0 as [x Hx]. exists x. by eapply lookup_weaken. }
  destruct (Hall w) as (ls & w1 & E1 & Hh1 & Hr1 & Hl1 & Hw1).
  eexists _, _. rewrite (bind_Some _ _ _ _ _ E1). unfold alloc at 1.
  split; [done|]. simpl.
  split; [etrans; [done|]; apply insert_subseteq, alloc_fresh; done|].
  split; [done|]. split; [done|].
  split; [rewrite lookup_insert_eq; by eexists|].
  intros l0 v0 Hl0. rewrite (bind_Some _ _ _ _ _ (Hw1 l0 v0 Hl0)).
  rewrite alloc_withPost; [done|].
  destruct Hl0 as [x Hx]. exists x. by eapply lookup_weaken.
Qed.

Lemma withPost_frame l v w :
  redis (withPost l v w) = redis w ∧ logs (withPost l v w) = logs w.
Proof. done. Qed.

Lemma in_changed (m : gmap string loc) k p :
  m !! k = Some p → p ∈ (map_to_list m).*2.
Proof.
  intros E. apply list_elem_of_fmap. exists (k, p). split; [done|].
  by apply elem_of_map_to_list.
Qed.

Global Instance memoryStorage_lawful : LawfulThreadsStorage memoryStorage.
Proof.
  split.
  - intros s k w. by eexists.
  - intros s k w r s' w' [= <- <- <-]. done.
  - intros s k w s' w' [= _ <- <-]. done.
  - intros s k w r s' w' [= <- <- <-]. done.
  - intros s k w r s' w' l v _ [= <- <- <-]. done.
  - done.
  - intros s k w p s' w' [= E <- <-] w''. simpl. unfold mret, M_ret.
    by rewrite E.
  - intros s k p w. simpl. unfold mret, M_ret. by rewrite lookup_insert_eq.
  - intros s k p w. simpl. rewrite lookup_insert_eq.
    by apply bool_decide_eq_true.
  - intros s k p. simpl. apply (in_changed _ k). apply lookup_insert_eq.
  - intros s k w p s' w' [= E <- <-]. by apply (in_changed _ k).
Qed.

Lemma redis_lookup_hit (s : redisStorage) k p w :
  redisCache s !! k = Some p → LookupThread s k w = Some ((Some p, s), w).
Proof. intros E. simpl. by rewrite E. Qed.

Lemma redis_lookup_miss (s : redisStorage) k w :
  redisCache s !! k = None →
  redis w !! redisKey (redisChannel s) k = None →
  LookupThread s k w = Some ((None, s), w).
Proof.
  intros E Er. simpl. rewrite E. unfold gets, mbind, M_bind. by rewrite Er.
Qed.

Lemma redis_lookup_fetch (s : redisStorage) k d w :
  redisCache s !! k = None →
  redis w !! redisKey (redisChannel s) k = Some d →
  ∃ p w', decodePost d w = Some (p, w')
    ∧ LookupThread s k w
      = Some ((Some p, mkRedisStorage (redisChannel s)
                         (<[k := p]> (redisCache s))), w').
Proof.
  intros E Er. destruct (decodePost_spec d w) as (p & w' & Ed & _).
  exists p, w'. split; [done|].
  simpl. rewrite E. unfold gets. unfold mbind at 1, M_bind at 1. rewrite Er.
  by rewrite (bind_Some _ _ _ _ _ Ed).
Qed.

Global Instance redisStorage_lawful : LawfulThreadsStorage redisStorage.
Proof.
  split.
  - intros s k w.
    destruct (redisCache s !! k) as [p|] eqn:E.
    { rewrite (redis_lookup_hit _ _ _ _ E). by eexists. }
    destruct (redis w !! redisKey (redisChannel s) k) as [d|] eqn:Er.
    + destruct (redis_lookup_fetch _ _ _ _ E Er) as (p & w' & _ & ->).
      by eexists.
    + rewrite (redis_lookup_miss _ _ _ E Er). by eexists.
  - intros s k w r s' w'.
    destruct (redisCache s !! k) as [p|] eqn:E.
    { rewrite (redis_lookup_hit _ _ _ _ E). by intros [= <- <- <-]. }
    destruct (redis w !! redisKey (redisChannel s) k) as [d|] eqn:Er.
    + destruct (redis_lookup_fetch _ _ _ _ E Er) as (p & w1 & Ed & ->).
      intros [= <- <- <-].
      destruct (decodePost_spec d w) as (p' & w2 & Ed' & Hh & Hr & Hl & _).
      rewrite Ed in Ed'. by injection Ed' as <- <-.
    + rewrite (redis_lookup_miss _ _ _ E Er). by intros [= <- <- <-].
  - intros s k w s' w'.
    destruct (redisCache s !! k) as [p|] eqn:E.
    { by rewrite (redis_lookup_hit _ _ _ _ E). }
    destruct (redis w !! redisKey (redisChannel s) k) as [d|] eqn:Er.
    + by destruct (redis_lookup_fetch _ _ _ _ E Er) as (p & w1 & Ed & ->).
    + rewrite (redis_lookup_miss _ _ _ E Er). by intros [= <- <-].
  - intros s k w r s' w'. cbn [HasThread redisStorage_ThreadsStorage].
    destruct (redisCache s !! k) as [p|] eqn:E.
    { rewrite (redis_lookup_hit _ _ _ _ E). by intros [= <- <- <-]. }
    destruct (redis w !! redisKey (redisChannel s) k) as [d|] eqn:Er.
    + destruct (redis_lookup_fetch _ _ _ _ E Er) as (p & w1 & Ed & ->).
      by intros [= <- <- <-].
    + rewrite (redis_lookup_miss _ _ _ E Er). by intros [= <- <- <-].
  - intros s k w r s' w' l v Hl.
    destruct (redisCache s !! k) as [p|] eqn:E.
    { rewrite !(redis_lookup_hit _ _ _ _ E). by intros [= <- <- <-]. }
    destruct (redis w !! redisKey (redisChannel s) k) as [d|] eqn:Er.
    + destruct (redis_lookup_fetch _ _ _ _ E Er) as (p & w1 & Ed & ->).
      intros [= <- <- <-].
      destruct (redis_lookup_fetch s k d (withPost l v w) E Er)
        as (p' & w2 & Ed' & ->).
      destruct (decodePost_spec d w) as (p0 & w0 & Ed0 & _ & _ & _ & _ & Hw).
      rewrite Ed in Ed0. injection Ed0 as <- <-.
      rewrite (Hw l v Hl) in Ed'. by injection Ed' as <- <-.
    + rewrite (redis_lookup_miss _ _ _ E Er).
      rewrite (redis_lookup_miss s k (withPost l v w) E Er).
      by intros [= <- <- <-].
  - intros s k w w' Hr. simpl. by rewrite Hr.
  - intros s k w p s' w'.
    destruct (redisCache s !! k) as [p0|] eqn:E.
    { rewrite (redis_lookup_hit _ _ _ _ E). intros [= <- <- <-] w''.
      by apply redis_lookup_hit. }
    destruct (redis w !! redisKey (redisChannel s) k) as [d|] eqn:Er.
    + destruct (redis_lookup_fetch _ _ _ _ E Er) as (p1 & w1 & Ed & ->).
      intros [= <- <- <-] w''. apply redis_lookup_hit. simpl.
      apply lookup_insert_eq.
    + by rewrite (redis_lookup_miss _ _ _ E Er).
  - intros s k p w. apply redis_lookup_hit. simpl. apply lookup_insert_eq.
  - intros s k p w. simpl. rewrite lookup_insert_eq.
    apply orb_true_iff. left. by apply bool_decide_eq_true.
  - intros s k p. simpl. apply (in_changed _ k). apply lookup_insert_eq.
  - intros s k w p s' w'.
    destruct (redisCache s !! k) as [p0|] eqn:E.
    { rewrite (redis_lookup_hit _ _ _ _ E). intros [= <- <- <-].
      by apply (in_changed _ k). }
    destruct (redis w !! redisKey (redisChannel s) k) as [d|] eqn:Er.
    + destruct (redis_lookup_fetch _ _ _ _ E Er) as (p1 & w1 & Ed & ->).
      intros [= <- <- <-]. simpl. apply (in_changed _ k).
      apply lookup_insert_eq.
    + by rewrite (redis_lookup_miss _ _ _ E Er).
Qed.

Lemma channel_lookup_memory (m : memoryStorage) k w :
  LookupThread (MemoryStorage m) k w
  = Some ((memThreads m !! k, MemoryStorage m), w).
Proof. done. Qed.

Lemma channel_lookup_redis (c : redisStorage) k w r c' w' :
  LookupThread c k w = Some ((r, c'), w') →
  LookupThread (RedisStorage c) k w = Some ((r, RedisStorage c'), w').
Proof.
  intros E. cbn [LookupThread channelStorage_ThreadsStorage].
  by rewrite (bind_Some _ _ _ _ _ E).
Qed.

Lemma channel_lookup_redis_inv (c : redisStorage) k w r s' w' :
  LookupThread (RedisStorage c) k w = Some ((r, s'), w') →
  ∃ c', s' = RedisStorage c' ∧ LookupThread c k w = Some ((r, c'), w').
Proof.
  intros E. destruct (LookupThread_total c k w) as [[[r0 c0] w0] E0].
  rewrite (channel_lookup_redis _ _ _ _ _ _ E0) in E.
  injection E as <- <- <-. by exists c0.
Qed.

Global Instance channelStorage_lawful : LawfulThreadsStorage channelStorage.
Proof.
  split.
  - intros [m|c] k w; [by eexists|].
    destruct (LookupThread_total c k w) as [[[r c'] w'] E].
    rewrite (channel_lookup_redis _ _ _ _ _ _ E). by eexists.
  - intros [m|c] k w r s' w' E.
    + rewrite channel_lookup_memory in E. by injection E as <- <- <-.
    + apply channel_lookup_redis_inv in E as (c' & -> & E).
      by apply (LookupThread_frame c k w r c').
  - intros [m|c] k w s' w' E.
    + rewrite channel_lookup_memory in E. by injection E as _ <- <-.
    + apply channel_lookup_redis_inv in E as (c' & -> & E).
      by apply LookupThread_nil in E as [-> ->].
  - intros [m|c] k w r s' w' E.
    + rewrite channel_lookup_memory in E. by injection E as <- <- <-.
    + apply channel_lookup_redis_inv in E as (c' & -> & E).
      by apply (LookupThread_HasThread c k w r c' w').
  - intros [m|c] k w r s' w' l v Hl E.
    + rewrite channel_lookup_memory in *. by injection E as <- <- <-.
    + apply channel_lookup_redis_inv in E as (c' & -> & E).
      apply channel_lookup_redis. by apply LookupThread_withPost.
  - intros [m|c] k w w' Hr; [done|]. by apply (HasThread_redis c).
  - intros [m|c] k w p s' w' E w''.
    + rewrite channel_lookup_memory in E. injection E as E <- <-.
      by rewrite channel_lookup_memory, E.
    + apply channel_lookup_redis_inv in E as (c' & -> & E).
      apply channel_lookup_redis. by eapply LookupThread_again.
  - intros [m|c] k p w; cbn [StoreThread channelStorage_ThreadsStorage].
    + rewrite channel_lookup_memory. simpl. by rewrite lookup_insert_eq.
    + apply channel_lookup_redis. apply LookupThread_StoreThread.
  - intros [m|c] k p w.
    + apply (HasThread_StoreThread m).
    + apply (HasThread_StoreThread c).
  - intros [m|c] k p.
    + apply (StoreThread_changed m).
    + apply (StoreThread_changed c).
  - intros [m|c] k w p s' w' E.
    + rewrite channel_lookup_memory in E. injection E as E <- <-.
      by apply (in_changed (memThreads m) k).
    + apply channel_lookup_redis_inv in E as (c' & -> & E).
      by apply (LookupThread_changed c k w p c' w').
Qed.

(** ** Classification, case by case *)

Section classify.
Context `{LawfulThreadsStorage T}.
Implicit Types (threads : T) (original : SlackPost.t) (post : loc).

(** A reply whose root is not found: logged, nothing else happens. *)
Lemma classifyPost_orphan original post threads timestamps iwp w :
  isReply original →
  HasThread threads (SlackPost.ThreadTS original) w = false →
  classifyPost original post threads timestamps iwp w
  = Some ((threads, timestamps), add_log (PrintfRootPostNotFound original) w).
Proof.
  intros Hr Hhas. unfold classifyPost. rewrite decide_True by done.
  destruct (LookupThread_total threads (SlackPost.ThreadTS original) w)
    as [[[r s'] w'] E].
  rewrite (LookupThread_HasThread _ _ _ _ _ _ E) in Hhas.
  destruct r as [r|]; [by apply bool_decide_eq_false in Hhas; destruct Hhas|].
  destruct (LookupThread_nil _ _ _ _ _ E) as [-> ->].
  by rewrite (bind_Some _ _ _ _ _ E).
Qed.

(** A reply to a root written by the workflow user, while workflow posts
    are not imported: nothing happens after the lookup. *)
Lemma classifyPost_workflow_root original post threads timestamps w
    r threads' w' root :
  isReply original →
  LookupThread threads (SlackPost.ThreadTS original) w
  = Some ((Some r, threads'), w') →
  heap w' !! r = Some root →
  IntermediatePost.User root = WorkflowUserName →
  classifyPost original post threads timestamps false w
  = Some ((threads', timestamps), w').
Proof.
  intros Hr E Hroot Hu. unfold classifyPost. rewrite decide_True by done.
  rewrite (bind_Some _ _ _ _ _ E).
  rewrite (bind_Some _ _ _ _ _ (load_Some _ _ _ Hroot)).
  by rewrite bool_decide_eq_true_2.
Qed.

(** A reply to any other root is appended to it. *)
Lemma classifyPost_append original post threads timestamps iwp w
    r threads' w' root :
  isReply original →
  LookupThread threads (SlackPost.ThreadTS original) w
  = Some ((Some r, threads'), w') →
  heap w' !! r = Some root →
  iwp = true ∨ IntermediatePost.User root ≠ WorkflowUserName →
  classifyPost original post threads timestamps iwp w
  = Some ((threads', timestamps),
          withPost r (IntermediatePost.set_Replies
                        (IntermediatePost.Replies root ++ [post]) root) w').
Proof.
  intros Hr E Hroot Hu. unfold classifyPost. rewrite decide_True by done.
  rewrite (bind_Some _ _ _ _ _ E).
  rewrite (bind_Some _ _ _ _ _ (load_Some _ _ _ Hroot)).
  assert (negb iwp
          && bool_decide (IntermediatePost.User root = WorkflowUserName)
          = false) as ->.
  { destruct Hu as [->|Hu]; [done|].
    rewrite bool_decide_eq_false_2 by done. apply andb_false_r. }
  by rewrite (bind_Some _ _ _ _ _ (modify_Some _ _ _ _ Hroot)).
Qed.

(** Anything else is a root: sanitised and stored under the message's own
    timestamp, with a warning when that identifier is taken. *)
Lemma classifyPost_root original post threads timestamps iwp w v :
  ¬ isReply original →
  heap w !! post = Some v →
  classifyPost original post threads timestamps iwp w
  = Some ((StoreThread threads (SlackPost.TimeStamp original) post, timestamps),
          (if HasThread threads (SlackPost.TimeStamp original) w
           then add_log (Println ("WARNING: overwriting root post for thread "
                                  +:+ SlackPost.TimeStamp original))
           else id)
            (withPost post (IntermediatePost.Sanitise v) w)).
Proof.
  intros Hr Hv. unfold classifyPost. fold (isReply original).
  rewrite decide_False by done.
  rewrite (bind_Some _ _ _ _ _ (modify_Some _ _ _ _ Hv)).
  assert (Hhas : ∀ k,
    HasThread threads k (withPost post (IntermediatePost.Sanitise v) w)
    = HasThread threads k w) by (intros k; by apply HasThread_redis).
  case_decide as Heq.
  - rewrite <- Heq. unfold gets at 1. unfold mbind at 1, M_bind at 1.
    rewrite Hhas. by destruct (HasThread threads _ w).
  - unfold gets at 1. unfold mbind at 1, M_bind at 1.
    rewrite Hhas. by destruct (HasThread threads _ w).
Qed.

End classify.

(** ** Claims on [AddPostToThreads] *)

Section assembly.
Context `{LawfulThreadsStorage T}.
Implicit Types (threads : T) (original : SlackPost.t) (post : loc).

(** C3.  A reply (thread-root timestamp non-empty and different from the
    message's own) whose root the store does not hold is dropped:
    [AddPostToThreads] returns, the store it returns is the one it got, no
    post's replies change, and the failure is the one line added to the
    log. *)
Theorem orphan_reply_dropped original post threads channel timestamps
    importWorkflowPosts v w :
  heap w !! post = Some v →
  Z.of_nat (size timestamps) < Int64.modulus →
  SlackPost.ThreadTS original ≠ "" →
  SlackPost.ThreadTS original ≠ SlackPost.TimeStamp original →
  HasThread threads (SlackPost.ThreadTS original) w = false →
  ∃ k w',
    AddPostToThreads original post threads channel timestamps
      importWorkflowPosts w
    = Some ((threads,
             <[bumped (IntermediatePost.CreateAt v) k := true]> timestamps),
            w')
    ∧ w' = add_log (PrintfRootPostNotFound original)
             (withPost post (resolvedPost channel v k) w)
    ∧ logs w' = (logs w ++ [PrintfRootPostNotFound original])%list
    ∧ ∀ l x, heap w !! l = Some x →
        ∃ x', heap w' !! l = Some x'
              ∧ IntermediatePost.Replies x' = IntermediatePost.Replies x.
Proof.
  intros Hv Hsz Hne Hneq Hhas.
  destruct (firstFree_exists timestamps (IntermediatePost.CreateAt v) Hsz)
    as (k & Hk & Hf).
  exists k. eexists. split; [|split; [reflexivity|split; [done|]]].
  - rewrite (AddPostToThreads_phases _ _ _ _ _ _ _ _ _ Hv Hk Hf).
    apply classifyPost_orphan; [done|].
    by rewrite <- Hhas; apply HasThread_redis.
  - intros l x Hl. simpl. destruct (decide (l = post)) as [->|Hlp].
    + rewrite lookup_insert_eq. eexists. split; [done|].
      rewrite Hv in Hl. injection Hl as <-.
      unfold resolvedPost, enrichForChannel. by case_decide.
    + rewrite lookup_insert_ne by done. by exists x.
Qed.

(** C4.  A message whose thread-root timestamp is empty or equal to its
    own timestamp is a root: [StoreThread] is called with the message's
    own timestamp and the post, a warning is logged exactly when
    [HasThread] holds for that timestamp, and afterwards a lookup of the
    timestamp yields the new post, whose replies are its own. *)
Theorem root_stored_under_own_timestamp original post threads channel
    timestamps importWorkflowPosts v w :
  heap w !! post = Some v →
  Z.of_nat (size timestamps) < Int64.modulus →
  SlackPost.ThreadTS original = ""
  ∨ SlackPost.ThreadTS original = SlackPost.TimeStamp original →
  ∃ k threads' w',
    AddPostToThreads original post threads channel timestamps
      importWorkflowPosts w
    = Some ((threads',
             <[bumped (IntermediatePost.CreateAt v) k := true]> timestamps),
            w')
    ∧ threads' = StoreThread threads (SlackPost.TimeStamp original) post
    ∧ logs w'
      = (logs w ++
         (if HasThread threads (SlackPost.TimeStamp original) w
          then [Println ("WARNING: overwriting root post for thread "
                         +:+ SlackPost.TimeStamp original)]
          else []))%list
    ∧ HasThread threads' (SlackPost.TimeStamp original) w' = true
    ∧ LookupThread threads' (SlackPost.TimeStamp original) w'
      = Some ((Some post, threads'), w')
    ∧ heap w' !! post
      = Some (IntermediatePost.Sanitise (resolvedPost channel v k))
    ∧ ∀ l x, l ≠ post → heap w !! l = Some x → heap w' !! l = Some x.
Proof.
  intros Hv Hsz Hroot.
  destruct (firstFree_exists timestamps (IntermediatePost.CreateAt v) Hsz)
    as (k & Hk & Hf).
  exists k. eexists _, _. split; [|split; [reflexivity|]].
  - rewrite (AddPostToThreads_phases _ _ _ _ _ _ _ _ _ Hv Hk Hf).
    apply classifyPost_root.
    + intros [? ?]. by destruct Hroot.
    + rewrite heap_withPost. apply lookup_insert_eq.
  - rewrite (HasThread_redis threads _ (withPost post _ w) w) by done.
    split.
    { destruct (HasThread threads _ w); simpl; [done|].
      by rewrite app_nil_r. }
    split; [apply HasThread_StoreThread|].
    split; [apply LookupThread_StoreThread|].
    split.
    + destruct (HasThread threads _ w); simpl; apply lookup_insert_eq.
    + intros l x Hl Hx.
      destruct (HasThread threads _ w); simpl;
        by rewrite !lookup_insert_ne.
Qed.

(** C9.  A reply whose root the store holds, written by the workflow
    user, while workflow posts are not imported: [AddPostToThreads]
    returns right after the lookup.  Nothing is logged, the root keeps its
    replies, and the ledger has the reply's resolved creation time. *)
Theorem workflow_reply_dropped_silently original post threads channel
    timestamps v w r threads' w1 root :
  heap w !! post = Some v →
  Z.of_nat (size timestamps) < Int64.modulus →
  SlackPost.ThreadTS original ≠ "" →
  SlackPost.ThreadTS original ≠ SlackPost.TimeStamp original →
  LookupThread threads (SlackPost.ThreadTS original) w
  = Some ((Some r, threads'), w1) →
  heap w1 !! r = Some root →
  IntermediatePost.User root = WorkflowUserName →
  ∃ k timestamps' w',
    AddPostToThreads original post threads channel timestamps false w
    = Some ((threads', timestamps'), w')
    ∧ firstFree timestamps (IntermediatePost.CreateAt v) k
    ∧ timestamps'
      = <[bumped (IntermediatePost.CreateAt v) k := true]> timestamps
    ∧ timestamps' !! bumped (IntermediatePost.CreateAt v) k = Some true
    ∧ w' = withPost post (resolvedPost channel v k) w1
    ∧ logs w' = logs w
    ∧ ∃ root', heap w' !! r = Some root'
        ∧ IntermediatePost.Replies root' = IntermediatePost.Replies root.
Proof.
  intros Hv Hsz Hne Hneq E Hroot Hu.
  destruct (firstFree_exists timestamps (IntermediatePost.CreateAt v) Hsz)
    as (k & Hk & Hf).
  destruct (LookupThread_frame _ _ _ _ _ _ E) as (Hsub & _ & Hlogs).
  assert (Hv1 : heap w1 !! post = Some v) by (by eapply lookup_weaken).
  assert (Hroot' : ∃ root',
    heap (withPost post (resolvedPost channel v k) w1) !! r = Some root'
    ∧ IntermediatePost.User root' = IntermediatePost.User root
    ∧ IntermediatePost.Replies root' = IntermediatePost.Replies root).
  { rewrite heap_withPost. destruct (decide (r = post)) as [->|Hrp].
    - rewrite lookup_insert_eq. eexists. split; [done|].
      rewrite Hv1 in Hroot. injection Hroot as <-.
      unfold resolvedPost, enrichForChannel. by case_decide.
    - rewrite lookup_insert_ne by done. by exists root. }
  destruct Hroot' as (root' & Hr' & Hu' & Hrep').
  exists k. eexists _, _.
  split; [|split; [done|split; [reflexivity|
           split; [apply lookup_insert_eq|split; [reflexivity|]]]]].
  - rewrite (AddPostToThreads_phases _ _ _ _ _ _ _ _ _ Hv Hk Hf).
    eapply classifyPost_workflow_root; [done| |done|congruence].
    apply LookupThread_withPost; [by eexists|done].
  - split; [done|]. by exists root'.
Qed.

End assembly.

(** ** What a call leaves behind *)

Section footprint.
Context `{LawfulThreadsStorage T}.
Implicit Types (threads : T) (original : SlackPost.t) (post : loc).

Lemma CreateAt_Sanitise v :
  IntermediatePost.CreateAt (IntermediatePost.Sanitise v)
  = IntermediatePost.CreateAt v.
Proof. unfold IntermediatePost.Sanitise. by case_decide. Qed.

(** Classification hands the ledger back as it got it, and no post
    changes in a field [f] that appending a reply and sanitising leave
    alone. *)
Lemma classifyPost_keeps {A} (f : IntermediatePost.t → A) original post
    threads timestamps iwp w threads' timestamps' w' :
  (∀ l v, f (IntermediatePost.set_Replies l v) = f v) →
  (∀ v, f (IntermediatePost.Sanitise v) = f v) →
  classifyPost original post threads timestamps iwp w
  = Some ((threads', timestamps'), w') →
  timestamps' = timestamps
  ∧ ∀ l x, heap w !! l = Some x →
      ∃ x', heap w' !! l = Some x' ∧ f x' = f x.
Proof.
  intros Hrep Hsan Hrun. destruct (decide (isReply original)) as [Hr|Hr].
  - destruct (LookupThread_total threads (SlackPost.ThreadTS original) w)
      as [[[r s1] w1] E].
    destruct (LookupThread_frame _ _ _ _ _ _ E) as (Hsub & _ & _).
    destruct r as [r|].
    + destruct (heap w1 !! r) as [root|] eqn:Hroot.
      * destruct (decide (iwp = true
                          ∨ IntermediatePost.User root ≠ WorkflowUserName))
          as [Hu|Hu].
        -- rewrite (classifyPost_append _ _ _ _ _ _ _ _ _ _ Hr E Hroot Hu)
             in Hrun.
           injection Hrun as <- <- <-. split; [done|].
           intros l x Hl. eapply lookup_weaken in Hl; [|done].
           rewrite heap_withPost. destruct (decide (l = r)) as [->|Hlr].
           ++ rewrite lookup_insert_eq. eexists. split; [done|].
              rewrite Hroot in Hl. injection Hl as <-. apply Hrep.
           ++ rewrite lookup_insert_ne by done. by exists x.
        -- assert (iwp = false) as -> by (destruct iwp; tauto).
           rewrite (classifyPost_workflow_root _ _ _ _ _ _ _ _ _ Hr E Hroot)
             in Hrun.
           ++ injection Hrun as <- <- <-. split; [done|].
              intros l x Hl. exists x. split; [|done].
              by eapply lookup_weaken.
           ++ destruct (decide (IntermediatePost.User root = WorkflowUserName));
                tauto.
      * exfalso. unfold classifyPost in Hrun.
        rewrite decide_True in Hrun by done.
        rewrite (bind_Some _ _ _ _ _ E) in Hrun.
        rewrite bind_None in Hrun; [done|]. unfold load. by rewrite Hroot.
    + rewrite classifyPost_orphan in Hrun; [|done|].
      * injection Hrun as <- <- <-. split; [done|].
        intros l x Hl. by exists x.
      * by rewrite (LookupThread_HasThread _ _ _ _ _ _ E).
  - destruct (heap w !! post) as [v|] eqn:Hv.
    + rewrite (classifyPost_root _ _ _ _ _ _ _ Hr Hv) in Hrun.
      injection Hrun as <- <- <-. split; [done|].
      intros l x Hl.
      assert (Hgoal : ∃ x',
        heap (withPost post (IntermediatePost.Sanitise v) w) !! l = Some x'
        ∧ f x' = f x).
      { rewrite heap_withPost. destruct (decide (l = post)) as [->|Hlp].
        - rewrite lookup_insert_eq. eexists. split; [done|].
          rewrite Hv in Hl. injection Hl as <-. apply Hsan.
        - rewrite lookup_insert_ne by done. by exists x. }
      by destruct (HasThread threads _ w).
    + exfalso. unfold classifyPost in Hrun. fold (isReply original) in Hrun.
      rewrite decide_False in Hrun by done.
      rewrite bind_None in Hrun; [done|].
      unfold modify. apply bind_None. unfold load. by rewrite Hv.
Qed.

Lemma classifyPost_footprint original post threads timestamps iwp w
    threads' timestamps' w' :
  classifyPost original post threads timestamps iwp w
  = Some ((threads', timestamps'), w') →
  timestamps' = timestamps
  ∧ ∀ l x, heap w !! l = Some x →
      ∃ x', heap w' !! l = Some x'
            ∧ IntermediatePost.CreateAt x' = IntermediatePost.CreateAt x.
Proof.
  apply classifyPost_keeps; [done|]. apply CreateAt_Sanitise.
Qed.

(** A completed call leaves every post's props as they were. *)
Lemma AddPostToThreads_keeps_Props original post threads channel timestamps
    iwp v w threads' timestamps' w' :
  heap w !! post = Some v →
  Z.of_nat (size timestamps) < Int64.modulus →
  AddPostToThreads original post threads channel timestamps iwp w
  = Some ((threads', timestamps'), w') →
  ∀ l x, heap w !! l = Some x →
    ∃ x', heap w' !! l = Some x'
          ∧ IntermediatePost.Props x' = IntermediatePost.Props x.
Proof.
  intros Hv Hsz Hrun.
  destruct (firstFree_exists timestamps (IntermediatePost.CreateAt v) Hsz)
    as (k & Hk & Hf).
  rewrite (AddPostToThreads_phases _ _ _ _ _ _ _ _ _ Hv Hk Hf) in Hrun.
  apply (classifyPost_keeps IntermediatePost.Props) in Hrun as [_ Hkeep];
    [|done|intros x; unfold IntermediatePost.Sanitise; by case_decide].
  intros l x Hl. destruct (decide (l = post)) as [->|Hlp].
  - destruct (Hkeep post _ (lookup_insert_eq _ _ _)) as (x' & Hx' & Hp).
    exists x'. split; [done|]. rewrite Hp.
    rewrite Hv in Hl. injection Hl as <-.
    unfold resolvedPost, enrichForChannel. by case_decide.
  - apply Hkeep. rewrite heap_withPost. by rewrite lookup_insert_ne.
Qed.

(** A completed call has put the post at the first free creation time,
    recorded that time, and left every other creation time alone. *)
Lemma AddPostToThreads_footprint original post threads channel timestamps
    iwp v w threads' timestamps' w' :
  heap w !! post = Some v →
  Z.of_nat (size timestamps) < Int64.modulus →
  AddPostToThreads original post threads channel timestamps iwp w
  = Some ((threads', timestamps'), w') →
  ∃ k v',
    firstFree timestamps (IntermediatePost.CreateAt v) k
    ∧ timestamps'
      = <[bumped (IntermediatePost.CreateAt v) k := true]> timestamps
    ∧ heap w' !! post = Some v'
    ∧ IntermediatePost.CreateAt v' = bumped (IntermediatePost.CreateAt v) k
    ∧ ∀ l x, l ≠ post → heap w !! l = Some x →
        ∃ x', heap w' !! l = Some x'
              ∧ IntermediatePost.CreateAt x' = IntermediatePost.CreateAt x.
Proof.
  intros Hv Hsz Hrun.
  destruct (firstFree_exists timestamps (IntermediatePost.CreateAt v) Hsz)
    as (k & Hk & Hf).
  rewrite (AddPostToThreads_phases _ _ _ _ _ _ _ _ _ Hv Hk Hf) in Hrun.
  apply classifyPost_footprint in Hrun as [-> Hkeep].
  destruct (Hkeep post _ (lookup_insert_eq _ _ _)) as (v' & Hv' & Hc).
  exists k, v'. split; [done|]. split; [done|]. split; [done|].
  split; [done|].
  intros l x Hl Hx. apply Hkeep. rewrite heap_withPost.
  by rewrite lookup_insert_ne.
Qed.

End footprint.

(** ** Resolution of a whole channel's creation times *)

Lemma firstFree_le_size (timestamps : gmap Z bool) c k :
  Z.of_nat (size timestamps) < Int64.modulus →
  firstFree timestamps c k → (k <= size timestamps)%nat.
Proof.
  intros Hsz [Hlt _].
  destruct (decide (k <= size timestamps)%nat) as [|Hgt]; [done|].
  assert (size timestamps < size timestamps)%nat; [|lia].
  apply (ledger_pigeonhole timestamps c); [done|].
  intros j Hj. apply Hlt. lia.
Qed.

Lemma size_ledger_insert (timestamps : gmap Z bool) r :
  timestamps !! r = None → size (<[r := true]> timestamps) = S (size timestamps).
Proof. apply map_size_insert_None. Qed.

Lemma Resolved_length timestamps cs rs timestamps' :
  Resolved timestamps cs rs timestamps' → length rs = length cs.
Proof. induction 1; simpl; congruence. Qed.

Lemma Resolved_size timestamps cs rs timestamps' :
  Resolved timestamps cs rs timestamps' →
  size timestamps' = (size timestamps + length cs)%nat.
Proof.
  induction 1 as [|ts c k cs rs ts' [_ Hfree] _ IH]; simpl; [lia|].
  rewrite IH, size_ledger_insert by done. lia.
Qed.

Lemma Resolved_grows timestamps cs rs timestamps' :
  Resolved timestamps cs rs timestamps' →
  ∀ z, is_Some (timestamps !! z) → is_Some (timestamps' !! z).
Proof.
  induction 1 as [|ts c k cs rs ts' _ _ IH]; [done|].
  intros z Hz. apply IH. destruct (decide (bumped c k = z)) as [->|Hne].
  - rewrite lookup_insert_eq. by eexists.
  - by rewrite lookup_insert_ne.
Qed.

(** Every resolved time was free before and is recorded after. *)
Lemma Resolved_fresh timestamps cs rs timestamps' :
  Resolved timestamps cs rs timestamps' →
  ∀ r, r ∈ rs → timestamps !! r = None ∧ is_Some (timestamps' !! r).
Proof.
  induction 1 as [|ts c k cs rs ts' [_ Hfree] Hres IH]; intros r Hr.
  - by apply elem_of_nil in Hr.
  - apply elem_of_cons in Hr as [->|Hr].
    + split; [done|]. eapply Resolved_grows; [done|].
      rewrite lookup_insert_eq. by eexists.
    + destruct (IH r Hr) as [Hnone Hsome]. split; [|done].
      destruct (decide (bumped c k = r)) as [<-|Hne].
      * by rewrite lookup_insert_eq in Hnone.
      * by rewrite lookup_insert_ne in Hnone.
Qed.

Lemma Resolved_NoDup timestamps cs rs timestamps' :
  Resolved timestamps cs rs timestamps' → NoDup rs.
Proof.
  induction 1 as [|ts c k cs rs ts' _ Hres IH]; [constructor|].
  constructor; [|done]. intros Hin.
  apply (Resolved_fresh _ _ _ _ Hres) in Hin as [Hnone _].
  by rewrite lookup_insert_eq in Hnone.
Qed.

(** Once [bumped c 0 .. bumped c k] are all taken, a later message that
    starts at [c] needs more than [k] increments. *)
Lemma Resolved_later timestamps cs rs timestamps' c k :
  Resolved timestamps cs rs timestamps' →
  (∀ m, (m <= k)%nat → is_Some (timestamps !! bumped c m)) →
  ∀ j r, cs !! j = Some c → rs !! j = Some r →
    ∃ k', r = bumped c k' ∧ (k < k')%nat
          ∧ (Z.of_nat (size timestamps') < Int64.modulus →
             (k' <= size timestamps')%nat).
Proof.
  induction 1 as [|ts c0 k0 cs rs ts' Hf Hres IH]; intros Htaken j r Hc Hr.
  - done.
  - destruct j as [|j]; simpl in Hc, Hr.
    + injection Hc as ->. injection Hr as <-. exists k0.
      split; [done|]. split.
      * destruct (decide (k < k0)%nat) as [|Hge]; [done|].
        destruct Hf as [_ Hfree].
        destruct (Htaken k0 ltac:(lia)) as [b Hb]. congruence.
      * intros Hsz. pose proof (Resolved_size _ _ _ _ Hres) as Hs.
        rewrite size_ledger_insert in Hs by apply Hf.
        assert (k0 <= size ts)%nat; [|lia].
        apply (firstFree_le_size ts c); [lia|done].
    + apply (λ Ht, IH Ht j r Hc Hr).
      intros m Hm. destruct (decide (bumped c0 k0 = bumped c m)) as [->|Hne].
      * rewrite lookup_insert_eq. by eexists.
      * rewrite lookup_insert_ne by done. by apply Htaken.
Qed.

(** Two messages with the same original creation time: the later one is
    resolved with strictly more increments. *)
Lemma Resolved_same_start timestamps cs rs timestamps' i j c ri rj :
  Resolved timestamps cs rs timestamps' →
  (i < j)%nat →
  cs !! i = Some c → cs !! j = Some c →
  rs !! i = Some ri → rs !! j = Some rj →
  ∃ ki kj, ri = bumped c ki ∧ rj = bumped c kj ∧ (ki < kj)%nat
           ∧ (Z.of_nat (size timestamps') < Int64.modulus →
              (kj <= size timestamps')%nat).
Proof.
  intros Hres. revert i j.
  induction Hres as [|ts c0 k0 cs rs ts' Hf Hres IH];
    intros i j Hij Hci Hcj Hri Hrj; [done|].
  destruct j as [|j]; [lia|]. destruct i as [|i]; simpl in *.
  - injection Hci as ->. injection Hri as <-.
    destruct (Resolved_later _ _ _ _ c k0 Hres) with (j := j) (r := rj)
      as (kj & -> & Hlt & Hle); [|done|done|].
    + intros m Hm. destruct (decide (m = k0)) as [->|Hne].
      * rewrite lookup_insert_eq. by eexists.
      * destruct (decide (bumped c k0 = bumped c m)) as [->|Hne'].
        -- rewrite lookup_insert_eq. by eexists.
        -- rewrite lookup_insert_ne by done. apply Hf. lia.
    + by exists k0, kj.
  - apply (IH i j); [lia|done..].
Qed.

Section channel_run.
Context `{LawfulThreadsStorage T}.
Implicit Types (threads : T).

(** The run over a channel's messages resolves their creation times as
    [Resolved] describes, and the posts carry the resolved times when the
    run is over. *)
Lemma addPostsToThreads_resolved channel iwp :
  ∀ messages threads timestamps w posts threads' timestamps' w',
  Z.of_nat (size timestamps + length messages) < Int64.modulus →
  addPostsToThreads messages threads channel timestamps iwp w
  = Some ((posts, threads', timestamps'), w') →
  (∀ l x, heap w !! l = Some x →
     ∃ x', heap w' !! l = Some x'
           ∧ IntermediatePost.CreateAt x' = IntermediatePost.CreateAt x)
  ∧ ∃ rs,
      Resolved timestamps ((IntermediatePost.CreateAt ∘ snd) <$> messages)
        rs timestamps'
      ∧ createAtOf w' <$> posts = Some <$> rs.
Proof.
  induction messages as [|[original newPost] rest IH];
    intros threads ts w posts threads' ts' w' Hsz Hrun.
  - injection Hrun as <- <- <- <-. split; [by eauto|].
    exists []. split; [constructor|done].
  - cbn [addPostsToThreads] in Hrun. simpl length in Hsz.
    apply bind_inv in Hrun as (post & w0 & Halloc & Hrun).
    apply bind_inv in Hrun as ([threads1 ts1] & w1 & Hadd & Hrun).
    apply bind_inv in Hrun as ([[posts1 threads2] ts2] & w2 & Hrest & Hrun).
    injection Hrun as <- <- <- <-.
    unfold alloc in Halloc. injection Halloc as <- <-.
    set (post := fresh (dom (heap w))) in *.
    assert (Hfresh : heap w !! post = None) by apply alloc_fresh.
    apply AddPostToThreads_footprint with (v := newPost) in Hadd
      as (k & v' & Hf & -> & Hv' & Hc & Hkeep1);
      [|apply lookup_insert_eq|lia].
    assert (Hsz1 : size (<[bumped (IntermediatePost.CreateAt newPost) k := true]> ts)
                   = S (size ts)) by (apply size_ledger_insert, Hf).
    apply IH in Hrest as (Hkeep2 & rs & Hres & Hfinal); [|lia].
    split.
    + intros l x Hl.
      assert (Hlp : l ≠ post) by congruence.
      destruct (Hkeep1 l x Hlp) as (x1 & Hx1 & Hc1).
      { simpl. by rewrite lookup_insert_ne. }
      destruct (Hkeep2 l x1 Hx1) as (x2 & Hx2 & Hc2).
      exists x2. split; [done|congruence].
    + exists (bumped (IntermediatePost.CreateAt newPost) k :: rs).
      split; [by constructor|].
      rewrite !fmap_cons. f_equal; [|done].
      destruct (Hkeep2 post v' Hv') as (x2 & Hx2 & Hc2).
      unfold createAtOf. rewrite Hx2. simpl. congruence.
Qed.

End channel_run.

(** ** Order of the resolved times *)

Lemma wrap64_cases z :
  Int64.MinInt64 <= z < Int64.MaxInt64 + Int64.modulus →
  (z <= Int64.MaxInt64 ∧ Int64.wrap64 z = z)
  ∨ (Int64.MaxInt64 < z ∧ Int64.wrap64 z = z - Int64.modulus).
Proof.
  intros Hz. destruct (decide (z <= Int64.MaxInt64)) as [Hle|Hgt].
  - left. split; [done|]. apply wrap64_id. unfold Int64.in_range. lia.
  - right. split; [lia|].
    rewrite <- (wrap64_id (z - Int64.modulus)).
    + unfold Int64.wrap64. f_equal.
      replace (z - Int64.modulus - Int64.MinInt64)
        with (z - Int64.MinInt64 + (-1) * Int64.modulus) by lia.
      by rewrite Z_mod_plus_full.
    + unfold Int64.in_range, Int64.MaxInt64, Int64.MinInt64, Int64.modulus in *.
      lia.
Qed.

Lemma bumped_cases c k :
  Int64.in_range c → Z.of_nat k < Int64.modulus →
  (c + Z.of_nat k <= Int64.MaxInt64 ∧ bumped c k = c + Z.of_nat k)
  ∨ (Int64.MaxInt64 < c + Z.of_nat k
     ∧ bumped c k = c + Z.of_nat k - Int64.modulus).
Proof.
  intros Hc Hk.
  assert (Hb : bumped c k = Int64.wrap64 (c + Z.of_nat k)).
  { rewrite <- wrap64_bumped. symmetry. apply wrap64_id.
    destruct k as [|k]; [done|]. apply wrap64_in_range. }
  rewrite Hb. apply wrap64_cases.
  unfold Int64.in_range, Int64.MaxInt64, Int64.MinInt64, Int64.modulus in *.
  lia.
Qed.

(** With fewer increments the resolved time is smaller, as long as the
    larger one did not wrap around below the original time. *)
Lemma bumped_lt c ki kj :
  Int64.in_range c → Z.of_nat kj < Int64.modulus → (ki < kj)%nat →
  c <= bumped c kj → bumped c ki < bumped c kj.
Proof.
  intros Hc Hkj Hlt Hnowrap.
  destruct (bumped_cases c kj Hc Hkj) as [[Hj ->]|[Hj Ej]].
  - rewrite bumped_no_wrap; [lia|done|lia].
  - exfalso. rewrite Ej in Hnowrap.
    unfold Int64.modulus in *. lia.
Qed.

(** ** Claims on the ledger and the store key *)

(** C2, as the code has it.  For every message passed to
    [AddPostToThreads], given that the ledger holds fewer than 2^64
    entries: the call is the root/reply classification run on the post
    with its creation time advanced by the smallest number [k] of unit
    increments that reaches a value absent from the ledger, and on the
    ledger with that value recorded.  Consequently, for the messages of
    one channel processed in order, the resolved creation times are
    pairwise distinct and absent from the ledger the channel started with;
    and of two messages with the same original creation time, the first is
    resolved strictly below the second unless the second's increments
    wrapped around the largest 64-bit value (which leaves it below its
    original time). *)
Theorem creation_times_resolved `{LawfulThreadsStorage T} :
  (∀ original post (threads : T) channel timestamps importWorkflowPosts v w,
     heap w !! post = Some v →
     Z.of_nat (size timestamps) < Int64.modulus →
     ∃ k, firstFree timestamps (IntermediatePost.CreateAt v) k
       ∧ AddPostToThreads original post threads channel timestamps
           importWorkflowPosts w
         = classifyPost original post threads
             (<[bumped (IntermediatePost.CreateAt v) k := true]> timestamps)
             importWorkflowPosts
             (withPost post (resolvedPost channel v k) w))
  ∧ (∀ messages (threads : T) channel timestamps importWorkflowPosts w
       posts threads' timestamps' w',
     Z.of_nat (size timestamps + length messages) < Int64.modulus →
     addPostsToThreads messages threads channel timestamps
       importWorkflowPosts w
     = Some ((posts, threads', timestamps'), w') →
     ∃ rs,
       createAtOf w' <$> posts = Some <$> rs
       ∧ length rs = length messages
       ∧ NoDup rs
       ∧ (∀ r, r ∈ rs →
            timestamps !! r = None ∧ is_Some (timestamps' !! r))
       ∧ ∀ i j mi mj ri rj,
           (i < j)%nat →
           messages !! i = Some mi → messages !! j = Some mj →
           IntermediatePost.CreateAt mi.2 = IntermediatePost.CreateAt mj.2 →
           rs !! i = Some ri → rs !! j = Some rj →
           ri ≠ rj
           ∧ (Int64.in_range (IntermediatePost.CreateAt mj.2) →
              IntermediatePost.CreateAt mj.2 <= rj → ri < rj)).
Proof.
  split.
  - intros original post threads channel timestamps iwp v w Hv Hsz.
    destruct (firstFree_exists timestamps (IntermediatePost.CreateAt v) Hsz)
      as (k & Hk & Hf).
    exists k. split; [done|]. by apply AddPostToThreads_phases.
  - intros messages threads channel timestamps iwp w posts threads'
      timestamps' w' Hsz Hrun.
    destruct (addPostsToThreads_resolved _ _ _ _ _ _ _ _ _ _ Hsz Hrun)
      as (_ & rs & Hres & Hfinal).
    exists rs. split; [done|].
    split; [by rewrite (Resolved_length _ _ _ _ Hres), length_fmap|].
    split; [by eapply Resolved_NoDup|].
    split; [by eapply Resolved_fresh|].
    intros i j mi mj ri rj Hij Hmi Hmj Hc Hri Hrj.
    pose proof (Resolved_NoDup _ _ _ _ Hres) as Hnd.
    split.
    { intros ->. assert (i = j); [|lia].
      by eapply NoDup_lookup. }
    intros Hrange Hnowrap.
    destruct (Resolved_same_start _ _ _ _ i j
                (IntermediatePost.CreateAt mj.2) ri rj Hres Hij)
      as (ki & kj & -> & -> & Hlt & Hle); [| |done|done|].
    + rewrite list_lookup_fmap, Hmi. simpl. by rewrite Hc.
    + by rewrite list_lookup_fmap, Hmj.
    + pose proof (Resolved_size _ _ _ _ Hres) as Hs.
      rewrite length_fmap in Hs.
      apply bumped_lt; [done| |done|done].
      assert (kj <= size timestamps')%nat by (apply Hle; lia). lia.
Qed.

(** C1, as the code has it.  For every message processed by
    [AddPostToThreads] the creation time left on the post is the
    post-increment one, and it is recorded in the ledger; the identifier
    under which a root post is stored is the message's own timestamp
    string, not that creation time. *)
Theorem root_key_and_emitted_time `{LawfulThreadsStorage T} original post
    (threads : T) channel timestamps importWorkflowPosts v w :
  heap w !! post = Some v →
  Z.of_nat (size timestamps) < Int64.modulus →
  (∀ threads' timestamps' w',
     AddPostToThreads original post threads channel timestamps
       importWorkflowPosts w
     = Some ((threads', timestamps'), w') →
     ∃ k v',
       firstFree timestamps (IntermediatePost.CreateAt v) k
       ∧ heap w' !! post = Some v'
       ∧ IntermediatePost.CreateAt v'
         = bumped (IntermediatePost.CreateAt v) k
       ∧ timestamps' !! IntermediatePost.CreateAt v' = Some true)
  ∧ (¬ isReply original →
     ∃ k timestamps' w' v',
       AddPostToThreads original post threads channel timestamps
         importWorkflowPosts w
       = Some ((StoreThread threads (SlackPost.TimeStamp original) post,
                timestamps'), w')
       ∧ firstFree timestamps (IntermediatePost.CreateAt v) k
       ∧ heap w' !! post = Some v'
       ∧ IntermediatePost.CreateAt v'
         = bumped (IntermediatePost.CreateAt v) k
       ∧ timestamps' !! IntermediatePost.CreateAt v' = Some true).
Proof.
  intros Hv Hsz. split.
  - intros threads' timestamps' w' Hrun.
    destruct (AddPostToThreads_footprint _ _ _ _ _ _ _ _ _ _ _ Hv Hsz Hrun)
      as (k & v' & Hf & -> & Hv' & Hc & _).
    exists k, v'. split; [done|]. split; [done|]. split; [done|].
    rewrite Hc. apply lookup_insert_eq.
  - intros Hroot.
    destruct (firstFree_exists timestamps (IntermediatePost.CreateAt v) Hsz)
      as (k & Hk & Hf).
    pose proof (AddPostToThreads_phases original post threads channel
                  timestamps importWorkflowPosts v w k Hv Hk Hf) as Hrun.
    rewrite (classifyPost_root _ _ _ _ _ _ _ Hroot
               (lookup_insert_eq _ _ _)) in Hrun.
    destruct (AddPostToThreads_footprint _ _ _ _ _ _ _ _ _ _ _ Hv Hsz Hrun)
      as (k' & v' & Hf' & Hts & Hv' & Hc & _).
    rewrite (firstFree_unique _ _ _ _ Hf' Hf) in *.
    exists k. eexists _, _, v'. split; [exact Hrun|].
    split; [done|]. split; [done|]. split; [done|].
    rewrite Hc. apply lookup_insert_eq.
Qed.

(** ** The thread store, either variant *)

Lemma channel_changed (s : channelStorage) :
  GetChangedThreads s = (map_to_list (localThreads s)).*2.
Proof. by destruct s. Qed.

Lemma channel_store_local (s : channelStorage) k p :
  localThreads (StoreThread s k p) = <[k := p]> (localThreads s).
Proof. by destruct s. Qed.

Lemma channel_lookup_local_hit (s : channelStorage) k p w :
  localThreads s !! k = Some p →
  LookupThread s k w = Some ((Some p, s), w).
Proof.
  destruct s as [m|c]; simpl localThreads; intros E.
  - by rewrite channel_lookup_memory, E.
  - apply channel_lookup_redis. by apply redis_lookup_hit.
Qed.

Lemma sameInstance_refl s : sameInstance s s.
Proof. by destruct s. Qed.

Lemma sameInstance_trans s1 s2 s3 :
  sameInstance s1 s2 → sameInstance s2 s3 → sameInstance s1 s3.
Proof. destruct s1, s2, s3; simpl; try done. congruence. Qed.

Lemma sameInstance_backendMiss s s' k w w' :
  sameInstance s s' → redis w' = redis w →
  backendMiss s k w → backendMiss s' k w'.
Proof. destruct s, s'; simpl; try done. by intros -> ->. Qed.

(** Neither the instance nor the backend has the thread: [HasThread] is
    false and [LookupThread] yields nil, leaving all as it was. *)
Lemma channel_lookup_nowhere (s : channelStorage) k w :
  localThreads s !! k = None →
  backendMiss s k w →
  HasThread s k w = false ∧ LookupThread s k w = Some ((None, s), w).
Proof.
  intros Hloc Hback. destruct s as [m|c]; simpl in Hloc, Hback.
  - split.
    + simpl. rewrite Hloc. apply bool_decide_eq_false. by intros [? ?].
    + by rewrite channel_lookup_memory, Hloc.
  - split.
    + simpl. rewrite Hloc, Hback. apply orb_false_iff.
      split; apply bool_decide_eq_false; by intros [? ?].
    + apply channel_lookup_redis. by apply redis_lookup_miss.
Qed.

(** One lookup on an instance: a local hit, nothing at all, or a fetch
    from the backend that enters the local cache. *)
Lemma channel_lookup_cases (s : channelStorage) k w :
  ∃ r s' w',
    LookupThread s k w = Some ((r, s'), w')
    ∧ sameInstance s s'
    ∧ redis w' = redis w
    ∧ match r with
      | Some p => localThreads s' = <[k := p]> (localThreads s)
      | None => localThreads s' = localThreads s ∧ localThreads s !! k = None
      end.
Proof.
  destruct (localThreads s !! k) as [p|] eqn:Hloc.
  { exists (Some p), s, w. split; [by apply channel_lookup_local_hit|].
    split; [apply sameInstance_refl|]. split; [done|]. by rewrite insert_id. }
  destruct s as [m|c]; simpl in Hloc.
  - exists None, (MemoryStorage m), w.
    rewrite channel_lookup_memory, Hloc. by repeat split.
  - destruct (redis w !! redisKey (redisChannel c) k) as [d|] eqn:Er.
    + destruct (redis_lookup_fetch _ _ _ _ Hloc Er) as (p & w' & Ed & E).
      exists (Some p), (RedisStorage (mkRedisStorage (redisChannel c)
                                        (<[k := p]> (redisCache c)))), w'.
      split; [by apply channel_lookup_redis|].
      split; [done|]. split; [|done].
      by destruct (LookupThread_frame _ _ _ _ _ _ E) as (_ & ? & _).
    + exists None, (RedisStorage c), w.
      split; [by apply channel_lookup_redis, redis_lookup_miss|].
      by repeat split.
Qed.

(** A run of operations on an instance always completes; the identifiers
    it holds locally are exactly the touched ones, and the backend is as
    it was. *)
Lemma runOps_channel :
  ∀ ops (s : channelStorage) touched w,
  dom (localThreads s) = touched →
  ∃ s' touched' w',
    runOps ops s touched w = Some ((s', touched'), w')
    ∧ sameInstance s s'
    ∧ dom (localThreads s') = touched'
    ∧ redis w' = redis w.
Proof.
  induction ops as [|op ops IH]; intros s touched w Hdom.
  - exists s, touched, w. split; [done|]. split; [apply sameInstance_refl|done].
  - destruct op as [k p|k|k|l v]; cbn [runOps].
    + destruct (IH (StoreThread s k p) ({[k]} ∪ touched) w)
        as (s' & t' & w' & E & Hsame & ? & ?).
      * by rewrite channel_store_local, dom_insert_L, Hdom.
      * exists s', t', w'. split; [done|]. split; [|done].
        eapply sameInstance_trans; [|done]. by destruct s.
    + destruct (channel_lookup_cases s k w)
        as (r & s1 & w1 & E1 & Hsame1 & Hr1 & Hloc).
      destruct (IH s1 (match r with
                       | Some _ => {[k]} ∪ touched
                       | None => touched
                       end) w1) as (s' & t' & w' & E & Hsame & ? & ?).
      * destruct r as [p|].
        -- by rewrite Hloc, dom_insert_L, Hdom.
        -- destruct Hloc as [-> _]. done.
      * exists s', t', w'. rewrite (bind_Some _ _ _ _ _ E1).
        split; [done|]. split; [by eapply sameInstance_trans|].
        split; [done|]. congruence.
    + destruct (IH s touched w Hdom) as (s' & t' & w' & E & ? & ? & ?).
      by exists s', t', w'.
    + destruct (IH s touched (set_heap (<[l := v]> (heap w)) w) Hdom)
        as (s' & t' & w' & E & ? & ? & ?).
      by exists s', t', w'.
Qed.

(** What [newChannelThreadsStorage] returns, when it returns a store, is
    an instance that holds nothing yet: the local variant without a
    configuration, the cache-backed one for the channel with one. *)
Lemma newChannelThreadsStorage_new `{Env} factory channelName attachmentsDir
    redisConfig s factory' :
  newChannelThreadsStorage factory channelName attachmentsDir redisConfig
  = (inl s, factory') →
  localThreads s = ∅
  ∧ match redisConfig, s with
    | None, MemoryStorage _ => True
    | Some _, RedisStorage c => redisChannel c = channelName
    | _, _ => False
    end.
Proof.
  unfold newChannelThreadsStorage.
  destruct redisConfig as [config|]; [|by intros [= <- <-]].
  destruct factory as [f|]; [by intros [= <- <-]|].
  destruct (newRedisFactory config) as [f|err]; [|done].
  by intros [= <- <-].
Qed.

(** C5.  On a thread store of either variant: right after
    [StoreThread(T, P)], [HasThread(T)] is true and [LookupThread(T)]
    returns [P] itself; and for a new instance then used in any way that
    never touched [T], with nothing under [T] in the backend,
    [HasThread(T)] is false and [LookupThread(T)] returns nil and leaves
    the store and the world as they were. *)
Theorem store_then_lookup :
  (∀ (s : channelStorage) threadTS post w,
     HasThread (StoreThread s threadTS post) threadTS w = true
     ∧ LookupThread (StoreThread s threadTS post) threadTS w
       = Some ((Some post, StoreThread s threadTS post), w))
  ∧ (∀ (s : channelStorage) ops threadTS w,
     localThreads s = ∅ →
     backendMiss s threadTS w →
     ∃ s' touched w',
       runOps ops s ∅ w = Some ((s', touched), w')
       ∧ (threadTS ∉ touched →
          HasThread s' threadTS w' = false
          ∧ LookupThread s' threadTS w' = Some ((None, s'), w'))).
Proof.
  split.
  - intros s threadTS post w. split.
    + apply HasThread_StoreThread.
    + apply LookupThread_StoreThread.
  - intros s ops threadTS w Hnew Hback.
    destruct (runOps_channel ops s ∅ w)
      as (s' & touched & w' & E & Hsame & Hdom & Hredis).
    { by rewrite Hnew, dom_empty_L. }
    exists s', touched, w'. split; [done|]. intros Hnot.
    apply channel_lookup_nowhere.
    + apply not_elem_of_dom. by rewrite Hdom.
    + by eapply sameInstance_backendMiss.
Qed.

(** C6.  A new instance of either variant, over any backend, used in any
    way: [GetChangedThreads] has one entry per touched identifier (stored,
    or found by a lookup, which includes those fetched from the backend),
    and its entries are exactly the posts a lookup of a touched identifier
    returns.  An identifier that was not touched has no entry, whatever
    the backend holds for it. *)
Theorem changed_threads_are_the_touched (s : channelStorage) ops w :
  localThreads s = ∅ →
  ∃ s' touched w',
    runOps ops s ∅ w = Some ((s', touched), w')
    ∧ redis w' = redis w
    ∧ length (GetChangedThreads s') = size touched
    ∧ (∀ post, post ∈ GetChangedThreads s' ↔
         ∃ threadTS, threadTS ∈ touched
           ∧ LookupThread s' threadTS w' = Some ((Some post, s'), w'))
    ∧ (∀ threadTS, threadTS ∉ touched → localThreads s' !! threadTS = None).
Proof.
  intros Hnew.
  destruct (runOps_channel ops s ∅ w)
    as (s' & touched & w' & E & Hsame & Hdom & Hredis).
  { by rewrite Hnew, dom_empty_L. }
  exists s', touched, w'. split; [done|]. split; [done|].
  rewrite channel_changed. split; [|split].
  - by rewrite length_fmap, length_map_to_list, <- Hdom, size_dom.
  - intros post. split.
    + intros ([k p] & -> & Hin%elem_of_map_to_list)%list_elem_of_fmap.
      exists k. split.
      * rewrite <- Hdom. apply elem_of_dom. by eexists.
      * by apply channel_lookup_local_hit.
    + intros (k & Hk & Hlookup).
      rewrite <- Hdom in Hk. apply elem_of_dom in Hk as [p Hp].
      rewrite (channel_lookup_local_hit _ _ _ _ Hp) in Hlookup.
      injection Hlookup as ->. by apply (in_changed _ k).
  - intros k Hk. apply not_elem_of_dom. by rewrite Hdom.
Qed.

(** C7.  The post [LookupThread(T)] returns is the stored one, not a
    copy: after a reply is appended to it in place, the next
    [LookupThread(T)] on the same instance returns the same address, where
    the post now has the reply, and that address is among the changed
    threads; no [StoreThread] is involved.  [AddPostToThreads] relies on
    this: the reply it appends to a root is there at the next lookup. *)
Theorem lookup_returns_live_reference (s : channelStorage) threadTS w
    root s1 w1 v :
  LookupThread s threadTS w = Some ((Some root, s1), w1) →
  heap w1 !! root = Some v →
  (∀ reply,
     let appended := IntermediatePost.set_Replies
                       (IntermediatePost.Replies v ++ [reply]) v in
     modify root (λ r, IntermediatePost.set_Replies
                         (IntermediatePost.Replies r ++ [reply]) r) w1
     = Some (tt, withPost root appended w1)
     ∧ LookupThread s1 threadTS (withPost root appended w1)
       = Some ((Some root, s1), withPost root appended w1)
     ∧ heap (withPost root appended w1) !! root = Some appended
     ∧ root ∈ GetChangedThreads s1)
  ∧ (∀ original post channel timestamps importWorkflowPosts p,
     heap w !! post = Some p →
     Z.of_nat (size timestamps) < Int64.modulus →
     SlackPost.ThreadTS original = threadTS →
     isReply original →
     post ≠ root →
     importWorkflowPosts = true
     ∨ IntermediatePost.User v ≠ WorkflowUserName →
     ∃ timestamps' w',
       AddPostToThreads original post s channel timestamps
         importWorkflowPosts w
       = Some ((s1, timestamps'), w')
       ∧ LookupThread s1 threadTS w' = Some ((Some root, s1), w')
       ∧ heap w' !! root
         = Some (IntermediatePost.set_Replies
                   (IntermediatePost.Replies v ++ [post]) v)
       ∧ root ∈ GetChangedThreads s1).
Proof.
  intros Hlookup Hv. split.
  - intros reply appended. split.
    { apply (modify_Some root
               (λ r, IntermediatePost.set_Replies
                       (IntermediatePost.Replies r ++ [reply]) r) v w1 Hv). }
    split; [by eapply LookupThread_again|].
    split; [apply lookup_insert_eq|].
    by eapply LookupThread_changed.
  - intros original post channel timestamps iwp p Hp Hsz <- Hreply Hne Hu.
    destruct (firstFree_exists timestamps (IntermediatePost.CreateAt p) Hsz)
      as (k & Hk & Hf).
    eexists _, _. split; [|split; [|split]].
    + rewrite (AddPostToThreads_phases _ _ _ _ _ _ _ _ _ Hp Hk Hf).
      eapply classifyPost_append; [done| | |done].
      * apply LookupThread_withPost; [by eexists|done].
      * rewrite heap_withPost. by rewrite lookup_insert_ne.
    + by eapply LookupThread_again.
    + apply lookup_insert_eq.
    + by eapply LookupThread_changed.
Qed.

(** ** Channels *)

Section channels.
Context `{Env}.

(** Sanitising a channel always completes and leaves its type alone. *)
Lemma IntermediateChannel_Sanitise_total c w :
  ∃ c' w', IntermediateChannel_Sanitise c w = Some (c', w')
    ∧ IntermediateChannel.Type_ c' = IntermediateChannel.Type_ c.
Proof.
  set (same := λ (c' : IntermediateChannel.t) (_ : World),
         IntermediateChannel.Type_ c' = IntermediateChannel.Type_ c).
  change (returns (IntermediateChannel_Sanitise c) w same).
  unfold IntermediateChannel_Sanitise.
  case_decide; [by apply returns_ret|].
  eapply (returns_bind _ _ _ same); [by apply returns_warn_cut|].
  intros c1 w1 H1. cbv zeta.
  eapply (returns_bind _ _ _ same).
  { apply returns_warn_cut; unfold same; simpl;
      by repeat (case_decide || destruct (isValidChannelNameCharacters _)). }
  intros c2 w2 H2.
  eapply (returns_bind _ _ _ same).
  { apply returns_warn_cut; unfold same; simpl; by repeat case_decide. }
  intros c3 w3 H3.
  by apply returns_warn_cut.
Qed.

(** One turn of the loop on a direct or group channel with at most one
    valid member: a warning, and on with the rest. *)
Lemma transformChannelsFrom_skip users channel rest resultChannels w :
  SlackChannel.Type_ channel = ChannelTypeDirect
  ∨ SlackChannel.Type_ channel = ChannelTypeGroup →
  (length (filterValidMembers (SlackChannel.Members channel) users) <= 1)%nat →
  transformChannelsFrom users (channel :: rest) resultChannels w
  = transformChannelsFrom users rest resultChannels
      (add_log (Logger Warn
                  ("Bulk export for direct channels containing a single member is not supported. Not importing channel "
                   +:+ SlackChannel.Name channel)) w).
Proof.
  intros Hty Hlen. cbn [transformChannelsFrom].
  rewrite (bool_decide_eq_true_2 (_ ∨ _)) by done.
  rewrite (bool_decide_eq_true_2 (length _ <= 1)%nat) by done.
  reflexivity.
Qed.

(** One turn of the loop on a group channel with more valid members than
    a group may have: the same as on the private channel named by the
    purpose. *)
Lemma transformChannelsFrom_big_group users channel rest resultChannels w :
  (1 <= ChannelGroupMaxUsers)%nat →
  SlackChannel.Type_ channel = ChannelTypeGroup →
  (ChannelGroupMaxUsers
   < length (filterValidMembers (SlackChannel.Members channel) users))%nat →
  transformChannelsFrom users (channel :: rest) resultChannels w
  = (newChannel ← IntermediateChannel_Sanitise
       (IntermediateChannel.mk ""
          (if decide (SlackChannel.Purpose channel = "")
           then SlackChannel.Id channel else SlackChannel.Purpose channel)
          (SlackConvertChannelName (SlackChannel.Purpose channel)
             (SlackChannel.Id channel))
          (if decide (SlackChannel.Purpose channel = "")
           then SlackChannel.Id channel else SlackChannel.Purpose channel)
          (filterValidMembers (SlackChannel.Members channel) users) []
          (SlackChannel.Purpose channel) (SlackChannel.Topic channel) ""
          ChannelTypePrivate);
     transformChannelsFrom users rest (resultChannels ++ [newChannel])) w.
Proof.
  intros Hmax Hty Hlen. cbn [transformChannelsFrom].
  rewrite (bool_decide_eq_false_2 (length _ <= 1)%nat) by lia.
  rewrite andb_false_r.
  rewrite (bool_decide_eq_true_2 (SlackChannel.Type_ channel = _)) by done.
  rewrite (bool_decide_eq_true_2 (_ < _)%nat) by done.
  reflexivity.
Qed.

(** C10.  In [TransformChannels], at any turn of its loop: a direct or
    group channel with at most one valid (known-user) member only adds a
    warning to the log, and the channels built so far go on unchanged to
    the rest, so it yields no output channel; and (the group maximum
    being at least one) a group channel with more valid members than the
    maximum yields one output channel, of type private, which is the
    sanitised channel whose handle is converted from the purpose value
    and whose original and display names are the purpose value (the id
    when the purpose is empty). *)
Theorem small_channels_skipped_big_groups_private users :
  (∀ channel rest resultChannels w,
     SlackChannel.Type_ channel = ChannelTypeDirect
     ∨ SlackChannel.Type_ channel = ChannelTypeGroup →
     (length (filterValidMembers (SlackChannel.Members channel) users) <= 1)%nat →
     transformChannelsFrom users (channel :: rest) resultChannels w
     = transformChannelsFrom users rest resultChannels
         (add_log (Logger Warn
                     ("Bulk export for direct channels containing a single member is not supported. Not importing channel "
                      +:+ SlackChannel.Name channel)) w)
     ∧ ∃ w', TransformChannels users [channel] w = Some ([], w'))
  ∧ (∀ channel rest resultChannels w,
     (1 <= ChannelGroupMaxUsers)%nat →
     SlackChannel.Type_ channel = ChannelTypeGroup →
     (ChannelGroupMaxUsers
      < length (filterValidMembers (SlackChannel.Members channel) users))%nat →
     ∃ newChannel w1,
       IntermediateChannel_Sanitise
         (IntermediateChannel.mk ""
            (if decide (SlackChannel.Purpose channel = "")
             then SlackChannel.Id channel else SlackChannel.Purpose channel)
            (SlackConvertChannelName (SlackChannel.Purpose channel)
               (SlackChannel.Id channel))
            (if decide (SlackChannel.Purpose channel = "")
             then SlackChannel.Id channel else SlackChannel.Purpose channel)
            (filterValidMembers (SlackChannel.Members channel) users) []
            (SlackChannel.Purpose channel) (SlackChannel.Topic channel) ""
            ChannelTypePrivate) w
       = Some (newChannel, w1)
       ∧ IntermediateChannel.Type_ newChannel = ChannelTypePrivate
       ∧ transformChannelsFrom users (channel :: rest) resultChannels w
         = transformChannelsFrom users rest (resultChannels ++ [newChannel]) w1
       ∧ TransformChannels users [channel] w = Some ([newChannel], w1)).
Proof.
  split.
  - intros channel rest resultChannels w Hty Hlen. split.
    + by apply transformChannelsFrom_skip.
    + unfold TransformChannels.
      rewrite transformChannelsFrom_skip by done. by eexists.
  - intros channel rest resultChannels w Hmax Hty Hlen.
    destruct (IntermediateChannel_Sanitise_total
                (IntermediateChannel.mk ""
                   (if decide (SlackChannel.Purpose channel = "")
                    then SlackChannel.Id channel
                    else SlackChannel.Purpose channel)
                   (SlackConvertChannelName (SlackChannel.Purpose channel)
                      (SlackChannel.Id channel))
                   (if decide (SlackChannel.Purpose channel = "")
                    then SlackChannel.Id channel
                    else SlackChannel.Purpose channel)
                   (filterValidMembers (SlackChannel.Members channel) users)
                   [] (SlackChannel.Purpose channel)
                   (SlackChannel.Topic channel) "" ChannelTypePrivate) w)
      as (newChannel & w1 & Hsan & Hty').
    exists newChannel, w1. split; [done|]. split; [done|]. split.
    + rewrite transformChannelsFrom_big_group by done.
      by rewrite (bind_Some _ _ _ _ _ Hsan).
    + unfold TransformChannels.
      rewrite transformChannelsFrom_big_group by done.
      by rewrite (bind_Some _ _ _ _ _ Hsan).
Qed.

End channels.

(** ** Posts: the props of plain and bot messages *)

Section posts.
Context `{Env}.

Lemma IntermediateUser_Sanitise_returns u w :
  returns (IntermediateUser_Sanitise u) w (logsOnly w).
Proof.
  unfold IntermediateUser_Sanitise.
  eapply (returns_bind _ _ _ (logsOnly w)).
  { case_decide.
    - eapply (returns_bind _ _ _ (logsOnly w)); [by apply returns_logf|].
      intros [] w' Hw'. by apply returns_ret.
    - by apply returns_ret. }
  intros u1 w1 [Hh1 Hr1].
  eapply (returns_bind _ _ _ (logsOnly w)); [by apply returns_warn_cut|].
  intros u2 w2 [Hh2 Hr2].
  eapply (returns_bind _ _ _ (logsOnly w)); [by apply returns_warn_cut|].
  intros u3 w3 [Hh3 Hr3].
  by apply returns_warn_cut.
Qed.

Lemma selectOrCreateWorkflowUser_returns users w :
  returns (selectOrCreateWorkflowUser users) w (logsOnly w).
Proof.
  unfold selectOrCreateWorkflowUser.
  destruct (users !! "importedworkflow") as [existing|].
  - by apply returns_ret.
  - eapply returns_bind; [apply IntermediateUser_Sanitise_returns|].
    intros u w' Hw'. by apply returns_ret.
Qed.

Lemma filesOnly_refl newPost w v {A} (a : A) :
  heap w !! newPost = Some v → filesOnly newPost w a w.
Proof. intros Hv. split; [by exists v, v|done]. Qed.

Lemma filesOnly_log newPost w v e {A} (a : A) :
  heap w !! newPost = Some v → filesOnly newPost w a (add_log e w).
Proof. intros Hv. split; [by exists v, v|done]. Qed.

Lemma filesOnly_trans newPost w w1 w2 {A B} (a : A) (b : B) :
  filesOnly newPost w a w1 → filesOnly newPost w1 b w2 →
  filesOnly newPost w b w2.
Proof.
  intros [(v & v1 & Hv & Hv1 & Hp1) [Hf1 Hr1]]
         [(v1' & v2 & Hv1' & Hv2 & Hp2) [Hf2 Hr2]].
  split; [|split].
  - exists v, v2. repeat split; [done..|]. congruence.
  - intros l Hl. rewrite Hf2, Hf1; done.
  - congruence.
Qed.

Lemma addFile_returns cfg uploads newPost file w v :
  heap w !! newPost = Some v →
  returns (err ← addFileToPost file uploads newPost (AttachmentsDir cfg);
           match err with
           | Some e => logf (LoggerWithError e "Failed to add file to post")
           | None => mret tt
           end) w (filesOnly newPost w).
Proof.
  intros Hv. unfold addFileToPost.
  destruct (uploads !! SlackFile.Id file) as [[err|]|].
  - eapply (returns_bind _ _ _ (λ e w', e = Some err ∧ w' = w));
      [by apply returns_ret|].
    intros e w' [-> ->]. apply returns_logf. by apply (filesOnly_log _ _ v).
  - eapply (returns_bind _ _ _ (λ e w', e = None ∧ filesOnly newPost w tt w')).
    + eapply (returns_bind _ _ _ (λ _ w', w' = add_log _ w));
        [by apply returns_logf|].
      intros [] w1 ->.
      eapply (returns_bind _ _ _ (λ _ w', filesOnly newPost w tt w')).
      * eexists tt, _. split; [by apply (modify_Some _ _ v)|].
        split; [|split; [|done]].
        -- eexists v, _. split; [done|]. split; [apply lookup_insert_eq|done].
        -- intros l Hl. simpl. by rewrite lookup_insert_ne.
      * intros [] w2 Hw2. by apply returns_ret.
    + intros e w' [-> Hw']. by apply returns_ret.
  - eapply (returns_bind _ _ _ (λ e w', is_Some e ∧ w' = w));
      [by apply returns_ret|].
    intros e w' [[e' ->] ->]. apply returns_logf.
    by apply (filesOnly_log _ _ v).
Qed.

Lemma addFilesToPost_returns cfg uploads post newPost w v :
  heap w !! newPost = Some v →
  returns (addFilesToPost cfg uploads post newPost) w (filesOnly newPost w).
Proof.
  intros Hv. unfold addFilesToPost.
  destruct (SkipAttachments cfg); simpl;
    [by apply returns_ret, (filesOnly_refl _ _ v)|].
  destruct (SlackPost.File post) as [file|];
    [by apply (addFile_returns _ _ _ _ _ v)|].
  generalize (SlackPost.Files post). intros files.
  assert (Hloop : ∀ w1 v1, heap w1 !! newPost = Some v1 →
    returns
      ((fix each (files : list SlackFile.t) : M unit :=
          match files with
          | [] => mret tt
          | file :: rest =>
              (err ← addFileToPost file uploads newPost (AttachmentsDir cfg);
               match err with
               | Some e => logf (LoggerWithError e "Failed to add file to post")
               | None => mret tt
               end);; each rest
          end) files) w1 (filesOnly newPost w1)).
  { induction files as [|file rest IH]; intros w1 v1 Hv1.
    - by apply returns_ret, (filesOnly_refl _ _ v1).
    - eapply returns_bind; [by apply (addFile_returns _ _ _ _ _ v1)|].
      intros [] w2 Hw2.
      destruct Hw2 as [(v1' & v2 & Hv1' & Hv2 & Hp) Hrest].
      destruct (IH w2 v2 Hv2) as ([] & w3 & E & Hw3).
      exists tt, w3. split; [done|].
      eapply (filesOnly_trans _ _ w2 _ tt tt); [|done].
      split; [by exists v1', v2|done]. }
  by eapply Hloop.
Qed.

Lemma addPropsToPost_within cfg post newPost w v :
  SlackPost.Attachments post ≠ [] →
  (Utf8.RuneCountInString (marshalProps (SlackPost.Attachments post))
   <= PostPropsMaxRunes)%nat →
  heap w !! newPost = Some v →
  addPropsToPost cfg post newPost w
  = Some (true,
          withPost newPost
            (IntermediatePost.set_Props
               {[ "attachments" := SlackPost.Attachments post ]} v) w).
Proof.
  intros Hatts Hfit Hv. unfold addPropsToPost.
  rewrite decide_True by (destruct (SlackPost.Attachments post); simpl; [done|lia]).
  rewrite decide_True by done.
  by rewrite (bind_Some _ _ _ _ _ (modify_Some _ _ _ _ Hv)).
Qed.

Lemma addPropsToPost_over cfg post newPost w :
  SlackPost.Attachments post ≠ [] →
  (PostPropsMaxRunes
   < Utf8.RuneCountInString (marshalProps (SlackPost.Attachments post)))%nat →
  addPropsToPost cfg post newPost w
  = if DiscardInvalidProps cfg
    then Some (false,
               add_log (Logger Warn "Unable import post as props exceed the maximum character count. Skipping as --discard-invalid-props is enabled.") w)
    else Some (true,
               add_log (Logger Warn "Unable to add props to post as they exceed the maximum character count.") w).
Proof.
  intros Hatts Hover. unfold addPropsToPost.
  rewrite decide_True by (destruct (SlackPost.Attachments post); simpl; [done|lia]).
  rewrite decide_False by lia.
  by destruct (DiscardInvalidProps cfg).
Qed.

(** The steps the plain and the bot case share, from the allocation of
    the new post to the props, followed by anything [K]. *)
Lemma props_steps {R} cfg uploads channel post author message w0
    (K : loc → bool → M R) :
  SlackPost.Attachments post ≠ [] →
  ∃ w1 v,
    let newPost := fresh (dom (heap w0)) in
    heap w1 !! newPost = Some v
    ∧ IntermediatePost.Props v = ∅
    ∧ (newPost' ← alloc (newIntermediatePost author channel message
                           (SlackPost.TimeStamp post));
       addFilesToPost cfg uploads post newPost';;
       keep ← addPropsToPost cfg post newPost';
       K newPost' keep) w0
      = if decide (Utf8.RuneCountInString
                     (marshalProps (SlackPost.Attachments post))
                   <= PostPropsMaxRunes)%nat
        then K newPost true
               (withPost newPost
                  (IntermediatePost.set_Props
                     {[ "attachments" := SlackPost.Attachments post ]} v) w1)
        else if DiscardInvalidProps cfg
        then K newPost false
               (add_log (Logger Warn "Unable import post as props exceed the maximum character count. Skipping as --discard-invalid-props is enabled.") w1)
        else K newPost true
               (add_log (Logger Warn "Unable to add props to post as they exceed the maximum character count.") w1).
Proof.
  intros Hatts.
  set (newPost := fresh (dom (heap w0))).
  set (np := newIntermediatePost author channel message
               (SlackPost.TimeStamp post)).
  set (wa := set_heap (<[newPost := np]> (heap w0)) w0).
  assert (Hnp : heap wa !! newPost = Some np) by apply lookup_insert_eq.
  destruct (addFilesToPost_returns cfg uploads post newPost wa np Hnp)
    as ([] & w1 & Hfiles & (v0 & v & Hv0 & Hv & Hprops) & _).
  rewrite Hnp in Hv0. injection Hv0 as <-.
  exists w1, v. split; [done|]. split; [done|].
  unfold alloc at 1. unfold mbind at 1, M_bind at 1.
  rewrite (bind_Some _ _ _ _ _ Hfiles).
  case_decide as Hfit.
  - by rewrite (bind_Some _ _ _ _ _
                  (addPropsToPost_within cfg post newPost w1 v Hatts Hfit Hv)).
  - pose proof (addPropsToPost_over cfg post newPost w1 Hatts ltac:(lia))
      as Hover.
    destruct (DiscardInvalidProps cfg);
      by rewrite (bind_Some _ _ _ _ _ Hover).
Qed.

(** How [transformPost] gets to the shared steps: a plain message of a
    known user, or a bot message when workflow messages are imported. *)
Lemma transformPost_reaches_props `{ThreadsStorage T} cfg uploads channel
    post users (threads : T) timestamps w :
  (IsPlainMessage post = true ∧ SlackPost.User post ≠ ""
   ∧ is_Some (users !! SlackPost.User post))
  ∨ (IsPlainMessage post = false ∧ IsFileComment post = false
     ∧ IsBotMessage post = true ∧ ImportWorkflowMessages cfg = true) →
  ∃ author users' w0,
    heap w0 = heap w
    ∧ transformPost cfg uploads channel post users threads timestamps w
      = (newPost ← alloc (newIntermediatePost author channel
                            (SlackPost.Text post) (SlackPost.TimeStamp post));
         addFilesToPost cfg uploads post newPost;;
         keep ← addPropsToPost cfg post newPost;
         if keep : bool
         then '(threads', timestamps') ←
                AddPostToThreads post newPost threads channel timestamps
                  (ImportWorkflowMessages cfg);
              mret (users', threads', timestamps')
         else mret (users', threads, timestamps)) w0.
Proof.
  intros [(Hplain & Huser & [author Hauthor])|(Hplain & Hcomment & Hbot & Himport)].
  - exists author, users, w. split; [done|].
    unfold transformPost. rewrite Hplain.
    rewrite decide_False by done. by rewrite Hauthor.
  - destruct (selectOrCreateWorkflowUser_returns users w)
      as ([author users'] & w0 & Hsel & Hh & _).
    exists author, users', w0. split; [done|].
    unfold transformPost. rewrite Hplain, Hcomment, Hbot, Himport.
    change (negb true) with false. cbv iota.
    by rewrite (bind_Some _ _ _ _ _ Hsel).
Qed.

End posts.

(** C8, as the code has it.  For a plain message of a known user, and for
    a bot message when workflow messages are imported, that carries
    attachments: a new post is built without props; if the marshalled
    props are within the limit they are set on the post, which goes to
    [AddPostToThreads] and keeps them; if they exceed it and
    discard-invalid-props is off, a warning is logged and the post goes to
    [AddPostToThreads] without props; if it is on, a warning is logged and
    the message is discarded, the store and the ledger staying as they
    were. *)
Theorem attachments_props_policy `{Env} `{LawfulThreadsStorage T} cfg uploads
    channel post users (threads : T) timestamps w :
  (IsPlainMessage post = true ∧ SlackPost.User post ≠ ""
   ∧ is_Some (users !! SlackPost.User post))
  ∨ (IsPlainMessage post = false ∧ IsFileComment post = false
     ∧ IsBotMessage post = true ∧ ImportWorkflowMessages cfg = true) →
  SlackPost.Attachments post ≠ [] →
  Z.of_nat (size timestamps) < Int64.modulus →
  ∃ newPost users' w1 v,
    heap w !! newPost = None
    ∧ heap w1 !! newPost = Some v
    ∧ IntermediatePost.Props v = ∅
    ∧ ((Utf8.RuneCountInString (marshalProps (SlackPost.Attachments post))
        <= PostPropsMaxRunes)%nat →
       transformPost cfg uploads channel post users threads timestamps w
       = ('(threads', timestamps') ←
            AddPostToThreads post newPost threads channel timestamps
              (ImportWorkflowMessages cfg);
          mret (users', threads', timestamps'))
           (withPost newPost
              (IntermediatePost.set_Props
                 {[ "attachments" := SlackPost.Attachments post ]} v) w1)
       ∧ ∀ res w',
           transformPost cfg uploads channel post users threads timestamps w
           = Some (res, w') →
           ∃ v', heap w' !! newPost = Some v'
             ∧ IntermediatePost.Props v'
               = {[ "attachments" := SlackPost.Attachments post ]})
    ∧ ((PostPropsMaxRunes
        < Utf8.RuneCountInString (marshalProps (SlackPost.Attachments post)))%nat →
       DiscardInvalidProps cfg = false →
       transformPost cfg uploads channel post users threads timestamps w
       = ('(threads', timestamps') ←
            AddPostToThreads post newPost threads channel timestamps
              (ImportWorkflowMessages cfg);
          mret (users', threads', timestamps'))
           (add_log (Logger Warn "Unable to add props to post as they exceed the maximum character count.") w1)
       ∧ ∀ res w',
           transformPost cfg uploads channel post users threads timestamps w
           = Some (res, w') →
           ∃ v', heap w' !! newPost = Some v'
             ∧ IntermediatePost.Props v' = ∅)
    ∧ ((PostPropsMaxRunes
        < Utf8.RuneCountInString (marshalProps (SlackPost.Attachments post)))%nat →
       DiscardInvalidProps cfg = true →
       transformPost cfg uploads channel post users threads timestamps w
       = Some ((users', threads, timestamps),
               add_log (Logger Warn "Unable import post as props exceed the maximum character count. Skipping as --discard-invalid-props is enabled.") w1)).
Proof.
  intros Hcand Hatts Hsz.
  destruct (transformPost_reaches_props cfg uploads channel post users
              threads timestamps w Hcand) as (author & users' & w0 & Hh & Hrun).
  destruct (props_steps cfg uploads channel post author
              (SlackPost.Text post) w0
              (λ newPost keep,
                 if keep : bool
                 then '(threads', timestamps') ←
                        AddPostToThreads post newPost threads channel
                          timestamps (ImportWorkflowMessages cfg);
                      mret (users', threads', timestamps')
                 else mret (users', threads, timestamps)) Hatts)
    as (w1 & v & Hv & Hprops & Hsteps).
  cbv zeta in Hv, Hsteps. rewrite <- Hrun in Hsteps. clear Hrun.
  exists (fresh (dom (heap w0))), users', w1, v.
  split; [rewrite Hh; apply alloc_fresh|].
  split; [done|]. split; [done|].
  assert (Hkeeps : ∀ w2 v2 res w',
    heap w2 !! fresh (dom (heap w0)) = Some v2 →
    ('(threads', timestamps') ←
       AddPostToThreads post (fresh (dom (heap w0))) threads channel
         timestamps (ImportWorkflowMessages cfg);
     mret (users', threads', timestamps')) w2 = Some (res, w') →
    ∃ v', heap w' !! fresh (dom (heap w0)) = Some v'
      ∧ IntermediatePost.Props v' = IntermediatePost.Props v2).
  { intros w2 v2 res w' Hv2 Hadd.
    apply bind_inv in Hadd as ([threads' timestamps'] & w3 & Hadd & Hret).
    injection Hret as <- <-.
    by eapply AddPostToThreads_keeps_Props. }
  split; [|split].
  - intros Hfit. rewrite decide_True in Hsteps by done.
    split; [done|]. intros res w' Hres. rewrite Hsteps in Hres.
    eapply Hkeeps in Hres; [|apply lookup_insert_eq]. done.
  - intros Hover Hdiscard. rewrite decide_False in Hsteps by lia.
    rewrite Hdiscard in Hsteps.
    split; [done|]. intros res w' Hres. rewrite Hsteps in Hres.
    eapply Hkeeps in Hres; [|exact Hv]. by rewrite Hprops in Hres.
  - intros Hover Hdiscard. rewrite decide_False in Hsteps by lia.
    by rewrite Hdiscard in Hsteps.
Qed.

(** ** The claims on concrete messages *)

(** C1 as stated fails: a root message with timestamp "10" whose creation
    time 10 is already in the ledger.  The post leaves with creation time
    11, and it is stored under "10", the message's timestamp; nothing is
    stored under 11. *)
Lemma root_key_is_not_resolved_time :
  AddPostToThreads (Sample.message "10" "") 1%positive newMemoryStorage
    Sample.general {[ 10 := true ]} false (Sample.worldWith (Sample.postAt 10))
  = Some ((mkMemoryStorage {[ "10" := 1%positive ]},
           {[ 10 := true; 11 := true ]}),
          Sample.worldWith (Sample.postAt 11))
  ∧ SlackPost.TimeStamp (Sample.message "10" "") = "10"
  ∧ HasThread (mkMemoryStorage {[ "10" := 1%positive ]}) "10"
      (Sample.worldWith (Sample.postAt 11)) = true
  ∧ HasThread (mkMemoryStorage {[ "10" := 1%positive ]}) "11"
      (Sample.worldWith (Sample.postAt 11)) = false.
Proof. repeat split; vm_compute; reflexivity. Qed.

Lemma root_key_and_emitted_time_witness :
  ∃ k timestamps' w' v',
    AddPostToThreads (Sample.message "10" "") 1%positive newMemoryStorage
      Sample.general {[ 10 := true ]} false
      (Sample.worldWith (Sample.postAt 10))
    = Some ((StoreThread newMemoryStorage "10" 1%positive, timestamps'), w')
    ∧ firstFree {[ 10 := true ]} 10 k
    ∧ heap w' !! 1%positive = Some v'
    ∧ IntermediatePost.CreateAt v' = bumped 10 k
    ∧ timestamps' !! IntermediatePost.CreateAt v' = Some true.
Proof.
  destruct (root_key_and_emitted_time (T := memoryStorage)
              (Sample.message "10" "") 1%positive newMemoryStorage
              Sample.general {[ 10 := true ]} false (Sample.postAt 10)
              (Sample.worldWith (Sample.postAt 10))) as [_ Hroot].
  - reflexivity.
  - vm_compute. reflexivity.
  - apply Hroot. intros [Hne _]. by apply Hne.
Defined.

(** C2 as stated fails: two messages of one channel, both with original
    creation time 2^63-1.  The first keeps it; the second is incremented
    once, which wraps around to -2^63, below the first. *)
Lemma resolved_time_wraps_around :
  ∃ threads' timestamps' w',
    addPostsToThreads
      [ (Sample.message "10" "", Sample.postAt Int64.MaxInt64);
        (Sample.message "10" "", Sample.postAt Int64.MaxInt64) ]
      newMemoryStorage Sample.general ∅ false Sample.world
    = Some (([1%positive; 2%positive], threads', timestamps'), w')
    ∧ createAtOf w' 1%positive = Some 9223372036854775807
    ∧ createAtOf w' 2%positive = Some (-9223372036854775808)
    ∧ ¬ (9223372036854775807 < -9223372036854775808).
Proof.
  eexists _, _, _. split; [vm_compute; reflexivity|].
  split; [vm_compute; reflexivity|]. split; [vm_compute; reflexivity|]. lia.
Qed.

Lemma creation_times_resolved_witness :
  ∃ posts threads' timestamps' w' rs,
    addPostsToThreads
      [ (Sample.message "10" "", Sample.postAt 10);
        (Sample.message "10" "10", Sample.postAt 10) ]
      newMemoryStorage Sample.general ∅ false Sample.world
    = Some ((posts, threads', timestamps'), w')
    ∧ createAtOf w' <$> posts = Some <$> rs
    ∧ NoDup rs
    ∧ ∀ ri rj, rs !! 0%nat = Some ri → rs !! 1%nat = Some rj →
        (10 <= rj → ri < rj).
Proof.
  eexists _, _, _, _.
  assert (Hrun :
    addPostsToThreads
      [ (Sample.message "10" "", Sample.postAt 10);
        (Sample.message "10" "10", Sample.postAt 10) ]
      newMemoryStorage Sample.general ∅ false Sample.world
    = Some (([1%positive; 2%positive],
             mkMemoryStorage {[ "10" := 2%positive ]},
             {[ 10 := true; 11 := true ]}),
            mkWorld {[ 1%positive := Sample.postAt 10;
                       2%positive := Sample.postAt 11 ]} ∅
              [Println "WARNING: overwriting root post for thread 10"]))
    by (vm_compute; reflexivity).
  assert (Hsz : Z.of_nat (size (∅ : gmap Z bool) + 2) < Int64.modulus)
    by (vm_compute; reflexivity).
  destruct (proj2 (creation_times_resolved (T := memoryStorage))
              [ (Sample.message "10" "", Sample.postAt 10);
                (Sample.message "10" "10", Sample.postAt 10) ]
              newMemoryStorage Sample.general ∅ false Sample.world
              _ _ _ _ Hsz Hrun)
    as (rs & Hfinal & _ & Hnd & _ & Hord).
  exists rs. split; [exact Hrun|]. split; [exact Hfinal|].
  split; [exact Hnd|].
  intros ri rj Hri Hrj Hnowrap.
  apply (Hord 0%nat 1%nat (Sample.message "10" "", Sample.postAt 10)
           (Sample.message "10" "10", Sample.postAt 10) ri rj);
    [lia|reflexivity|reflexivity|reflexivity|done|done| |done].
  vm_compute. split; discriminate.
Defined.

Lemma orphan_reply_dropped_witness :
  ∃ k w',
    AddPostToThreads (Sample.message "20" "10") 1%positive newMemoryStorage
      Sample.general ∅ false (Sample.worldWith (Sample.postAt 20))
    = Some ((newMemoryStorage, <[bumped 20 k := true]> ∅), w')
    ∧ logs w' = [PrintfRootPostNotFound (Sample.message "20" "10")].
Proof.
  destruct (orphan_reply_dropped (T := memoryStorage)
              (Sample.message "20" "10") 1%positive newMemoryStorage
              Sample.general ∅ false (Sample.postAt 20)
              (Sample.worldWith (Sample.postAt 20)))
    as (k & w' & Hrun & _ & Hlogs & _).
  - reflexivity.
  - vm_compute. reflexivity.
  - discriminate.
  - discriminate.
  - reflexivity.
  - exists k, w'. split; [exact Hrun|exact Hlogs].
Defined.

Lemma root_stored_under_own_timestamp_witness :
  ∃ k threads' w',
    AddPostToThreads (Sample.message "10" "10") 1%positive
      (mkMemoryStorage {[ "10" := 2%positive ]})
      Sample.general {[ 10 := true ]} false
      (Sample.worldWith2 (Sample.postAt 10) (Sample.postAt 10))
    = Some ((threads', <[bumped 10 k := true]> {[ 10 := true ]}), w')
    ∧ logs w' = [Println "WARNING: overwriting root post for thread 10"]
    ∧ LookupThread threads' "10" w' = Some ((Some 1%positive, threads'), w').
Proof.
  destruct (root_stored_under_own_timestamp (T := memoryStorage)
              (Sample.message "10" "10") 1%positive
              (mkMemoryStorage {[ "10" := 2%positive ]})
              Sample.general {[ 10 := true ]} false (Sample.postAt 10)
              (Sample.worldWith2 (Sample.postAt 10) (Sample.postAt 10)))
    as (k & threads' & w' & Hrun & _ & Hlogs & _ & Hlookup & _).
  - reflexivity.
  - vm_compute. reflexivity.
  - right. reflexivity.
  - exists k, threads', w'. split; [exact Hrun|].
    split; [exact Hlogs|exact Hlookup].
Defined.

Lemma workflow_reply_dropped_silently_witness :
  ∃ k timestamps' w',
    AddPostToThreads (Sample.message "20" "10") 1%positive
      (mkMemoryStorage {[ "10" := 2%positive ]})
      Sample.general {[ 10 := true ]} false
      (Sample.worldWith2 (Sample.postAt 20)
         (Sample.postBy WorkflowUserName 10))
    = Some ((mkMemoryStorage {[ "10" := 2%positive ]}, timestamps'), w')
    ∧ timestamps' !! bumped 20 k = Some true
    ∧ logs w' = [].
Proof.
  destruct (workflow_reply_dropped_silently (T := memoryStorage)
              (Sample.message "20" "10") 1%positive
              (mkMemoryStorage {[ "10" := 2%positive ]})
              Sample.general {[ 10 := true ]} (Sample.postAt 20)
              (Sample.worldWith2 (Sample.postAt 20)
                 (Sample.postBy WorkflowUserName 10))
              2%positive (mkMemoryStorage {[ "10" := 2%positive ]})
              (Sample.worldWith2 (Sample.postAt 20)
                 (Sample.postBy WorkflowUserName 10))
              (Sample.postBy WorkflowUserName 10))
    as (k & timestamps' & w' & Hrun & _ & _ & Hledger & _ & Hlogs & _).
  - reflexivity.
  - vm_compute. reflexivity.
  - discriminate.
  - discriminate.
  - reflexivity.
  - reflexivity.
  - reflexivity.
  - exists k, timestamps', w'. split; [exact Hrun|].
    split; [exact Hledger|exact Hlogs].
Defined.

(** The first subtest of [TestRedisStorage]: nothing under "11" before
    the store, the stored post after it. *)
Example store_lookup_post :
  let post := 1%positive in
  let w := mkWorld {[ post := IntermediatePost.set_Message "msg"
                                IntermediatePost.zero ]} ∅ [] in
  let storage := Sample.redisInstance in
  HasThread storage "11" w = false
  ∧ LookupThread storage "11" w = Some ((None, storage), w)
  ∧ HasThread (StoreThread storage "11" post) "11" w = true
  ∧ ∃ storage',
      LookupThread (StoreThread storage "11" post) "11" w
      = Some ((Some post, storage'), w)
      ∧ IntermediatePost.Message <$> heap w !! post = Some "msg".
Proof.
  repeat split; try (vm_compute; reflexivity).
  eexists. split; vm_compute; reflexivity.
Qed.

(** The third subtest of [TestRedisStorage]: a reply appended to the post
    a lookup returned is there at the next lookup. *)
Example post_should_retain_replies :
  let post := 1%positive in
  let w := mkWorld {[ post := IntermediatePost.set_Message "msg"
                                IntermediatePost.zero;
                      2%positive := IntermediatePost.zero ]} ∅ [] in
  let storage := StoreThread Sample.redisInstance "31" post in
  ∃ w',
    ('(found, storage) ← LookupThread storage "31";
     match found with
     | Some p =>
         modify p (λ r, IntermediatePost.set_Replies
                          (IntermediatePost.Replies r ++ [2%positive]) r);;
         '(again, _) ← LookupThread storage "31";
         mret (again = Some post)
     | None => mret False
     end) w = Some (Some post = Some post, w')
    ∧ (length ∘ IntermediatePost.Replies) <$> heap w !! post = Some 0%nat
    ∧ (length ∘ IntermediatePost.Replies) <$> heap w' !! post = Some 1%nat.
Proof.
  eexists. repeat split; vm_compute; reflexivity.
Qed.

(** The second subtest of [TestRedisStorage]: an instance opened on a
    backend that holds threads "21" and "22" looks up "21"; one post is
    changed. *)
Example lookup_post_from_another_storage :
  ∃ s' w',
    runOps [OpLookupThread "21"]
      Sample.redisInstance ∅ Sample.worldWithBackend
    = Some ((s', {[ "21" ]}), w')
    ∧ length (GetChangedThreads s') = 1%nat
    ∧ HasThread s' "22" w' = true.
Proof. eexists _, _. repeat split; vm_compute; reflexivity. Qed.

Lemma store_then_lookup_witness :
  ∃ s' touched w',
    runOps [OpStoreThread "11" 1%positive; OpLookupThread "21"]
      Sample.redisInstance ∅ Sample.worldWithBackend
    = Some ((s', touched), w')
    ∧ HasThread s' "33" w' = false
    ∧ LookupThread s' "33" w' = Some ((None, s'), w').
Proof.
  destruct (proj2 store_then_lookup Sample.redisInstance
              [OpStoreThread "11" 1%positive; OpLookupThread "21"] "33"
              Sample.worldWithBackend)
    as (s' & touched & w' & Hrun & Hmiss).
  - reflexivity.
  - reflexivity.
  - exists s', touched, w'. split; [exact Hrun|]. apply Hmiss.
    vm_compute in Hrun. injection Hrun as <- <- <-.
    apply (bool_decide_unpack _). vm_compute. exact I.
Defined.

Lemma lookup_returns_live_reference_witness :
  ∃ root s1 w2 v2,
    LookupThread s1 "21" w2 = Some ((Some root, s1), w2)
    ∧ heap w2 !! root = Some v2
    ∧ IntermediatePost.Replies v2 = [1%positive; 9%positive]
    ∧ root ∈ GetChangedThreads s1.
Proof.
  assert (Hlookup :
    LookupThread Sample.redisInstance "21" Sample.worldWithBackend
    = Some ((Some 2%positive,
             RedisStorage (mkRedisStorage "general" {[ "21" := 2%positive ]})),
            mkWorld {[ 1%positive := Sample.postAt 25;
                       2%positive := IntermediatePost.set_Replies
                                       [1%positive] (Sample.postAt 21) ]}
              Sample.backend []))
    by (vm_compute; reflexivity).
  destruct (lookup_returns_live_reference _ _ _ _ _ _
              (IntermediatePost.set_Replies [1%positive] (Sample.postAt 21))
              Hlookup) as [Hlive _].
  - reflexivity.
  - destruct (Hlive 9%positive) as (_ & Hagain & Hheap & Hchanged).
    eexists _, _, _, _. split; [exact Hagain|].
    split; [exact Hheap|]. split; [reflexivity|exact Hchanged].
Defined.

Lemma changed_threads_are_the_touched_witness :
  ∃ s' w',
    runOps [OpLookupThread "21"; OpLookupThread "99"] Sample.redisInstance ∅
      Sample.worldWithBackend
    = Some ((s', {[ "21" ]}), w')
    ∧ length (GetChangedThreads s') = 1%nat
    ∧ localThreads s' !! "22" = None
    ∧ is_Some (redis w' !! "general:22").
Proof.
  destruct (changed_threads_are_the_touched Sample.redisInstance
              [OpLookupThread "21"; OpLookupThread "99"]
              Sample.worldWithBackend)
    as (s' & touched & w' & Hrun & Hredis & Hlen & _ & Hnot).
  - reflexivity.
  - assert (touched = {[ "21" ]}) as ->.
    { pose proof Hrun as Hrun'. vm_compute in Hrun'.
      injection Hrun' as _ <- _. vm_compute. reflexivity. }
    exists s', w'. split; [exact Hrun|]. split; [exact Hlen|].
    split.
    + apply Hnot. apply (bool_decide_unpack _). vm_compute. exact I.
    + rewrite Hredis. by eexists.
Defined.

(** C8 as stated fails: a bot message with oversized props, with
    discard-invalid-props off, while workflow messages are not imported.
    The message is not kept: nothing is stored, nothing is recorded in the
    ledger, no post is built and no warning is logged. *)
Lemma bot_message_dropped_before_props :
  IsBotMessage (Env := Sample.env) Sample.botWithAttachment = true
  ∧ (PostPropsMaxRunes (Env := Sample.env)
     < Utf8.RuneCountInString
         (marshalProps (SlackPost.Attachments Sample.botWithAttachment)))%nat
  ∧ DiscardInvalidProps (Sample.config false false) = false
  ∧ transformPost (H := Sample.env) (Sample.config false false) ∅
      Sample.general Sample.botWithAttachment Sample.users newMemoryStorage ∅
      Sample.world
    = Some ((Sample.users, newMemoryStorage, ∅), Sample.world).
Proof.
  split; [reflexivity|]. split; [vm_compute; lia|].
  split; [reflexivity|]. vm_compute. reflexivity.
Qed.

Lemma attachments_props_policy_witness :
  ∃ newPost users' w1,
    transformPost (H := Sample.env) (Sample.config true false) ∅
      Sample.general Sample.plainWithAttachment Sample.users
      newMemoryStorage ∅ Sample.world
    = Some ((users', newMemoryStorage, ∅),
            add_log (Logger Warn "Unable import post as props exceed the maximum character count. Skipping as --discard-invalid-props is enabled.") w1)
    ∧ heap Sample.world !! newPost = None
    ∧ is_Some (heap w1 !! newPost).
Proof.
  destruct (attachments_props_policy (H := Sample.env) (T := memoryStorage)
              (Sample.config true false) ∅ Sample.general
              Sample.plainWithAttachment Sample.users newMemoryStorage ∅
              Sample.world)
    as (newPost & users' & w1 & v & Hnew & Hv & _ & _ & _ & Hdiscard).
  - left. split; [reflexivity|]. split; [discriminate|].
    exists (Sample.user "U1" "alice"). reflexivity.
  - discriminate.
  - vm_compute. reflexivity.
  - exists newPost, users', w1. split; [|split; [exact Hnew|by eexists]].
    apply Hdiscard; [vm_compute; lia|reflexivity].
Defined.

Lemma small_channels_skipped_big_groups_private_witness :
  (∃ w', TransformChannels (H := Sample.env) Sample.users
           [Sample.lonelyDirect] Sample.world = Some ([], w'))
  ∧ ∃ newChannel w1,
      TransformChannels (H := Sample.env) Sample.users [Sample.bigGroup]
        Sample.world = Some ([newChannel], w1)
      ∧ IntermediateChannel.Type_ newChannel = ChannelTypePrivate.
Proof.
  destruct (small_channels_skipped_big_groups_private (H := Sample.env)
              Sample.users) as [Hsmall Hbig].
  split.
  - destruct (Hsmall Sample.lonelyDirect [] [] Sample.world) as [_ Hnone].
    + left. reflexivity.
    + vm_compute. lia.
    + exact Hnone.
  - destruct (Hbig Sample.bigGroup [] [] Sample.world)
      as (newChannel & w1 & _ & Hty & _ & Hrun).
    + vm_compute. lia.
    + reflexivity.
    + vm_compute. lia.
    + exists newChannel, w1. split; [exact Hrun|exact Hty].
Defined.

(** ** Sanitising posts, users and channels *)


Lemma takeRunes_fits n s :
  (Utf8.RuneCountInString s <= n)%nat → Utf8.takeRunes n s = s.
Proof.
  revert n. induction s as [|b r IH]; intros n; [done|].
  cbn [Utf8.takeRunes Utf8.RuneCountInString].
  destruct (Utf8.is_continuation b).
  - intros Hn. rewrite IH; [done|]. simpl in Hn. lia.
  - destruct n as [|m]; [simpl; lia|].
    intros Hn. rewrite IH; [done|]. simpl in Hn. lia.
Qed.


Lemma length_substring_0 n s :
  (n <= String.length s)%nat → String.length (substring 0 n s) = n.
Proof.
  revert n. induction s as [|b r IH]; intros [|n] Hn; simpl in *;
    [done|lia|done|].
  rewrite IH; [done|lia].
Qed.



(** Runs a computation that only logs and returns. *)
Ltac run_logs :=
  unfold returns; cbv beta iota delta [mbind M_bind mret M_ret logf];
  eexists _, _; split; [reflexivity|].

Section sanitise.
Context `{Env}.

Lemma IntermediateUser_Sanitise_spec u w :
  returns (IntermediateUser_Sanitise u) w
    (λ u' w', sanitisedFrom u u' ∧ heap w' = heap w ∧ redis w' = redis w).
Proof.
  unfold IntermediateUser_Sanitise, sanitisedFrom.
  destruct u as [id username first last position email password memberships
                 authData authService].
  cbn [IntermediateUser.Email IntermediateUser.Position
       IntermediateUser.FirstName IntermediateUser.LastName
       IntermediateUser.Username IntermediateUser.set_Email].
  unfold returns.
  repeat first [case_decide
               |progress cbv beta iota delta [mbind M_bind mret M_ret logf]];
    (eexists _, _; split; [reflexivity|]); done.
Qed.

Lemma append_not_empty (s t : string) : t ≠ "" → s +:+ t ≠ "".
Proof. destruct s; [done|]. intros _. discriminate. Qed.


(** X4.  [selectOrCreateWorkflowUser] returns the user registered under
    "importedworkflow", creating it when there is none: every other user
    is left alone, an existing workflow user is returned as it is without
    a log line, a created one has the workflow username, and a second call
    returns the same user and changes nothing. *)
Theorem workflow_user_created_once users w :
  returns (selectOrCreateWorkflowUser users) w (λ '(u, users') w',
    heap w' = heap w ∧ redis w' = redis w
    ∧ users' !! "importedworkflow" = Some u
    ∧ (∀ k, k ≠ "importedworkflow" → users' !! k = users !! k)
    ∧ (∀ existing, users !! "importedworkflow" = Some existing →
       u = existing ∧ users' = users ∧ w' = w)
    ∧ (users !! "importedworkflow" = None →
       IntermediateUser.Id u = "importedworkflow"
       ∧ IntermediateUser.Username u = WorkflowUserName
       ∧ IntermediateUser.Email u = "imported-workflow@tinkoff.ru"
       ∧ IntermediateUser.Password u = NewId)
    ∧ ∀ w2, selectOrCreateWorkflowUser users' w2 = Some ((u, users'), w2)).
Proof.
  unfold selectOrCreateWorkflowUser at 1.
  destruct (users !! "importedworkflow") as [existing|] eqn:Hex.
  - apply returns_ret. split; [done|]. split; [done|]. split; [done|].
    split; [done|]. split; [by intros ? [= <-]|]. split; [done|].
    intros w2. unfold selectOrCreateWorkflowUser. by rewrite Hex.
  - eapply returns_bind; [apply IntermediateUser_Sanitise_spec|].
    intros u w' ((Hid & Hname & Hpw & _ & _ & _ & Hemail & _) & Hheap & Hredis).
    apply returns_ret. split; [done|]. split; [done|].
    split; [apply lookup_insert_eq|].
    split; [by intros k Hk; rewrite lookup_insert_ne|].
    split; [done|]. split; [done|].
    intros w2. unfold selectOrCreateWorkflowUser.
    by rewrite lookup_insert_eq.
Qed.

Lemma length_append (s t : string) :
  String.length (s +:+ t) = (String.length s + String.length t)%nat.
Proof. induction s as [|a s IH]; simpl; [done|]. by rewrite IH. Qed.

(** The shape of what [IntermediateChannel.Sanitise] returns: the channel
    with a handle, a display name, a purpose and a header of its
    choosing. *)
Lemma IntermediateChannel_Sanitise_shape c w :
  returns (IntermediateChannel_Sanitise c) w (λ c' w',
    heap w' = heap w ∧ redis w' = redis w
    ∧ (IntermediateChannel.Type_ c = ChannelTypeDirect → c' = c ∧ w' = w)
    ∧ ∃ name displayName purpose header,
        c' = IntermediateChannel.mk (IntermediateChannel.Id c)
               (IntermediateChannel.OriginalName c) name displayName
               (IntermediateChannel.Members c)
               (IntermediateChannel.MembersUsernames c) purpose header
               (IntermediateChannel.Topic c) (IntermediateChannel.Type_ c)
        ∧ (IntermediateChannel.Type_ c ≠ ChannelTypeDirect →
           (name = ToLower (IntermediateChannel.Id c)
            ∨ (isValidChannelNameCharacters name = true
               ∧ String.length name ≠ 1%nat
               ∧ (String.length name
                  <= Nat.max ChannelNameMaxLength 15)%nat))
           ∧ String.length displayName ≠ 1%nat)).
Proof.
  unfold IntermediateChannel_Sanitise.
  destruct (decide (IntermediateChannel.Type_ c = ChannelTypeDirect)) as [Hd|Hd].
  { apply returns_ret. do 3 (split; [done|]).
    exists (IntermediateChannel.Name c), (IntermediateChannel.DisplayName c),
      (IntermediateChannel.Purpose c), (IntermediateChannel.Header c).
    split; [by destruct c|done]. }
  set (trimmed := Strings.Trim (IntermediateChannel.Name c) "_-").
  set (cut := if decide (ChannelNameMaxLength < String.length trimmed)%nat
              then substring 0 ChannelNameMaxLength trimmed else trimmed).
  assert (Hcut : (String.length cut <= ChannelNameMaxLength)%nat).
  { unfold cut. case_decide; [|lia]. rewrite length_substring_0; lia. }
  (* the handle is cut *)
  eapply (returns_bind _ _ _
            (λ c0 w', c0 = IntermediateChannel.set_Name cut c
                      ∧ heap w' = heap w ∧ redis w' = redis w)).
  { cbn [IntermediateChannel.Name IntermediateChannel.set_Name].
    fold trimmed. unfold cut.
    destruct (decide (ChannelNameMaxLength < String.length trimmed)%nat);
      by run_logs. }
  intros c0 w1 (-> & Hh1 & Hr1).
  cbn [IntermediateChannel.Name IntermediateChannel.set_Name
       IntermediateChannel.Id IntermediateChannel.DisplayName].
  set (named := if decide (String.length cut = 1%nat)
                then "slack-channel-" +:+ cut else cut).
  assert (Hnamed : String.length named ≠ 1%nat
                   ∧ (String.length named <= Nat.max ChannelNameMaxLength 15)%nat).
  { unfold named. case_decide as H1; [|lia].
    rewrite length_append, H1. simpl. lia. }
  set (handle := if isValidChannelNameCharacters named then named
                 else ToLower (IntermediateChannel.Id c)).
  assert (Hhandle : handle = ToLower (IntermediateChannel.Id c)
                    ∨ (isValidChannelNameCharacters handle = true
                       ∧ String.length handle ≠ 1%nat
                       ∧ (String.length handle
                          <= Nat.max ChannelNameMaxLength 15)%nat)).
  { unfold handle. destruct (isValidChannelNameCharacters named) eqn:Hv;
      [right|left]; done. }
  set (c2 := if decide (String.length cut = 1%nat)
             then IntermediateChannel.set_Name ("slack-channel-" +:+ cut)
                    (IntermediateChannel.set_Name cut c)
             else IntermediateChannel.set_Name cut c).
  assert (c2 = IntermediateChannel.set_Name named c) as ->
    by (unfold c2, named; by case_decide).
  cbn [IntermediateChannel.Name IntermediateChannel.set_Name
       IntermediateChannel.Id].
  set (c3 := if isValidChannelNameCharacters named then _ else _).
  assert (c3 = IntermediateChannel.set_Name handle c) as ->
    by (unfold c3, handle; by destruct (isValidChannelNameCharacters named)).
  clearbody handle. clear Hnamed named Hcut cut trimmed.
  cbn [IntermediateChannel.DisplayName IntermediateChannel.set_DisplayName
       IntermediateChannel.set_Name].
  set (K := λ (c0 : IntermediateChannel.t) (d : string),
         ∃ purpose header,
           c0 = IntermediateChannel.mk (IntermediateChannel.Id c)
                  (IntermediateChannel.OriginalName c) handle d
                  (IntermediateChannel.Members c)
                  (IntermediateChannel.MembersUsernames c) purpose header
                  (IntermediateChannel.Topic c) (IntermediateChannel.Type_ c)).
  (* the display name is cut *)
  eapply (returns_bind _ _ _
            (λ c0 w', (∃ d, K c0 d) ∧ heap w' = heap w ∧ redis w' = redis w)).
  { case_decide; run_logs; (split; [|done]); by eexists _, _, _. }
  intros c0 w2 ([d0 Hk0] & Hh2 & Hr2).
  set (c6 := if decide (String.length (IntermediateChannel.DisplayName c0)
                        = 1%nat)
             then _ else c0).
  assert (Hk6 : ∃ d, K c6 d ∧ String.length d ≠ 1%nat).
  { destruct Hk0 as (p0 & h0 & ->). unfold c6.
    cbn [IntermediateChannel.DisplayName].
    destruct (decide (String.length d0 = 1%nat)) as [H1|H1].
    - exists ("slack-channel-" +:+ d0). split; [by eexists _, _|].
      rewrite length_append, H1. simpl. lia.
    - exists d0. split; [by eexists _, _|done]. }
  clearbody c6. destruct Hk6 as (d & Hk6 & Hd6). clear Hk0 d0 c0.
  (* the purpose is cut *)
  eapply (returns_bind _ _ _
            (λ c7 w', K c7 d ∧ heap w' = heap w ∧ redis w' = redis w)).
  { destruct Hk6 as (p6 & h6 & ->).
    case_decide; run_logs; (split; [|done]); by eexists _, _. }
  intros c7 w3 (Hk7 & Hh3 & Hr3).
  (* the header is cut *)
  destruct Hk7 as (p7 & h7 & ->).
  case_decide; run_logs; (do 3 (split; [done|])); by eexists _, _, _, _.
Qed.

(** X3.  [IntermediateChannel.Sanitise] leaves a direct channel exactly
    as it is and logs nothing.  Of any other channel it keeps the id, the
    original name, the members, the topic and the type; the handle it
    leaves is the lowercased id, or passes
    [isValidChannelNameCharacters], is not one byte long and is no longer
    than the larger of the maximum and 15 bytes (the length of
    "slack-channel-" and one more byte); the display name it leaves is
    not one byte long. *)
Theorem sanitised_channel_handle c w :
  returns (IntermediateChannel_Sanitise c) w (λ c' w',
    heap w' = heap w ∧ redis w' = redis w
    ∧ IntermediateChannel.Id c' = IntermediateChannel.Id c
    ∧ IntermediateChannel.OriginalName c' = IntermediateChannel.OriginalName c
    ∧ IntermediateChannel.Members c' = IntermediateChannel.Members c
    ∧ IntermediateChannel.MembersUsernames c'
      = IntermediateChannel.MembersUsernames c
    ∧ IntermediateChannel.Topic c' = IntermediateChannel.Topic c
    ∧ IntermediateChannel.Type_ c' = IntermediateChannel.Type_ c
    ∧ (IntermediateChannel.Type_ c = ChannelTypeDirect → c' = c ∧ w' = w)
    ∧ (IntermediateChannel.Type_ c ≠ ChannelTypeDirect →
       (IntermediateChannel.Name c' = ToLower (IntermediateChannel.Id c)
        ∨ (isValidChannelNameCharacters (IntermediateChannel.Name c') = true
           ∧ String.length (IntermediateChannel.Name c') ≠ 1%nat
           ∧ (String.length (IntermediateChannel.Name c')
              <= Nat.max ChannelNameMaxLength 15)%nat))
       ∧ String.length (IntermediateChannel.DisplayName c') ≠ 1%nat)).
Proof.
  destruct (IntermediateChannel_Sanitise_shape c w)
    as (c' & w' & Hrun & Hh & Hr & Hdirect & n & d & p & h & -> & Hrest).
  eexists _, w'. split; [exact Hrun|]. by do 9 (split; [done|]).
Qed.

End sanitise.

(** ** Channels: what [TransformChannels] keeps and what it builds *)

Section channels_more.
Context `{Env}.

Lemma filterValidMembers_filter members (users : gmap string IntermediateUser.t) :
  filterValidMembers members users
  = filter (λ member, is_Some (users !! member)) members.
Proof.
  induction members as [|member rest IH]; [done|].
  cbn [filterValidMembers]. rewrite filter_cons.
  destruct (users !! member) as [u|] eqn:E.
  - rewrite decide_True by (by eexists). by rewrite IH.
  - rewrite decide_False by (by intros [? ?]). done.
Qed.

(** The loop of [TransformChannels]: the channels that are not skipped,
    each transformed, are appended in order. *)
Lemma transformChannelsFrom_spec users channels : ∀ resultChannels w,
  returns (transformChannelsFrom users channels resultChannels) w
    (λ result w',
       heap w' = heap w ∧ redis w' = redis w
       ∧ ∃ news, result = (resultChannels ++ news)%list
           ∧ Forall2 (transformedFrom users)
               (filter (λ c, skipped users c = false) channels) news).
Proof.
  induction channels as [|channel rest IH]; intros resultChannels w.
  - apply returns_ret. split; [done|]. split; [done|].
    exists []. split; [by rewrite app_nil_r|constructor].
  - cbn [transformChannelsFrom]. rewrite filter_cons.
    fold (skipped users channel).
    destruct (skipped users channel) eqn:Hskip.
    + rewrite decide_False by done.
      eapply (returns_bind _ _ _
                (λ _ w', heap w' = heap w ∧ redis w' = redis w));
        [by run_logs|].
      intros [] w1 [Hh1 Hr1].
      destruct (IH resultChannels w1) as (res & w2 & Hrun & Hh2 & Hr2 & Hnews).
      exists res, w2. split; [done|]. split; [congruence|].
      split; [congruence|done].
    + rewrite decide_True by done.
      fold (oversized users channel).
      set (channel' := if oversized users channel then _ else channel).
      eapply returns_bind; [apply IntermediateChannel_Sanitise_shape|].
      intros newChannel w1 (Hh1 & Hr1 & _ & n & d & p & h & -> & _).
      cbn [IntermediateChannel.Id IntermediateChannel.OriginalName
           IntermediateChannel.Members IntermediateChannel.MembersUsernames
           IntermediateChannel.Topic IntermediateChannel.Type_].
      match goal with
      | |- returns (transformChannelsFrom _ _ (_ ++ [?c])) _ _ =>
          set (newChannel := c)
      end.
      destruct (IH (resultChannels ++ [newChannel])%list w1)
        as (res & w2 & Hrun & Hh2 & Hr2 & news & -> & Hnews).
      exists (((resultChannels ++ [newChannel]) ++ news)%list), w2.
      split; [done|]. split; [congruence|]. split; [congruence|].
      exists (newChannel :: news). split; [by rewrite <- app_assoc|].
      constructor; [|done].
      unfold transformedFrom, newChannel, channel'.
      cbn [IntermediateChannel.Id IntermediateChannel.OriginalName
           IntermediateChannel.Members IntermediateChannel.MembersUsernames
           IntermediateChannel.Topic IntermediateChannel.Type_].
      split; [done|]. split; [done|]. split; [done|].
      split; [by destruct (oversized users channel);
              rewrite <- filterValidMembers_filter|].
      split; [by destruct (oversized users channel)|].
      by destruct (oversized users channel).
Qed.

Lemma Forall2_Forall_kept {A B} (R : A → B → Prop) (P : A → Prop)
    `{∀ x, Decision (P x)} (Q : B → Prop) (l : list A) (k : list B) :
  (∀ x y, P x → R x y → Q y) → Forall2 R (filter P l) k → Forall Q k.
Proof.
  intros HQ. revert k. induction l as [|x l IH]; intros k.
  - intros Hk. apply Forall2_nil_inv_l in Hk as ->. constructor.
  - rewrite filter_cons. destruct (decide (P x)) as [Hx|Hx]; [|apply IH].
    intros Hk. apply Forall2_cons_inv_l in Hk as (y & k' & Hy & Hk' & ->).
    constructor; [by eapply HQ|by apply IH].
Qed.

Lemma transformedFrom_membersKnown users channel c :
  skipped users channel = false → transformedFrom users channel c →
  membersKnown users c.
Proof.
  intros Hkept (_ & _ & _ & Hmembers & Htype & _).
  unfold skipped in Hkept. rewrite filterValidMembers_filter in Hkept.
  split.
  - rewrite Hmembers. apply Forall_forall. intros member Hin.
    by apply list_elem_of_filter in Hin as [? _].
  - intros Hdg. destruct (oversized users channel).
    + rewrite Htype in Hdg. by destruct Hdg.
    + rewrite Htype in Hdg. rewrite Hmembers.
      rewrite bool_decide_eq_true_2 in Hkept by done.
      apply bool_decide_eq_false in Hkept. lia.
Qed.

Lemma TransformChannels_membersKnown users channels w :
  returns (TransformChannels users channels) w (λ result w',
    heap w' = heap w ∧ redis w' = redis w
    ∧ Forall (membersKnown users) result).
Proof.
  destruct (transformChannelsFrom_spec users channels [] w)
    as (result & w' & Hrun & Hh & Hr & news & -> & Hnews).
  exists ([] ++ news)%list, w'. split; [exact Hrun|].
  split; [done|]. split; [done|]. rewrite app_nil_l.
  eapply Forall2_Forall_kept; [|exact Hnews].
  intros channel c Hkept Hc. cbv beta in Hkept.
  by apply (transformedFrom_membersKnown users channel).
Qed.

(** X5.  What [TransformChannels] guarantees of every channel it returns:
    its members are known users; a direct or group channel has at least
    two of them, and a group channel no more than the group maximum; its
    id and its members' usernames are not set.  No more channels come out
    than went in, and only the log changes. *)
Theorem transformed_channels_member_bounds users channels w :
  returns (TransformChannels users channels) w (λ result w',
    heap w' = heap w ∧ redis w' = redis w
    ∧ (length result <= length channels)%nat
    ∧ Forall (λ c,
        Forall (λ member, is_Some (users !! member))
          (IntermediateChannel.Members c)
        ∧ (IntermediateChannel.Type_ c = ChannelTypeDirect
           ∨ IntermediateChannel.Type_ c = ChannelTypeGroup →
           (2 <= length (IntermediateChannel.Members c))%nat)
        ∧ (IntermediateChannel.Type_ c = ChannelTypeGroup →
           (length (IntermediateChannel.Members c)
            <= ChannelGroupMaxUsers)%nat)
        ∧ IntermediateChannel.Id c = ""
        ∧ IntermediateChannel.MembersUsernames c = []) result).
Proof.
  destruct (transformChannelsFrom_spec users channels [] w)
    as (result & w' & Hrun & Hh & Hr & news & -> & Hnews).
  exists ([] ++ news)%list, w'. split; [exact Hrun|].
  split; [done|]. split; [done|]. rewrite app_nil_l. split.
  { rewrite <- (Forall2_length _ _ _ Hnews). apply length_filter. }
  eapply Forall2_Forall_kept; [|exact Hnews].
  intros channel c Hkept (Hid & Hnames & _ & Hmembers & Htype & _).
  cbv beta in Hkept. unfold skipped in Hkept.
  rewrite filterValidMembers_filter in Hkept.
  assert (Hbig : oversized users channel = true →
                 IntermediateChannel.Type_ c = ChannelTypePrivate)
    by (by intros E; rewrite E in Htype).
  assert (Hsmall : oversized users channel = false →
                   IntermediateChannel.Type_ c = SlackChannel.Type_ channel)
    by (by intros E; rewrite E in Htype).
  split; [|split; [|split; [|done]]].
  - rewrite Hmembers. apply Forall_forall. intros member Hin.
    by apply list_elem_of_filter in Hin as [? _].
  - intros Hdg. destruct (oversized users channel) eqn:Hover.
    + rewrite Hbig in Hdg by done. by destruct Hdg.
    + rewrite Hsmall in Hdg by done. rewrite Hmembers.
      rewrite bool_decide_eq_true_2 in Hkept by done.
      apply bool_decide_eq_false in Hkept. lia.
  - intros Hg. destruct (oversized users channel) eqn:Hover.
    + by rewrite Hbig in Hg.
    + rewrite Hsmall in Hg by done. rewrite Hmembers.
      unfold oversized in Hover.
      rewrite filterValidMembers_filter in Hover.
      rewrite bool_decide_eq_true_2 in Hover by done.
      apply bool_decide_eq_false in Hover. lia.
Qed.

(** X6.  [TransformChannels] returns, in the order of its input, one
    channel for each input channel that is not a direct or group channel
    with at most one known member.  The channel built keeps the known
    members in their order; its type is the input's, or private for a
    group with more known members than the group maximum; its original
    name is the input's name (its id when the name is empty), or for such
    a group its purpose (its id when the purpose is empty). *)
Theorem kept_channels_in_order users channels w :
  returns (TransformChannels users channels) w (λ result w',
    Forall2 (transformedFrom users)
      (filter (λ channel, skipped users channel = false) channels) result).
Proof.
  destruct (transformChannelsFrom_spec users channels [] w)
    as (result & w' & Hrun & Hh & Hr & news & -> & Hnews).
  by exists ([] ++ news)%list, w'.
Qed.

End channels_more.

(** ** Users and memberships *)

Section users.
Context `{Env} `{Helpers}.

(** The loop of [TransformUsers]: for every id, the entry of the last
    user of the list with that id, or the entry the map had. *)
Lemma transformUsersFrom_spec authDataAsEmail authService users :
  ∀ resultUsers w,
  returns (transformUsersFrom users authDataAsEmail authService resultUsers) w
    (λ result w',
       heap w' = heap w ∧ redis w' = redis w
       ∧ ∀ id,
           match last (filter (λ user, SlackUser.Id user = id) users) with
           | Some user =>
               ∃ u', result !! id = Some u'
                     ∧ importedFrom authDataAsEmail authService user u'
           | None => result !! id = resultUsers !! id
           end).
Proof.
  induction users as [|user rest IH]; intros resultUsers w.
  - apply returns_ret. by repeat split.
  - cbn [transformUsersFrom].
    eapply returns_bind; [apply IntermediateUser_Sanitise_spec|].
    intros u w1 (Hsan & Hh1 & Hr1).
    set (newUser := if authDataAsEmail && bool_decide (authService ≠ "")
                    then IntermediateUser_set_Auth authService u else u).
    assert (Hnew : importedFrom authDataAsEmail authService user newUser).
    { destruct Hsan as (Hid & Hname & Hpw & Hms & Had & Has & Hemail & _).
      cbn in Hid, Hname, Hpw, Hms, Had, Has, Hemail.
      unfold importedFrom, newUser.
      destruct (authDataAsEmail && bool_decide (authService ≠ ""));
        cbn; by repeat split. }
    eapply (returns_bind _ _ _
              (λ _ w', heap w' = heap w ∧ redis w' = redis w));
      [run_logs; split; simpl; congruence|].
    intros [] w2 [Hh2 Hr2].
    destruct (IH (<[IntermediateUser.Id newUser := newUser]> resultUsers) w2)
      as (result & w3 & Hrun & Hh3 & Hr3 & Hres).
    exists result, w3. split; [done|]. split; [congruence|].
    split; [congruence|].
    intros id. specialize (Hres id). rewrite filter_cons.
    destruct (decide (SlackUser.Id user = id)) as [Hid|Hid].
    + rewrite last_cons.
      destruct (last (filter (λ user0, SlackUser.Id user0 = id) rest));
        [done|].
      exists newUser. split; [|done]. rewrite Hres.
      destruct Hnew as [-> _]. rewrite Hid. apply lookup_insert_eq.
    + destruct (last (filter (λ user0, SlackUser.Id user0 = id) rest));
        [done|].
      rewrite Hres. apply lookup_insert_ne.
      destruct Hnew as [-> _]. done.
Qed.

(** X7.  [TransformUsers] replaces the users of the transformer by those
    of the export, keyed by id: when several users share an id the last
    one wins, and an id that no user of the export has is not in the map,
    whatever was there before.  A user comes with its id and username, a
    non-empty email (its own or the placeholder), no password and no
    memberships; its auth data is its email and its auth service the
    given one exactly when auth-data-as-email is on and the service is
    not empty.  The channels, the posts and the factory stay as they
    were. *)
Theorem transformed_users_last_wins users authDataAsEmail authService t w :
  returns (TransformUsers users authDataAsEmail authService t) w (λ t' w',
    heap w' = heap w ∧ redis w' = redis w
    ∧ Transformer.redisFactory_ t' = Transformer.redisFactory_ t
    ∧ Transformer.Intermediate t'
      = Intermediate.set_UsersById
          (Intermediate.UsersById (Transformer.Intermediate t'))
          (Transformer.Intermediate t)
    ∧ ∀ id,
        match last (filter (λ user, SlackUser.Id user = id) users) with
        | Some user =>
            ∃ u', Intermediate.UsersById (Transformer.Intermediate t') !! id
                  = Some u'
                  ∧ importedFrom authDataAsEmail authService user u'
                  ∧ IntermediateUser.Email u' ≠ ""
        | None =>
            Intermediate.UsersById (Transformer.Intermediate t') !! id = None
        end).
Proof.
  unfold TransformUsers.
  eapply (returns_bind _ _ _
            (λ _ w', heap w' = heap w ∧ redis w' = redis w));
    [by run_logs|].
  intros [] w1 [Hh1 Hr1].
  eapply returns_bind; [apply transformUsersFrom_spec|].
  intros result w2 (Hh2 & Hr2 & Hres).
  apply returns_ret. split; [congruence|]. split; [congruence|].
  split; [done|]. split; [done|].
  intros id. specialize (Hres id). cbn.
  destruct (last (filter (λ user, SlackUser.Id user = id) users)) as [user|];
    [|by rewrite Hres].
  destruct Hres as (u' & Hu' & Himp). exists u'. split; [done|].
  split; [done|].
  destruct Himp as (_ & _ & -> & _).
  case_decide as Hemail; [by apply append_not_empty|done].
Qed.

Lemma appendIfMember_spec userId channelName members memberships :
  appendIfMember userId channelName members memberships
  = (memberships
     ++ if decide (userId ∈ members) then [channelName] else [])%list.
Proof.
  induction members as [|memberId rest IH]; cbn [appendIfMember].
  - rewrite decide_False by apply not_elem_of_nil. by rewrite app_nil_r.
  - destruct (decide (userId = memberId)) as [->|Hne].
    + by rewrite decide_True by apply list_elem_of_here.
    + rewrite IH. destruct (decide (userId ∈ rest)) as [Hin|Hin].
      * by rewrite decide_True by (by apply list_elem_of_further).
      * rewrite decide_False; [done|].
        intros [?|?]%elem_of_cons; done.
Qed.

Lemma appendMemberships_spec userId channels : ∀ memberships,
  appendMemberships userId channels memberships
  = (memberships
     ++ (IntermediateChannel.Name
         <$> filter (λ channel, userId ∈ IntermediateChannel.Members channel)
               channels))%list.
Proof.
  induction channels as [|channel rest IH]; intros memberships;
    cbn [appendMemberships].
  - by rewrite app_nil_r.
  - rewrite IH, appendIfMember_spec, filter_cons.
    destruct (decide (userId ∈ IntermediateChannel.Members channel)).
    + by rewrite <- app_assoc.
    + by rewrite app_nil_r.
Qed.

(** X8.  [PopulateUserMemberships] gives every user, as memberships, the
    handles of the public channels that list the user's id among their
    members, in order, followed by those of the private channels; a
    channel counts once however often it lists the id, and group and
    direct channels never count.  What the user had as memberships is
    replaced; no user is added or removed, and nothing else changes but
    one line of the log. *)
Theorem user_memberships_public_then_private t w :
  ∃ t',
    PopulateUserMemberships t w
    = Some (t', add_log (Logger Info "Populating user memberships") w)
    ∧ Transformer.redisFactory_ t' = Transformer.redisFactory_ t
    ∧ Transformer.Intermediate t'
      = Intermediate.set_UsersById
          (Intermediate.UsersById (Transformer.Intermediate t'))
          (Transformer.Intermediate t)
    ∧ ∀ userId,
        Intermediate.UsersById (Transformer.Intermediate t') !! userId
        = IntermediateUser_set_Memberships
            (IntermediateChannel.Name
             <$> filter (λ channel,
                           userId ∈ IntermediateChannel.Members channel)
                   (Intermediate.PublicChannels (Transformer.Intermediate t)
                    ++ Intermediate.PrivateChannels
                         (Transformer.Intermediate t))%list)
          <$> Intermediate.UsersById (Transformer.Intermediate t) !! userId.
Proof.
  unfold PopulateUserMemberships.
  cbv beta iota zeta delta [mbind M_bind mret M_ret logf].
  eexists. split; [reflexivity|]. split; [done|]. split; [done|].
  intros userId. cbn. rewrite map_lookup_imap.
  destruct (Intermediate.UsersById (Transformer.Intermediate t) !! userId)
    as [user|]; [|done].
  cbn. rewrite !appendMemberships_spec, filter_app, fmap_app. done.
Qed.

Lemma appendUsernames_spec members (users : gmap string IntermediateUser.t) :
  ∀ usernames,
  appendUsernames members users usernames
  = (usernames
     ++ omap (λ memberId, IntermediateUser.Username <$> users !! memberId)
          members)%list.
Proof.
  induction members as [|memberId rest IH]; intros usernames;
    cbn [appendUsernames omap list_omap].
  - by rewrite app_nil_r.
  - destruct (users !! memberId) as [user|]; cbn.
    + by rewrite IH, <- app_assoc.
    + by rewrite IH.
Qed.

(** X9.  [PopulateChannelMemberships] sets, on every channel of the
    group and of the direct list, the usernames of the members that are
    known users, in the order of the members; a member that is not a
    known user is left out without a word.  The public and private
    channels, the users and the posts are not touched, and one line is
    logged. *)
Theorem channel_member_usernames_of_known_members t w :
  ∃ t',
    PopulateChannelMemberships t w
    = Some (t', add_log (Logger Info "Populating channel memberships") w)
    ∧ Transformer.redisFactory_ t' = Transformer.redisFactory_ t
    ∧ (let i := Transformer.Intermediate t in
       let i' := Transformer.Intermediate t' in
       let usernames channel :=
         omap (λ memberId,
                 IntermediateUser.Username
                 <$> Intermediate.UsersById i !! memberId)
           (IntermediateChannel.Members channel) in
       Intermediate.GroupChannels i'
       = (λ channel,
            IntermediateChannel.set_MembersUsernames (usernames channel)
              channel) <$> Intermediate.GroupChannels i
       ∧ Intermediate.DirectChannels i'
         = (λ channel,
              IntermediateChannel.set_MembersUsernames (usernames channel)
                channel) <$> Intermediate.DirectChannels i
       ∧ Intermediate.PublicChannels i' = Intermediate.PublicChannels i
       ∧ Intermediate.PrivateChannels i' = Intermediate.PrivateChannels i
       ∧ Intermediate.UsersById i' = Intermediate.UsersById i
       ∧ Intermediate.Posts i' = Intermediate.Posts i).
Proof.
  unfold PopulateChannelMemberships.
  cbv beta iota zeta delta [mbind M_bind mret M_ret logf].
  eexists. split; [reflexivity|]. split; [done|]. cbn.
  split; [|split; [|done]].
  - apply list_fmap_ext. intros _ channel _. unfold populateChannel.
    by rewrite appendUsernames_spec.
  - apply list_fmap_ext. intros _ channel _. unfold populateChannel.
    by rewrite appendUsernames_spec.
Qed.

Lemma addChannelsByName_spec channels name :
  ∀ channelsByName : gmap string IntermediateChannel.t,
  addChannelsByName channels channelsByName !! name
  = match last (filter (λ channel,
                          IntermediateChannel.OriginalName channel = name)
                  channels) with
    | Some channel => Some channel
    | None => channelsByName !! name
    end.
Proof.
  induction channels as [|channel rest IH]; intros channelsByName;
    cbn [addChannelsByName]; [done|].
  rewrite IH, filter_cons.
  destruct (decide (IntermediateChannel.OriginalName channel = name))
    as [Hn|Hn].
  - rewrite last_cons.
    destruct (last (filter _ rest)); [done|].
    rewrite <- Hn. apply lookup_insert_eq.
  - destruct (last (filter _ rest)); [done|].
    by apply lookup_insert_ne.
Qed.

(** X10.  [buildChannelsByOriginalNameMap] maps a name to the last
    channel with that original name, going through the public, the
    private, the group and the direct channels in this order; a name that
    no channel has as original name is not in the map. *)
Theorem channels_by_original_name_last_wins intermediate name :
  buildChannelsByOriginalNameMap intermediate !! name
  = last (filter (λ channel,
                    IntermediateChannel.OriginalName channel = name)
            (Intermediate.PublicChannels intermediate
             ++ Intermediate.PrivateChannels intermediate
             ++ Intermediate.GroupChannels intermediate
             ++ Intermediate.DirectChannels intermediate)%list).
Proof.
  unfold buildChannelsByOriginalNameMap. cbv zeta.
  rewrite !addChannelsByName_spec, !filter_app, !last_app.
  rewrite lookup_empty.
  repeat match goal with
         | |- context [last (filter ?P ?l)] => destruct (last (filter P l))
         end; done.
Qed.

End users.

(** ** Files of a message *)

Section files.
Context `{Env}.

Lemma set_Attachments_app_nil v :
  IntermediatePost.set_Attachments (IntermediatePost.Attachments v ++ []) v = v.
Proof. destruct v. cbn. by rewrite app_nil_r. Qed.

(** One file: its path is appended when it is copied, and one line is
    logged either way. *)
Lemma addFile_spec cfg uploads newPost file w v :
  heap w !! newPost = Some v →
  ∃ w',
    (err ← addFileToPost file uploads newPost (AttachmentsDir cfg);
     match err with
     | Some e => logf (LoggerWithError e "Failed to add file to post")
     | None => mret tt
     end) w = Some (tt, w')
    ∧ heap w'
      = <[newPost := IntermediatePost.set_Attachments
                       (IntermediatePost.Attachments v
                        ++ if decide (copied uploads file)
                           then [getNormalisedFilePath file (AttachmentsDir cfg)]
                           else []) v]> (heap w)
    ∧ redis w' = redis w
    ∧ length (logs w') = S (length (logs w)).
Proof.
  intros Hv. unfold addFileToPost.
  destruct (decide (copied uploads file)) as [Hc|Hc]; unfold copied in Hc.
  - rewrite Hc.
    unfold mbind at 1, M_bind at 1. unfold mbind at 1, M_bind at 1.
    unfold logf at 1. unfold mbind at 1, M_bind at 1.
    erewrite modify_Some by exact Hv.
    eexists. split; [reflexivity|]. cbn.
    split; [done|]. split; [done|]. rewrite length_app. simpl. lia.
  - destruct (uploads !! SlackFile.Id file) as [[err|]|] eqn:Hup; [|done|].
    + eexists. split; [reflexivity|]. cbn.
      rewrite set_Attachments_app_nil, insert_id by done.
      split; [done|]. split; [done|]. rewrite length_app. simpl. lia.
    + eexists. split; [reflexivity|]. cbn.
      rewrite set_Attachments_app_nil, insert_id by done.
      split; [done|]. split; [done|]. rewrite length_app. simpl. lia.
Qed.

(** X11.  [addFilesToPost] never fails the message.  It appends to the
    new post's attachments the normalised paths of the files of the
    message whose upload is in the archive and is copied without error,
    in the order of the files; the message's [File], when set, stands for
    all its files; with skip-attachments nothing is added.  Every file it
    goes through leaves exactly one line in the log, and no other post
    changes. *)
Theorem files_attached_in_order cfg uploads post newPost w v :
  heap w !! newPost = Some v →
  ∃ w',
    addFilesToPost cfg uploads post newPost w = Some (tt, w')
    ∧ heap w'
      = <[newPost := IntermediatePost.set_Attachments
                       (IntermediatePost.Attachments v
                        ++ ((λ file,
                               getNormalisedFilePath file (AttachmentsDir cfg))
                            <$> filter (copied uploads) (filesToAdd cfg post)))
                       v]> (heap w)
    ∧ redis w' = redis w
    ∧ length (logs w')
      = (length (logs w) + length (filesToAdd cfg post))%nat.
Proof.
  intros Hv. unfold addFilesToPost, filesToAdd.
  destruct (SkipAttachments cfg); cbn [negb].
  { exists w. split; [done|]. cbn.
    rewrite set_Attachments_app_nil, insert_id by done.
    split; [done|]. split; [done|]. lia. }
  destruct (SlackPost.File post) as [file|].
  { destruct (addFile_spec cfg uploads newPost file w v Hv)
      as (w' & Hrun & Hheap & Hredis & Hlogs).
    exists w'. split; [exact Hrun|]. rewrite Hheap, filter_cons, filter_nil.
    split; [by destruct (decide (copied uploads file))|].
    split; [done|]. simpl. lia. }
  generalize (SlackPost.Files post). intros files.
  revert v w Hv. induction files as [|file rest IH]; intros v w Hv.
  - exists w. split; [done|]. cbn.
    rewrite set_Attachments_app_nil, insert_id by done.
    split; [done|]. split; [done|]. lia.
  - destruct (addFile_spec cfg uploads newPost file w v Hv)
      as (w1 & Hrun1 & Hheap1 & Hredis1 & Hlogs1).
    set (v1 := IntermediatePost.set_Attachments
                 (IntermediatePost.Attachments v
                  ++ if decide (copied uploads file)
                     then [getNormalisedFilePath file (AttachmentsDir cfg)]
                     else []) v) in *.
    destruct (IH v1 w1) as (w2 & Hrun2 & Hheap2 & Hredis2 & Hlogs2).
    { rewrite Hheap1. apply lookup_insert_eq. }
    exists w2. split.
    { rewrite (bind_Some _ _ _ _ _ Hrun1). exact Hrun2. }
    split; [|split; [congruence|simpl; lia]].
    rewrite Hheap2, Hheap1, insert_insert_eq. f_equal.
    unfold v1. cbn [IntermediatePost.Attachments IntermediatePost.set_Attachments].
    rewrite filter_cons.
    destruct (decide (copied uploads file)); cbn.
    + by rewrite <- app_assoc.
    + by rewrite app_nil_r.
Qed.

End files.

(** ** [AddPostToThreads]: replies that are kept, and what every call does *)

Section assembly_more.
Context `{LawfulThreadsStorage T}.
Implicit Types (threads : T) (original : SlackPost.t) (post : loc).

(** Classification completes when the post is there and the root that a
    lookup finds is. *)
Lemma classifyPost_returns original post threads timestamps iwp w v :
  heap w !! post = Some v →
  (∀ r threads' w1,
     LookupThread threads (SlackPost.ThreadTS original) w
     = Some ((Some r, threads'), w1) → is_Some (heap w1 !! r)) →
  ∃ res w', classifyPost original post threads timestamps iwp w
            = Some (res, w').
Proof.
  intros Hv Hroot. destruct (decide (isReply original)) as [Hr|Hr].
  - destruct (LookupThread_total threads (SlackPost.ThreadTS original) w)
      as [[[r s1] w1] E].
    destruct r as [r|].
    + destruct (Hroot r s1 w1 E) as [root Hroot'].
      destruct (decide (iwp = true
                        ∨ IntermediatePost.User root ≠ WorkflowUserName))
        as [Hu|Hu].
      * eexists _, _. by eapply classifyPost_append.
      * assert (iwp = false) as -> by (destruct iwp; tauto).
        eexists _, _. eapply classifyPost_workflow_root; [done..|].
        destruct (decide (IntermediatePost.User root = WorkflowUserName));
          tauto.
    + eexists _, _. apply classifyPost_orphan; [done|].
      by rewrite (LookupThread_HasThread _ _ _ _ _ _ E).
  - eexists _, _. by eapply classifyPost_root.
Qed.

(** The same for the whole call. *)
Lemma AddPostToThreads_returns original post threads channel timestamps iwp
    v w :
  heap w !! post = Some v →
  Z.of_nat (size timestamps) < Int64.modulus →
  (∀ r threads' w1,
     LookupThread threads (SlackPost.ThreadTS original) w
     = Some ((Some r, threads'), w1) → is_Some (heap w1 !! r)) →
  ∃ res w', AddPostToThreads original post threads channel timestamps iwp w
            = Some (res, w').
Proof.
  intros Hv Hsz Hroot.
  destruct (firstFree_exists timestamps (IntermediatePost.CreateAt v) Hsz)
    as (k & Hk & Hf).
  rewrite (AddPostToThreads_phases _ _ _ _ _ _ _ _ _ Hv Hk Hf).
  eapply classifyPost_returns; [rewrite heap_withPost; apply lookup_insert_eq|].
  intros r threads' w1 E.
  destruct (LookupThread_total threads (SlackPost.ThreadTS original) w)
    as [[[r0 s0] w0] E0].
  pose proof (LookupThread_withPost _ _ _ _ _ _ post
                (resolvedPost channel v k) ltac:(by eexists) E0) as E0'.
  rewrite E0' in E. injection E as -> -> <-.
  destruct (Hroot r threads' w0 E0) as [root Hr].
  rewrite heap_withPost. destruct (decide (r = post)) as [->|Hne].
  - rewrite lookup_insert_eq. by eexists.
  - rewrite lookup_insert_ne by done. by eexists.
Qed.

(** X12.  A reply whose root the store holds is appended at the end of
    the root's replies, unless the root is the workflow user's while
    workflow posts are not imported.  The store is the one the lookup
    left, the reply is not stored as a thread, nothing is logged, and
    the reply is not sanitised: it keeps its message whatever its
    length. *)
Theorem reply_appended_unsanitised original post threads channel timestamps
    importWorkflowPosts v w r threads' w1 root :
  heap w !! post = Some v →
  Z.of_nat (size timestamps) < Int64.modulus →
  SlackPost.ThreadTS original ≠ "" →
  SlackPost.ThreadTS original ≠ SlackPost.TimeStamp original →
  LookupThread threads (SlackPost.ThreadTS original) w
  = Some ((Some r, threads'), w1) →
  heap w1 !! r = Some root →
  r ≠ post →
  importWorkflowPosts = true
  ∨ IntermediatePost.User root ≠ WorkflowUserName →
  ∃ k w',
    AddPostToThreads original post threads channel timestamps
      importWorkflowPosts w
    = Some ((threads',
             <[bumped (IntermediatePost.CreateAt v) k := true]> timestamps),
            w')
    ∧ heap w' !! r
      = Some (IntermediatePost.set_Replies
                (IntermediatePost.Replies root ++ [post]) root)
    ∧ heap w' !! post = Some (resolvedPost channel v k)
    ∧ IntermediatePost.Message (resolvedPost channel v k)
      = IntermediatePost.Message v
    ∧ logs w' = logs w
    ∧ redis w' = redis w
    ∧ ∀ l, l ≠ r → l ≠ post → heap w' !! l = heap w1 !! l.
Proof.
  intros Hv Hsz Hne Hneq E Hroot Hrp Hu.
  destruct (firstFree_exists timestamps (IntermediatePost.CreateAt v) Hsz)
    as (k & Hk & Hf).
  destruct (LookupThread_frame _ _ _ _ _ _ E) as (Hsub & Hredis & Hlogs).
  exists k. eexists. split.
  { rewrite (AddPostToThreads_phases _ _ _ _ _ _ _ _ _ Hv Hk Hf).
    apply (classifyPost_append original post threads _ _ _ r threads'
             (withPost post (resolvedPost channel v k) w1) root);
      [done| |rewrite heap_withPost, lookup_insert_ne by done; exact Hroot
      |done].
    apply LookupThread_withPost; [by eexists|done]. }
  split; [rewrite heap_withPost; apply lookup_insert_eq|].
  split.
  { rewrite heap_withPost, lookup_insert_ne by done.
    rewrite heap_withPost. apply lookup_insert_eq. }
  split; [unfold resolvedPost, enrichForChannel; by case_decide|].
  split; [done|]. split; [done|].
  intros l Hlr Hlp. rewrite heap_withPost, lookup_insert_ne by done.
  by rewrite heap_withPost, lookup_insert_ne.
Qed.

(** X13.  Whatever becomes of the message, a call of [AddPostToThreads]
    returns, and by then it has marked the post for its channel (direct,
    with the channel's member usernames, in a direct or group channel;
    not direct otherwise), has put it at the first free creation time and
    has added exactly that time to the ledger; the author, the channel,
    the props and the attachments of the post are as they were. *)
Theorem every_call_marks_and_records original post threads channel timestamps
    importWorkflowPosts v w :
  heap w !! post = Some v →
  Z.of_nat (size timestamps) < Int64.modulus →
  (∀ r threads' w1,
     LookupThread threads (SlackPost.ThreadTS original) w
     = Some ((Some r, threads'), w1) → is_Some (heap w1 !! r)) →
  ∃ k threads' timestamps' w' v',
    AddPostToThreads original post threads channel timestamps
      importWorkflowPosts w
    = Some ((threads', timestamps'), w')
    ∧ firstFree timestamps (IntermediatePost.CreateAt v) k
    ∧ timestamps'
      = <[bumped (IntermediatePost.CreateAt v) k := true]> timestamps
    ∧ size timestamps' = S (size timestamps)
    ∧ heap w' !! post = Some v'
    ∧ IntermediatePost.CreateAt v' = bumped (IntermediatePost.CreateAt v) k
    ∧ IntermediatePost.IsDirect v'
      = bool_decide (IntermediateChannel.Type_ channel = ChannelTypeDirect
                     ∨ IntermediateChannel.Type_ channel = ChannelTypeGroup)
    ∧ IntermediatePost.ChannelMembers v'
      = (if decide (IntermediateChannel.Type_ channel = ChannelTypeDirect
                    ∨ IntermediateChannel.Type_ channel = ChannelTypeGroup)
         then IntermediateChannel.MembersUsernames channel
         else IntermediatePost.ChannelMembers v)
    ∧ IntermediatePost.User v' = IntermediatePost.User v
    ∧ IntermediatePost.Channel v' = IntermediatePost.Channel v
    ∧ IntermediatePost.Props v' = IntermediatePost.Props v
    ∧ IntermediatePost.Attachments v' = IntermediatePost.Attachments v.
Proof.
  intros Hv Hsz Hroot.
  destruct (AddPostToThreads_returns original post threads channel timestamps
              importWorkflowPosts v w Hv Hsz Hroot)
    as ([threads' timestamps'] & w' & Hrun).
  destruct (firstFree_exists timestamps (IntermediatePost.CreateAt v) Hsz)
    as (k & Hk & Hf).
  pose proof Hrun as Hrun'.
  rewrite (AddPostToThreads_phases _ _ _ _ _ _ _ _ _ Hv Hk Hf) in Hrun'.
  apply (classifyPost_keeps
           (λ x, (IntermediatePost.CreateAt x, IntermediatePost.IsDirect x,
                  IntermediatePost.ChannelMembers x, IntermediatePost.User x,
                  IntermediatePost.Channel x, IntermediatePost.Props x,
                  IntermediatePost.Attachments x)))
    in Hrun' as [-> Hkeep];
    [|done|intros x; unfold IntermediatePost.Sanitise; by case_decide].
  destruct (Hkeep post _ (lookup_insert_eq _ _ _)) as (v' & Hv' & Hfields).
  injection Hfields as Hc Hd Hm Hu Hch Hp Ha.
  eexists k, threads', _, w', v'. split; [exact Hrun|].
  split; [done|]. split; [done|].
  split.
  { rewrite map_size_insert_None; [done|]. by destruct Hf. }
  split; [done|].
  unfold resolvedPost, enrichForChannel in *.
  destruct (decide (IntermediateChannel.Type_ channel = ChannelTypeDirect
                    ∨ IntermediateChannel.Type_ channel = ChannelTypeGroup))
    as [Hdg|Hdg].
  - rewrite bool_decide_eq_true_2 by done. by repeat split.
  - rewrite bool_decide_eq_false_2 by done. by repeat split.
Qed.

End assembly_more.

(** ** The posts of a channel, on the store the transformer opens *)

Lemma extends_refl w : extends w w.
Proof. by split. Qed.

Lemma extends_trans w1 w2 w3 : extends w1 w2 → extends w2 w3 → extends w1 w3.
Proof. intros [? ?] [? ?]. split; [set_solver|congruence]. Qed.

Lemma extends_add_log e w : extends w (add_log e w).
Proof. by split. Qed.

Lemma extends_withPost l v w : extends w (withPost l v w).
Proof. split; [|done]. rewrite heap_withPost, dom_insert_L. set_solver. Qed.

Lemma extends_alloc p w l w' : alloc p w = Some (l, w') → extends w w'.
Proof.
  intros [= <- <-]. split; [|done]. simpl. rewrite dom_insert_L. set_solver.
Qed.

(** The users' ids stay within those there were and the workflow id. *)
Lemma dom_users_trans (A B C W : gset string) :
  B ⊆ A ∪ W → C ⊆ B ∪ W → C ⊆ A ∪ W.
Proof.
  intros HB HC. etrans; [exact HC|].
  apply union_least; [exact HB|apply union_subseteq_r].
Qed.

Lemma storeAllocated_extends threads w w' :
  storeAllocated threads w → extends w w' → storeAllocated threads w'.
Proof. intros Hs [Hd _] k p Hk. apply Hd. by eapply Hs. Qed.

Lemma storeAllocated_store threads k p w :
  storeAllocated threads w → p ∈ dom (heap w) →
  storeAllocated (StoreThread threads k p) w.
Proof.
  intros Hs Hp k' p'. rewrite channel_store_local.
  destruct (decide (k' = k)) as [->|Hne].
  - rewrite lookup_insert_eq. by intros [= <-].
  - rewrite lookup_insert_ne by done. apply Hs.
Qed.

(** A lookup on an instance whose local posts exist: the post it finds
    exists, and so do the local posts afterwards. *)
Lemma channel_lookup_allocated (s : channelStorage) k w r s' w' :
  storeAllocated s w →
  LookupThread s k w = Some ((r, s'), w') →
  extends w w' ∧ logs w' = logs w ∧ storeAllocated s' w'
  ∧ ∀ p, r = Some p → p ∈ dom (heap w').
Proof.
  intros Hs E.
  destruct (LookupThread_frame _ _ _ _ _ _ E) as (Hsub & Hredis & Hlogs).
  assert (Hext : extends w w') by (split; [by apply subseteq_dom|done]).
  split; [done|]. split; [done|].
  destruct (localThreads s !! k) as [p|] eqn:Hloc.
  { rewrite (channel_lookup_local_hit _ _ _ _ Hloc) in E.
    injection E as <- <- <-. split; [done|].
    intros p' [= <-]. by eapply Hs. }
  destruct s as [m|c]; simpl in Hloc.
  { rewrite channel_lookup_memory, Hloc in E. injection E as <- <- <-.
    split; [done|]. by intros p' [=]. }
  destruct (redis w !! redisKey (redisChannel c) k) as [d|] eqn:Er.
  - destruct (redis_lookup_fetch _ _ _ _ Hloc Er) as (p & w1 & Ed & E1).
    rewrite (channel_lookup_redis _ _ _ _ _ _ E1) in E.
    injection E as <- <- <-.
    destruct (decodePost_spec d w) as (p2 & w2 & Ed2 & _ & _ & _ & Hp2 & _).
    rewrite Ed in Ed2. injection Ed2 as <- <-.
    apply elem_of_dom in Hp2.
    split.
    + intros k' p'. simpl.
      destruct (decide (k' = k)) as [->|Hne].
      * rewrite lookup_insert_eq. by intros [= <-].
      * rewrite lookup_insert_ne by done. intros Hk'.
        destruct Hext as [Hd _]. apply Hd. by apply (Hs k').
    + by intros p' [= <-].
  - rewrite (channel_lookup_redis _ _ _ _ _ _
               (redis_lookup_miss _ _ _ Hloc Er)) in E.
    injection E as <- <- <-. split; [done|]. by intros p' [=].
Qed.

(** A call of [AddPostToThreads] on such an instance returns, and leaves
    such an instance. *)
Lemma AddPostToThreads_channel original post (threads : channelStorage)
    channel timestamps iwp v w :
  heap w !! post = Some v →
  Z.of_nat (size timestamps) < Int64.modulus →
  storeAllocated threads w →
  returns (AddPostToThreads original post threads channel timestamps iwp) w
    (λ '(threads', timestamps') w',
       extends w w' ∧ storeAllocated threads' w'
       ∧ size timestamps' = S (size timestamps)).
Proof.
  intros Hv Hsz Hs.
  destruct (firstFree_exists timestamps (IntermediatePost.CreateAt v) Hsz)
    as (k & Hk & Hf).
  unfold returns.
  rewrite (AddPostToThreads_phases _ _ _ _ _ _ _ _ _ Hv Hk Hf).
  set (w0 := withPost post (resolvedPost channel v k) w).
  assert (Hext0 : extends w w0) by apply extends_withPost.
  assert (Hs0 : storeAllocated threads w0)
    by (by eapply storeAllocated_extends).
  assert (Hsize : size (<[bumped (IntermediatePost.CreateAt v) k := true]>
                          timestamps) = S (size timestamps)).
  { rewrite map_size_insert_None; [done|]. by destruct Hf. }
  assert (Hpost0 : heap w0 !! post = Some (resolvedPost channel v k))
    by (unfold w0; rewrite heap_withPost; apply lookup_insert_eq).
  destruct (decide (isReply original)) as [Hr|Hr].
  - destruct (LookupThread_total threads (SlackPost.ThreadTS original) w0)
      as [[[r s1] w1] E].
    destruct (channel_lookup_allocated _ _ _ _ _ _ Hs0 E)
      as (Hext1 & Hlogs1 & Hs1 & Hr1).
    destruct r as [r|].
    + pose proof (Hr1 r eq_refl) as Hin.
      apply elem_of_dom in Hin as [root Hroot].
      destruct (decide (iwp = true
                        ∨ IntermediatePost.User root ≠ WorkflowUserName))
        as [Hu|Hu].
      * rewrite (classifyPost_append _ _ _ _ _ _ _ _ _ _ Hr E Hroot Hu).
        eexists _, _. split; [reflexivity|].
        split; [|split; [|done]].
        -- eapply extends_trans; [done|].
           eapply extends_trans; [done|]. apply extends_withPost.
        -- eapply storeAllocated_extends; [done|]. apply extends_withPost.
      * assert (iwp = false) as -> by (destruct iwp; tauto).
        rewrite (classifyPost_workflow_root _ _ _ _ _ _ _ _ _ Hr E Hroot);
          [|destruct (decide (IntermediatePost.User root = WorkflowUserName));
            tauto].
        eexists _, _. split; [reflexivity|].
        split; [by eapply extends_trans|done].
    + rewrite classifyPost_orphan;
        [|done|by rewrite (LookupThread_HasThread _ _ _ _ _ _ E)].
      eexists _, _. split; [reflexivity|].
      split; [|split; [|done]].
      * eapply extends_trans; [done|]. apply extends_add_log.
      * eapply storeAllocated_extends; [done|]. apply extends_add_log.
  - rewrite (classifyPost_root _ _ _ _ _ _ _ Hr Hpost0).
    eexists _, _. split; [reflexivity|].
    set (w1 := withPost post (IntermediatePost.Sanitise
                                (resolvedPost channel v k)) w0).
    assert (Hext1 : extends w0 w1) by apply extends_withPost.
    assert (Hp1 : post ∈ dom (heap w1)).
    { apply elem_of_dom. unfold w1. rewrite heap_withPost, lookup_insert_eq.
      by eexists. }
    destruct (HasThread threads (SlackPost.TimeStamp original) w0).
    + split; [|split; [|done]].
      * eapply extends_trans; [done|].
        eapply extends_trans; [done|]. apply extends_add_log.
      * apply storeAllocated_store; [|done].
        eapply storeAllocated_extends; [done|].
        eapply extends_trans; [done|]. apply extends_add_log.
    + split; [|split; [|done]].
      * by eapply extends_trans.
      * apply storeAllocated_store; [|done].
        by eapply storeAllocated_extends.
Qed.

Section posts_pipeline.
Context `{Env} `{Helpers}.

Lemma filesOnly_extends newPost w {A} (a : A) w' :
  filesOnly newPost w a w' → extends w w' ∧ newPost ∈ dom (heap w').
Proof.
  intros [(v & v' & Hv & Hv' & _) [Hrest Hredis]].
  split; [split; [|done]|by apply elem_of_dom; eexists].
  intros l Hl. apply elem_of_dom. destruct (decide (l = newPost)) as [->|Hne].
  - by eexists.
  - rewrite Hrest by done. by apply elem_of_dom.
Qed.

Lemma addPropsToPost_extends cfg post newPost w :
  newPost ∈ dom (heap w) →
  returns (addPropsToPost cfg post newPost) w
    (λ _ w', extends w w' ∧ newPost ∈ dom (heap w')).
Proof.
  intros Hin. pose proof Hin as [v Hv]%elem_of_dom.
  unfold addPropsToPost. case_decide; [|by apply returns_ret].
  case_decide.
  - eexists _, _. rewrite (bind_Some _ _ _ _ _ (modify_Some _ _ _ _ Hv)).
    split; [reflexivity|]. split; [apply extends_withPost|].
    rewrite heap_withPost, dom_insert_L. set_solver.
  - destruct (DiscardInvalidProps cfg); run_logs;
      (split; [apply extends_add_log|done]).
Qed.

Lemma channelStep_weaken users timestamps n w res w0 w' :
  extends w w0 → channelStep users timestamps n w0 res w' →
  channelStep users timestamps n w res w'.
Proof.
  intros Hext (Hext' & ? & ? & ? & ?).
  split; [by eapply extends_trans|done].
Qed.

Lemma channelStep_same users (threads : channelStorage) timestamps n w w' :
  extends w w' → storeAllocated threads w →
  channelStep users timestamps n w (users, threads, timestamps) w'.
Proof.
  intros Hext Hs. split; [done|]. simpl.
  split; [by eapply storeAllocated_extends|]. split; [done|].
  split; [set_solver|lia].
Qed.

(** The call of [AddPostToThreads] that ends a case of the switch. *)
Lemma add_step cfg channel post newPost users0 users
    (threads : channelStorage) timestamps w :
  newPost ∈ dom (heap w) →
  Z.of_nat (size timestamps) < Int64.modulus →
  storeAllocated threads w →
  users0 ⊆ users → dom users ⊆ dom users0 ∪ {[ "importedworkflow" ]} →
  returns
    ('(threads', timestamps') ←
       AddPostToThreads post newPost threads channel timestamps
         (ImportWorkflowMessages cfg);
     mret (users, threads', timestamps')) w
    (channelStep users0 timestamps 1 w).
Proof.
  intros [v Hv]%elem_of_dom Hsz Hs Hu1 Hu2.
  eapply returns_bind; [by apply (AddPostToThreads_channel _ _ _ _ _ _ v)|].
  intros [threads' timestamps'] w' (Hext & Hs' & Hsize).
  apply returns_ret. split; [done|]. simpl.
  split; [done|]. split; [done|]. split; [done|]. lia.
Qed.

(** A new post, then [AddPostToThreads]. *)
Lemma alloc_add_step cfg channel post p users0 users
    (threads : channelStorage) timestamps w :
  Z.of_nat (size timestamps) < Int64.modulus →
  storeAllocated threads w →
  users0 ⊆ users → dom users ⊆ dom users0 ∪ {[ "importedworkflow" ]} →
  returns
    (newPost ← alloc p;
     '(threads', timestamps') ←
       AddPostToThreads post newPost threads channel timestamps
         (ImportWorkflowMessages cfg);
     mret (users, threads', timestamps')) w
    (channelStep users0 timestamps 1 w).
Proof.
  intros Hsz Hs Hu1 Hu2.
  destruct (alloc p w) as [[newPost w0]|] eqn:Ha; [|done].
  pose proof (extends_alloc _ _ _ _ Ha) as Hext0.
  assert (Hin : newPost ∈ dom (heap w0)).
  { injection Ha as <- <-. simpl. rewrite dom_insert_L. set_solver. }
  destruct (add_step cfg channel post newPost users0 users threads timestamps
              w0 Hin Hsz (storeAllocated_extends _ _ _ Hs Hext0) Hu1 Hu2)
    as (res & w' & Hrun & Hstep).
  exists res, w'. split; [by rewrite (bind_Some _ _ _ _ _ Ha)|].
  by eapply channelStep_weaken.
Qed.

(** A new post, its files and props, then [AddPostToThreads] unless the
    props discard the message. *)
Lemma alloc_files_props_add_step cfg uploads channel post p users0 users
    (threads : channelStorage) timestamps w :
  Z.of_nat (size timestamps) < Int64.modulus →
  storeAllocated threads w →
  users0 ⊆ users → dom users ⊆ dom users0 ∪ {[ "importedworkflow" ]} →
  returns
    (newPost ← alloc p;
     addFilesToPost cfg uploads post newPost;;
     keep ← addPropsToPost cfg post newPost;
     if keep : bool
     then '(threads', timestamps') ←
            AddPostToThreads post newPost threads channel timestamps
              (ImportWorkflowMessages cfg);
          mret (users, threads', timestamps')
     else mret (users, threads, timestamps)) w
    (channelStep users0 timestamps 1 w).
Proof.
  intros Hsz Hs Hu1 Hu2.
  destruct (alloc p w) as [[newPost w0]|] eqn:Ha; [|done].
  pose proof (extends_alloc _ _ _ _ Ha) as Hext0.
  assert (Hv0 : heap w0 !! newPost = Some p).
  { injection Ha as <- <-. simpl. apply lookup_insert_eq. }
  destruct (addFilesToPost_returns cfg uploads post newPost w0 p Hv0)
    as ([] & w1 & Hfiles & Hf).
  apply filesOnly_extends in Hf as [Hext1 Hin1].
  destruct (addPropsToPost_extends cfg post newPost w1 Hin1)
    as (keep & w2 & Hprops & Hext2 & Hin2).
  assert (Hext : extends w w2).
  { eapply extends_trans; [done|]. by eapply extends_trans. }
  unfold returns.
  rewrite (bind_Some _ _ _ _ _ Ha), (bind_Some _ _ _ _ _ Hfiles),
    (bind_Some _ _ _ _ _ Hprops).
  destruct keep.
  - destruct (add_step cfg channel post newPost users0 users threads
                timestamps w2 Hin2 Hsz
                (storeAllocated_extends _ _ _ Hs Hext) Hu1 Hu2)
      as (res & w' & Hrun & Hstep).
    exists res, w'. split; [done|]. by eapply channelStep_weaken.
  - eexists _, _. split; [reflexivity|].
    split; [done|]. simpl.
    split; [by eapply storeAllocated_extends|]. split; [done|].
    split; [done|lia].
Qed.

Lemma selectOrCreateWorkflowUser_users users w :
  returns (selectOrCreateWorkflowUser users) w (λ '(_, users') w',
    extends w w' ∧ users ⊆ users'
    ∧ dom users' ⊆ dom users ∪ {[ "importedworkflow" ]}).
Proof.
  unfold selectOrCreateWorkflowUser.
  destruct (users !! "importedworkflow") as [existing|] eqn:Hex.
  - apply returns_ret. split; [apply extends_refl|]. split; [done|set_solver].
  - eapply returns_bind; [apply IntermediateUser_Sanitise_spec|].
    intros u w' (_ & Hheap & Hredis).
    apply returns_ret. split; [split; [by rewrite Hheap|done]|].
    split; [by apply insert_subseteq|]. rewrite dom_insert_L.
    apply union_least; [apply union_subseteq_r|apply union_subseteq_l].
Qed.

(** One message of a channel: the switch of [TransformPosts] returns and
    keeps the loop going. *)
Lemma transformPost_step cfg uploads channel post users
    (threads : channelStorage) timestamps w :
  Z.of_nat (size timestamps) < Int64.modulus →
  storeAllocated threads w →
  returns (transformPost cfg uploads channel post users threads timestamps) w
    (channelStep users timestamps 1 w).
Proof.
  intros Hsz Hs.
  assert (Hskip : ∀ w', extends w w' →
            channelStep users timestamps 1 w (users, threads, timestamps) w')
    by (intros w' Hext; by apply channelStep_same).
  assert (Hauthored : ∀ prefix,
    returns
      (if decide (SlackPost.User post = "") then
         logf (Logger Warn (prefix +:+ "Unable to import the message as the user field is missing."));;
         mret (users, threads, timestamps)
       else
         match users !! SlackPost.User post with
         | None =>
             logf (Logger Warn
                     (prefix +:+ "Unable to add the message as the Slack user does not exist in Mattermost. user="
                      +:+ SlackPost.User post));;
             mret (users, threads, timestamps)
         | Some author =>
             newPost ← alloc (newIntermediatePost author channel
                                (SlackPost.Text post) (SlackPost.TimeStamp post));
             '(threads', timestamps') ←
               AddPostToThreads post newPost threads channel timestamps
                 (ImportWorkflowMessages cfg);
             mret (users, threads', timestamps')
         end) w (channelStep users timestamps 1 w)).
  { intros prefix. destruct (decide (SlackPost.User post = "")).
    - run_logs. apply Hskip, extends_add_log.
    - destruct (users !! SlackPost.User post) as [author|].
      + apply alloc_add_step; [done|done|done|set_solver].
      + run_logs. apply Hskip, extends_add_log. }
  unfold transformPost.
  destruct (IsPlainMessage post).
  { destruct (decide (SlackPost.User post = "")).
    - run_logs. apply Hskip, extends_add_log.
    - destruct (users !! SlackPost.User post) as [author|].
      + apply alloc_files_props_add_step; [done|done|done|set_solver].
      + run_logs. apply Hskip, extends_add_log. }
  destruct (IsFileComment post).
  { destruct (SlackPost.Comment post) as [comment|].
    - destruct (decide (SlackComment.User comment = "")).
      + run_logs. apply Hskip, extends_add_log.
      + destruct (users !! SlackComment.User comment) as [author|].
        * apply alloc_add_step; [done|done|done|set_solver].
        * run_logs. apply Hskip, extends_add_log.
    - run_logs. apply Hskip, extends_add_log. }
  destruct (IsBotMessage post).
  { destruct (ImportWorkflowMessages cfg) eqn:Hiwm; cbn [negb].
    - eapply returns_bind; [apply selectOrCreateWorkflowUser_users|].
      intros [author users'] w0 (Hext0 & Hu1 & Hu2).
      destruct (alloc_files_props_add_step cfg uploads channel post
                  (newIntermediatePost author channel (SlackPost.Text post)
                     (SlackPost.TimeStamp post))
                  users users' threads timestamps w0 Hsz
                  (storeAllocated_extends _ _ _ Hs Hext0) Hu1 Hu2)
        as (res & w' & Hrun & Hstep).
      rewrite Hiwm in Hrun.
      exists res, w'. split; [exact Hrun|]. by eapply channelStep_weaken.
    - apply returns_ret. apply Hskip, extends_refl. }
  destruct (IsJoinLeaveMessage post);
    [apply returns_ret; apply Hskip, extends_refl|].
  destruct (IsMeMessage post);
    [apply returns_ret; apply Hskip, extends_refl|].
  destruct (IsChannelTopicMessage post); [apply (Hauthored "")|].
  destruct (IsChannelPurposeMessage post); [apply (Hauthored "")|].
  destruct (IsChannelNameMessage post); [apply (Hauthored "Slack Import: ")|].
  run_logs. apply Hskip, extends_add_log.
Qed.

(** The loop over a channel's posts returns, whatever the messages. *)
Lemma transformChannelPosts_run cfg uploads channel channelPosts :
  ∀ users (threads : channelStorage) timestamps w,
  Z.of_nat (size timestamps + length channelPosts) < Int64.modulus →
  storeAllocated threads w →
  returns (transformChannelPosts cfg uploads channel channelPosts users
             threads timestamps) w
    (channelStep users timestamps (length channelPosts) w).
Proof.
  induction channelPosts as [|post rest IH];
    intros users threads timestamps w Hsz Hs.
  - apply returns_ret. by apply channelStep_same; [apply extends_refl|].
  - cbn [transformChannelPosts].
    eapply returns_bind; [apply transformPost_step; [|done]|].
    { simpl in Hsz. lia. }
    intros [[users1 threads1] timestamps1] w1 (Hext1 & Hs1 & Hu1 & Hd1 & Hn1).
    simpl in Hs1, Hu1, Hd1, Hn1.
    destruct (IH users1 threads1 timestamps1 w1) as (res & w2 & Hrun & Hstep);
      [simpl in Hsz; lia|done|].
    exists res, w2. split; [done|].
    destruct Hstep as (Hext2 & Hs2 & Hu2 & Hd2 & Hn2).
    split; [by eapply extends_trans|]. split; [done|].
    split; [by etrans|]. split; [by eapply dom_users_trans|]. simpl. lia.
Qed.

(** What is left of a new store is its channel's posts, which exist. *)
Lemma changed_allocated (threads : channelStorage) w :
  storeAllocated threads w →
  Forall (λ post, post ∈ dom (heap w)) (GetChangedThreads threads).
Proof.
  intros Hs. rewrite channel_changed. apply Forall_forall. intros p Hp.
  apply list_elem_of_fmap in Hp as ([k p'] & -> & Hkp).
  apply elem_of_map_to_list in Hkp. by eapply Hs.
Qed.

(** The loop of [TransformPosts] returns; an error it returns with is
    the factory's. *)
Lemma transformPostsFrom_run cfg uploads channelsByOriginalName posts :
  Forall (λ entry,
            Z.of_nat (length (sortedByTimeStamp entry.2)) < Int64.modulus)
    posts →
  ∀ users factory resultPosts w,
  returns (transformPostsFrom cfg uploads channelsByOriginalName posts users
             factory resultPosts) w
    (postsStep cfg users factory resultPosts w).
Proof.
  induction 1 as [|[name channelPosts] rest Hsz _ IH];
    intros users factory resultPosts w.
  - apply returns_ret. split; [apply extends_refl|]. simpl.
    split; [done|]. split; [set_solver|].
    split; [exists []; by rewrite app_nil_r|]. by repeat split.
  - cbn [transformPostsFrom].
    destruct (channelsByOriginalName !! name) as [channel|].
    + destruct (newChannelThreadsStorage factory name (AttachmentsDir cfg)
                  (RedisConfig_ cfg)) as [[threads|err] factory1] eqn:Hnew.
      * pose proof (newChannelThreadsStorage_new _ _ _ _ _ _ Hnew)
          as [Hlocal _].
        assert (Hs : storeAllocated threads w).
        { intros k p. by rewrite Hlocal, lookup_empty. }
        assert (Hfac : (RedisConfig_ cfg = None → factory1 = factory)
                       ∧ (is_Some factory → factory1 = factory)
                       ∧ (is_Some (RedisConfig_ cfg) → is_Some factory1)).
        { unfold newChannelThreadsStorage in Hnew.
          destruct (RedisConfig_ cfg) as [config|].
          - destruct factory as [f|].
            + injection Hnew as _ <-. by repeat split.
            + destruct (newRedisFactory config); [|done].
              injection Hnew as _ <-.
              split; [done|]. split; [by intros [? ?]|done].
          - injection Hnew as _ <-. split; [done|]. split; [done|].
            by intros [? ?]. }
        destruct Hfac as (Hf1 & Hf2 & Hf3).
        eapply returns_bind.
        { apply transformChannelPosts_run; [|exact Hs].
          rewrite map_size_empty. simpl in Hsz. simpl. lia. }
        intros [[users1 threads1] timestamps1] w1
          (Hext1 & Hs1 & Hu1 & Hd1 & _).
        simpl in Hs1, Hu1, Hd1.
        destruct (IH users1 factory1
                    (resultPosts ++ GetChangedThreads threads1)%list w1)
          as (res & w2 & Hrun & Hstep).
        exists res, w2. split; [done|].
        destruct Hstep as (Hext2 & Hu2 & Hd2 & (more & Hmore & Hall)
                           & He2 & Hn2 & Hsome2).
        split; [by eapply extends_trans|].
        split; [by etrans|]. split; [by eapply dom_users_trans|].
        split.
        { exists (GetChangedThreads threads1 ++ more)%list.
          split; [by rewrite Hmore, app_assoc|].
          apply Forall_app. split; [|done].
          eapply Forall_impl; [by apply changed_allocated|].
          intros p Hp. cbv beta in Hp. destruct Hext2 as [Hd _]. by apply Hd. }
        split.
        { intros e He. destruct (He2 e He) as (Hnone & _ & config & Hc & _).
          exfalso. destruct Hf3 as [? Hsome]; [by rewrite Hc|].
          by rewrite Hnone in Hsome. }
        split.
        { intros Hc. destruct (Hn2 Hc) as [-> ->]. by rewrite Hf1. }
        intros Hsome. pose proof (Hf2 Hsome) as Heq.
        assert (Hsome1 : is_Some factory1) by (by rewrite Heq).
        by destruct (Hsome2 Hsome1) as [-> ->].
      * apply returns_ret. split; [apply extends_refl|]. simpl.
        split; [done|]. split; [set_solver|].
        split; [exists []; by rewrite app_nil_r|].
        unfold newChannelThreadsStorage in Hnew.
        destruct (RedisConfig_ cfg) as [config|]; [|done].
        destruct factory as [f|]; [done|].
        destruct (newRedisFactory config) as [f|err'] eqn:Hfac; [done|].
        injection Hnew as <- <-.
        split; [|split; [done|by intros [? ?]]].
        intros e [= <-]. split; [done|]. split; [done|]. by exists config.
    + eapply (returns_bind _ _ _ (λ _ w', w' = add_log _ w));
        [by run_logs|].
      intros [] w1 ->.
      destruct (IH users factory resultPosts
                  (add_log (Logger Warn
                              ("--- Couldn't find channel " +:+ name
                               +:+ " referenced by posts")) w))
        as (res & w2 & Hrun & Hstep).
      exists res, w2. split; [done|].
      destruct Hstep as (Hext2 & Hrest).
      split; [|done].
      eapply extends_trans; [apply extends_add_log|done].
Qed.

End posts_pipeline.

(** ** [TransformPosts] and [Transform] *)

Section transform.
Context `{Env} `{Helpers}.

(** Posts of channels that are not known are passed over with one warning
    each. *)
Lemma transformPostsFrom_unknown cfg uploads channelsByOriginalName
    skippedEntries rest users factory resultPosts :
  Forall (λ entry, channelsByOriginalName !! entry.1 = None) skippedEntries →
  ∀ w,
  transformPostsFrom cfg uploads channelsByOriginalName
    (skippedEntries ++ rest) users factory resultPosts w
  = transformPostsFrom cfg uploads channelsByOriginalName rest users factory
      resultPosts
      (mkWorld (heap w) (redis w)
         (logs w ++ (unknownChannelWarning <$> skippedEntries.*1))).
Proof.
  induction 1 as [|[name channelPosts] entries Hname _ IH]; intros w.
  - cbn. by rewrite app_nil_r, World_eta.
  - cbn [app transformPostsFrom]. simpl in Hname. rewrite Hname.
    unfold mbind at 1, M_bind at 1, logf at 1.
    rewrite IH. cbn. by rewrite <- app_assoc.
Qed.

(** [TransformPosts] is its loop, then the assignment of the result. *)
Lemma TransformPosts_run cfg slackExport t w :
  Forall (λ entry,
            Z.of_nat (length (sortedByTimeStamp entry.2)) < Int64.modulus)
    (SlackExport.Posts slackExport) →
  returns (TransformPosts cfg slackExport t) w (λ '(t', err) w',
    ∃ users factory posts,
      postsStep cfg (Intermediate.UsersById (Transformer.Intermediate t))
        (Transformer.redisFactory_ t) []
        (add_log (Logger Info "Transforming posts") w)
        (err, users, factory, posts) w'
      ∧ Transformer.redisFactory_ t' = factory
      ∧ Transformer.Intermediate t'
        = match err with
          | Some _ =>
              Intermediate.set_UsersById users (Transformer.Intermediate t)
          | None =>
              Intermediate.set_Posts posts
                (Intermediate.set_UsersById users (Transformer.Intermediate t))
          end).
Proof.
  intros Hsz. unfold TransformPosts.
  eapply (returns_bind _ _ _ (λ _ w', w' = add_log _ w)); [by run_logs|].
  intros [] w1 ->. cbv zeta.
  eapply returns_bind; [by apply transformPostsFrom_run|].
  intros [[[err users] factory] posts] w' Hstep.
  destruct err as [e|]; apply returns_ret.
  - exists users, factory, posts. split; [exact Hstep|]. by split.
  - exists users, factory, posts. split; [exact Hstep|]. split; [done|].
    cbn. by rewrite !app_nil_r.
Qed.


Lemma posts_of_unknown_channels_skipped_aux cfg slackExport t w :
  Forall (λ entry,
            buildChannelsByOriginalNameMap (Transformer.Intermediate t)
            !! entry.1 = None)
    (SlackExport.Posts slackExport) →
  TransformPosts cfg slackExport t w
  = Some ((Transformer.set_Intermediate
             (Intermediate.set_Posts [] (Transformer.Intermediate t)) t,
           None),
          mkWorld (heap w) (redis w)
            (logs w ++ Logger Info "Transforming posts"
                       :: (unknownChannelWarning
                           <$> (SlackExport.Posts slackExport).*1))).
Proof.
  intros Hunknown. unfold TransformPosts.
  unfold mbind at 1, M_bind at 1, logf at 1. cbv zeta.
  rewrite <- (app_nil_r (SlackExport.Posts slackExport)) at 1.
  rewrite (bind_Some _ _ _ _ _
             (transformPostsFrom_unknown _ _ _ _ [] _ _ _ Hunknown _)).
  cbn. rewrite !app_nil_r, <- app_assoc. by destruct t as [[]].
Qed.

(** X14.  When none of the channel names under which the export holds
    posts is the original name of a channel of the transformer,
    [TransformPosts] imports nothing: it returns no error, the posts of
    the transformer become empty, no store is opened and no factory
    created, and all it does is log one warning for each name, after its
    opening line. *)
Theorem posts_of_unknown_channels_skipped cfg slackExport t w :
  Forall (λ entry,
            buildChannelsByOriginalNameMap (Transformer.Intermediate t)
            !! entry.1 = None)
    (SlackExport.Posts slackExport) →
  TransformPosts cfg slackExport t w
  = Some ((Transformer.set_Intermediate
             (Intermediate.set_Posts [] (Transformer.Intermediate t)) t,
           None),
          mkWorld (heap w) (redis w)
            (logs w ++ Logger Info "Transforming posts"
                       :: (unknownChannelWarning
                           <$> (SlackExport.Posts slackExport).*1))).
Proof.
  intros Hunknown. unfold TransformPosts.
  unfold mbind at 1, M_bind at 1, logf at 1. cbv zeta.
  rewrite <- (app_nil_r (SlackExport.Posts slackExport)) at 1.
  rewrite (bind_Some _ _ _ _ _
             (transformPostsFrom_unknown _ _ _ _ [] _ _ _ Hunknown _)).
  cbn. rewrite !app_nil_r, <- app_assoc. by destruct t as [[]].
Qed.

(** X17.  With a redis configuration and no factory yet, a failure of
    [newRedisFactory] makes [TransformPosts] return that error at the
    first channel name it knows: the transformer is left as it was, with
    the posts it had, no post is built, and only the warnings for the
    names met before are logged. *)
Theorem factory_failure_aborts_before_any_post cfg slackExport t w
    skippedEntries name channelPosts rest channel config e :
  SlackExport.Posts slackExport
  = (skippedEntries ++ (name, channelPosts) :: rest)%list →
  Forall (λ entry,
            buildChannelsByOriginalNameMap (Transformer.Intermediate t)
            !! entry.1 = None) skippedEntries →
  buildChannelsByOriginalNameMap (Transformer.Intermediate t) !! name
  = Some channel →
  RedisConfig_ cfg = Some config →
  Transformer.redisFactory_ t = None →
  newRedisFactory config = inr e →
  TransformPosts cfg slackExport t w
  = Some ((t, Some e),
          mkWorld (heap w) (redis w)
            (logs w ++ Logger Info "Transforming posts"
                       :: (unknownChannelWarning <$> skippedEntries.*1))).
Proof.
  intros Hposts Hunknown Hname Hcfg Hfac Hnew. unfold TransformPosts.
  unfold mbind at 1, M_bind at 1, logf at 1. cbv zeta.
  rewrite Hposts.
  unfold mbind at 1, M_bind at 1.
  rewrite (transformPostsFrom_unknown _ _ _ _ _ _ _ _ Hunknown).
  cbn [transformPostsFrom]. rewrite Hname.
  unfold newChannelThreadsStorage. rewrite Hcfg, Hfac, Hnew.
  cbn. rewrite <- app_assoc. destruct t as [[] ?]. simpl in Hfac.
  by rewrite Hfac.
Qed.

Lemma TransformUsers_run users authDataAsEmail authService t w :
  returns (TransformUsers users authDataAsEmail authService t) w (λ t' w',
    heap w' = heap w ∧ redis w' = redis w
    ∧ Transformer.redisFactory_ t' = Transformer.redisFactory_ t
    ∧ Transformer.Intermediate t'
      = Intermediate.set_UsersById
          (Intermediate.UsersById (Transformer.Intermediate t'))
          (Transformer.Intermediate t)).
Proof.
  unfold TransformUsers.
  eapply (returns_bind _ _ _
            (λ _ w', heap w' = heap w ∧ redis w' = redis w));
    [by run_logs|].
  intros [] w1 [Hh1 Hr1].
  eapply returns_bind; [apply transformUsersFrom_spec|].
  intros result w2 (Hh2 & Hr2 & _).
  apply returns_ret. split; [congruence|]. by split; [congruence|].
Qed.

(** [TransformAllChannels] returns no error; the channels it leaves have
    known members. *)
Lemma TransformAllChannels_run slackExport t w :
  returns (TransformAllChannels slackExport t) w (λ '(t', err) w',
    let i := Transformer.Intermediate t in
    let i' := Transformer.Intermediate t' in
    err = None
    ∧ heap w' = heap w ∧ redis w' = redis w
    ∧ Transformer.redisFactory_ t' = Transformer.redisFactory_ t
    ∧ Intermediate.UsersById i' = Intermediate.UsersById i
    ∧ Intermediate.Posts i' = Intermediate.Posts i
    ∧ Forall (membersKnown (Intermediate.UsersById i))
        (Intermediate.GroupChannels i')
    ∧ Forall (membersKnown (Intermediate.UsersById i))
        (Intermediate.DirectChannels i')).
Proof.
  unfold TransformAllChannels.
  eapply (returns_bind _ _ _
            (λ _ w', heap w' = heap w ∧ redis w' = redis w));
    [by run_logs|].
  intros [] w0 [Hh0 Hr0]. cbv zeta.
  eapply returns_bind; [apply TransformChannels_membersKnown|].
  intros public w1 (Hh1 & Hr1 & _).
  eapply returns_bind; [apply TransformChannels_membersKnown|].
  intros private w2 (Hh2 & Hr2 & _).
  destruct (SplitChannelsByMemberSize _ _) as [regular big].
  eapply returns_bind; [apply TransformChannels_membersKnown|].
  intros bigs w3 (Hh3 & Hr3 & _).
  eapply returns_bind; [apply TransformChannels_membersKnown|].
  intros group w4 (Hh4 & Hr4 & Hgroup).
  eapply returns_bind; [apply TransformChannels_membersKnown|].
  intros direct w5 (Hh5 & Hr5 & Hdirect).
  apply returns_ret. cbn.
  split; [done|]. split; [congruence|]. split; [congruence|].
  by repeat split.
Qed.

(** X16.  With skip-posts, [Transform] returns no error and leaves the
    posts of the transformer, its factory, the posts that exist and the
    backend as they were: whatever the export holds, it only logs and
    rewrites the users and, unless skip-channels is set too, the
    channels. *)
Theorem skip_posts_leaves_posts_alone cfg slackExport t w :
  SkipPosts cfg = true →
  returns (Transform cfg slackExport t) w (λ '(t', err) w',
    err = None
    ∧ heap w' = heap w ∧ redis w' = redis w
    ∧ Transformer.redisFactory_ t' = Transformer.redisFactory_ t
    ∧ Intermediate.Posts (Transformer.Intermediate t')
      = Intermediate.Posts (Transformer.Intermediate t)).
Proof.
  intros Hskip. unfold Transform. rewrite Hskip. cbn [negb].
  eapply returns_bind; [apply TransformUsers_run|].
  intros t1 w1 (Hh1 & Hr1 & Hf1 & Hi1).
  assert (Hp1 : Intermediate.Posts (Transformer.Intermediate t1)
                = Intermediate.Posts (Transformer.Intermediate t))
    by (by rewrite Hi1).
  destruct (SkipChannels cfg); cbn [negb].
  { run_logs. by repeat split. }
  eapply (returns_bind _ _ _
            (λ '(t', err) w',
               err = None ∧ heap w' = heap w ∧ redis w' = redis w
               ∧ Transformer.redisFactory_ t' = Transformer.redisFactory_ t
               ∧ Intermediate.Posts (Transformer.Intermediate t')
                 = Intermediate.Posts (Transformer.Intermediate t))).
  - eapply returns_bind; [apply TransformAllChannels_run|].
    intros [t2 err2] w2 (-> & Hh2 & Hr2 & Hf2 & _ & Hp2 & _).
    unfold PopulateUserMemberships, PopulateChannelMemberships.
    run_logs. cbn. split; [done|]. split; [congruence|].
    split; [congruence|]. split; congruence.
  - intros [t3 err3] w3 (-> & ? & ? & ? & ?). by apply returns_ret.
Qed.

(** X15.  With skip-channels, on a transformer that has no channels,
    [Transform] imports no post, whether skip-posts is set or not: it
    returns no error, the transformer still has no channel, its posts
    are empty (or untouched with skip-posts), no post is built and no
    factory is created. *)
Theorem skip_channels_imports_no_post cfg slackExport t w :
  SkipChannels cfg = true →
  Intermediate.PublicChannels (Transformer.Intermediate t) = [] →
  Intermediate.PrivateChannels (Transformer.Intermediate t) = [] →
  Intermediate.GroupChannels (Transformer.Intermediate t) = [] →
  Intermediate.DirectChannels (Transformer.Intermediate t) = [] →
  returns (Transform cfg slackExport t) w (λ '(t', err) w',
    let i' := Transformer.Intermediate t' in
    err = None
    ∧ heap w' = heap w ∧ redis w' = redis w
    ∧ Transformer.redisFactory_ t' = Transformer.redisFactory_ t
    ∧ Intermediate.PublicChannels i' = []
    ∧ Intermediate.PrivateChannels i' = []
    ∧ Intermediate.GroupChannels i' = []
    ∧ Intermediate.DirectChannels i' = []
    ∧ Intermediate.Posts i'
      = (if SkipPosts cfg
         then Intermediate.Posts (Transformer.Intermediate t) else [])).
Proof.
  intros Hskip Hpub Hpriv Hgroup Hdirect. unfold Transform.
  rewrite Hskip. cbn [negb].
  eapply returns_bind; [apply TransformUsers_run|].
  intros t1 w1 (Hh1 & Hr1 & Hf1 & Hi1).
  unfold mret at 1, M_ret at 1, mbind at 1, M_bind at 1.
  destruct (SkipPosts cfg); cbn [negb].
  { apply returns_ret. cbv zeta. rewrite Hi1. by repeat split. }
  assert (Hbuild : buildChannelsByOriginalNameMap (Transformer.Intermediate t1)
                   = ∅).
  { rewrite Hi1. unfold buildChannelsByOriginalNameMap. cbn.
    by rewrite Hpub, Hpriv, Hgroup, Hdirect. }
  eexists _, _. split.
  { apply posts_of_unknown_channels_skipped_aux.
    apply Forall_forall. intros entry _. by rewrite Hbuild. }
  cbn. rewrite Hi1. by repeat split.
Qed.

Lemma appendUsernames_known members (users : gmap string IntermediateUser.t) :
  Forall (λ memberId, is_Some (users !! memberId)) members →
  Forall2 (λ memberId username,
             IntermediateUser.Username <$> users !! memberId = Some username)
    members (appendUsernames members users []).
Proof.
  rewrite appendUsernames_spec, app_nil_l.
  induction 1 as [|memberId rest [user Hu] _ IH]; [constructor|].
  cbn. rewrite Hu. cbn. constructor; [by rewrite Hu|done].
Qed.

Lemma membersNamed_populate users users' channel :
  (∀ memberId, is_Some (users !! memberId) → is_Some (users' !! memberId)) →
  membersKnown users channel →
  membersNamed users' (populateChannel users' channel).
Proof.
  intros Hsub [Hknown Htwo].
  assert (Hnamed : Forall2
            (λ memberId username,
               IntermediateUser.Username <$> users' !! memberId = Some username)
            (IntermediateChannel.Members channel)
            (appendUsernames (IntermediateChannel.Members channel) users' [])).
  { apply appendUsernames_known. eapply Forall_impl; [exact Hknown|].
    intros memberId. apply Hsub. }
  split; [done|].
  cbn. intros Hdg. rewrite <- (Forall2_length _ _ _ Hnamed). by apply Htwo.
Qed.

Lemma membersNamed_weaken users users' channel :
  users ⊆ users' → membersNamed users channel → membersNamed users' channel.
Proof.
  intros Hsub [Hnamed Htwo]. split; [|done].
  eapply Forall2_impl; [exact Hnamed|].
  intros memberId username Hname. cbv beta in Hname.
  destruct (users !! memberId) as [user|] eqn:Hu; [|done].
  by rewrite (lookup_weaken _ _ _ _ Hu Hsub).
Qed.

(** X19.  When channels are not skipped, [Transform] leaves every channel
    of the group and of the direct list with one member username for each
    of its members, the username of that member in the users of the
    transformer; and such a channel of type direct or group has at least
    two.  This holds whether or not posts are transformed and whatever
    [Transform] returns. *)
Theorem group_and_direct_channels_name_their_members cfg slackExport t w :
  SkipChannels cfg = false →
  Forall (λ entry,
            Z.of_nat (length (sortedByTimeStamp entry.2)) < Int64.modulus)
    (SlackExport.Posts slackExport) →
  returns (Transform cfg slackExport t) w (λ '(t', err) w',
    Forall (membersNamed
              (Intermediate.UsersById (Transformer.Intermediate t')))
      (Intermediate.GroupChannels (Transformer.Intermediate t')
       ++ Intermediate.DirectChannels (Transformer.Intermediate t'))%list).
Proof.
  intros Hskip Hsz. unfold Transform. rewrite Hskip. cbn [negb].
  eapply returns_bind; [apply TransformUsers_run|].
  intros t1 w1 _.
  eapply (returns_bind _ _ _
            (λ '(t', err) w',
               err = None
               ∧ Forall (membersNamed
                           (Intermediate.UsersById
                              (Transformer.Intermediate t')))
                   (Intermediate.GroupChannels (Transformer.Intermediate t')
                    ++ Intermediate.DirectChannels
                         (Transformer.Intermediate t'))%list)).
  - eapply returns_bind; [apply TransformAllChannels_run|].
    intros [t2 err2] w2 (-> & _ & _ & _ & Hu2 & _ & Hgroup & Hdirect).
    unfold PopulateUserMemberships, PopulateChannelMemberships.
    run_logs. cbn. split; [done|].
    assert (Hsub : ∀ memberId,
      is_Some (Intermediate.UsersById (Transformer.Intermediate t1)
               !! memberId) →
      is_Some (map_imap
                 (λ userId user,
                    Some (IntermediateUser_set_Memberships
                            (appendMemberships userId
                               (Intermediate.PrivateChannels
                                  (Transformer.Intermediate t2))
                               (appendMemberships userId
                                  (Intermediate.PublicChannels
                                     (Transformer.Intermediate t2)) []))
                            user))
                 (Intermediate.UsersById (Transformer.Intermediate t2))
               !! memberId)).
    { intros memberId [user Hu]. rewrite map_lookup_imap, Hu2, Hu.
      by eexists. }
    apply Forall_app. split; apply Forall_fmap;
      (eapply Forall_impl; [eassumption|]);
      intros channel Hknown; by apply (membersNamed_populate _ _ _ Hsub).
  - intros [t4 err4] w4 [-> Hnamed].
    destruct (SkipPosts cfg); cbn [negb]; [by apply returns_ret|].
    destruct (TransformPosts_run cfg slackExport t4 w4 Hsz)
      as ([t' err] & w' & Hrun & users & factory & posts & Hstep & Hf & Hi).
    exists (t', err), w'. split; [exact Hrun|].
    destruct Hstep as (_ & Hu & _). simpl in Hu.
    rewrite Hi.
    assert (Hgoal : Forall (membersNamed users)
                      (Intermediate.GroupChannels (Transformer.Intermediate t4)
                       ++ Intermediate.DirectChannels
                            (Transformer.Intermediate t4))%list).
    { eapply Forall_impl; [exact Hnamed|].
      intros channel. by apply membersNamed_weaken. }
    by destruct err.
Qed.


End transform.

(** X21.  A plain message, or a message that changes the topic, the
    purpose or the name of the channel, whose user field is empty or
    names no known user is dropped: one warning is logged and that is
    all; no post is built, and the users, the store and the ledger are
    handed back as they were. *)
Theorem message_without_known_author_dropped `{Env} `{ThreadsStorage T} cfg
    uploads channel post users (threads : T) timestamps w :
  IsPlainMessage post = true
  ∨ (IsFileComment post = false ∧ IsBotMessage post = false
     ∧ IsJoinLeaveMessage post = false ∧ IsMeMessage post = false
     ∧ (IsChannelTopicMessage post = true
        ∨ IsChannelPurposeMessage post = true
        ∨ IsChannelNameMessage post = true)) →
  SlackPost.User post = "" ∨ users !! SlackPost.User post = None →
  ∃ line,
    transformPost cfg uploads channel post users threads timestamps w
    = Some ((users, threads, timestamps), add_log (Logger Warn line) w).
Proof.
  intros Hkind Hauthor.
  assert (Hauthored : ∀ prefix, ∃ line,
    (if decide (SlackPost.User post = "") then
       logf (Logger Warn (prefix +:+ "Unable to import the message as the user field is missing."));;
       mret (users, threads, timestamps)
     else
       match users !! SlackPost.User post with
       | None =>
           logf (Logger Warn
                   (prefix +:+ "Unable to add the message as the Slack user does not exist in Mattermost. user="
                    +:+ SlackPost.User post));;
           mret (users, threads, timestamps)
       | Some author =>
           newPost ← alloc (newIntermediatePost author channel
                              (SlackPost.Text post) (SlackPost.TimeStamp post));
           '(threads', timestamps') ←
             AddPostToThreads post newPost threads channel timestamps
               (ImportWorkflowMessages cfg);
           mret (users, threads', timestamps')
       end) w
    = Some ((users, threads, timestamps), add_log (Logger Warn line) w)).
  { intros prefix. destruct (decide (SlackPost.User post = "")) as [He|He].
    - by eexists.
    - destruct Hauthor as [?|Hnone]; [done|]. rewrite Hnone. by eexists. }
  unfold transformPost.
  destruct (IsPlainMessage post) eqn:Hplain.
  { destruct (decide (SlackPost.User post = "")) as [He|He].
    - by eexists.
    - destruct Hauthor as [?|Hnone]; [done|]. rewrite Hnone. by eexists. }
  destruct Hkind as [?|(-> & -> & -> & -> & Hkinds)]; [done|].
  destruct (IsChannelTopicMessage post); [apply (Hauthored "")|].
  destruct (IsChannelPurposeMessage post); [apply (Hauthored "")|].
  destruct (IsChannelNameMessage post); [apply (Hauthored "Slack Import: ")|].
  by destruct Hkinds as [?|[?|?]].
Qed.

(** ** A thread, from the messages to the store *)

Section thread.
Context `{Env} `{LawfulThreadsStorage T}.

(** A plain message of a known user, without files and attachments, goes
    to [AddPostToThreads] as a new post. *)
Lemma transformPost_plain_bare cfg uploads channel post users (threads : T)
    timestamps author w :
  IsPlainMessage post = true →
  SlackPost.User post ≠ "" →
  users !! SlackPost.User post = Some author →
  SlackPost.File post = None → SlackPost.Files post = [] →
  SlackPost.Attachments post = [] →
  transformPost cfg uploads channel post users threads timestamps w
  = (newPost ← alloc (newIntermediatePost author channel (SlackPost.Text post)
                        (SlackPost.TimeStamp post));
     '(threads', timestamps') ←
       AddPostToThreads post newPost threads channel timestamps
         (ImportWorkflowMessages cfg);
     mret (users, threads', timestamps')) w.
Proof.
  intros Hplain Huser Hauthor Hfile Hfiles Hatts.
  unfold transformPost. rewrite Hplain, decide_False, Hauthor by done.
  unfold addFilesToPost, addPropsToPost. rewrite Hfile, Hfiles, Hatts.
  unfold mbind at 1 4, M_bind at 1 4, alloc.
  by destruct (SkipAttachments cfg).
Qed.

Lemma Replies_resolvedPost channel v k :
  IntermediatePost.Replies (IntermediatePost.Sanitise (resolvedPost channel v k))
  = IntermediatePost.Replies v
  ∧ IntermediatePost.User (IntermediatePost.Sanitise (resolvedPost channel v k))
    = IntermediatePost.User v.
Proof.
  unfold IntermediatePost.Sanitise, resolvedPost, enrichForChannel.
  by repeat case_decide.
Qed.

(** X22.  A thread is assembled through the store.  Of two plain
    messages of known users, without files or attachments, handed over
    one after the other, the first a root and the second a reply to it
    (its thread-root timestamp is the first one's timestamp): the first
    is stored under its timestamp, and the second is found to be its
    reply, so that afterwards a lookup of that timestamp yields the first
    post, whose replies are the second post alone; both posts are new,
    and the reply carries its text as it came.  (The root is not the
    workflow user's, or workflow messages are imported.) *)
Theorem reply_joins_the_root_stored_before cfg uploads channel root reply
    users (threads : T) timestamps w rootAuthor replyAuthor :
  IsPlainMessage root = true → IsPlainMessage reply = true →
  SlackPost.User root ≠ "" → SlackPost.User reply ≠ "" →
  users !! SlackPost.User root = Some rootAuthor →
  users !! SlackPost.User reply = Some replyAuthor →
  SlackPost.File root = None → SlackPost.Files root = [] →
  SlackPost.Attachments root = [] →
  SlackPost.File reply = None → SlackPost.Files reply = [] →
  SlackPost.Attachments reply = [] →
  SlackPost.ThreadTS root = ""
  ∨ SlackPost.ThreadTS root = SlackPost.TimeStamp root →
  SlackPost.ThreadTS reply = SlackPost.TimeStamp root →
  SlackPost.ThreadTS reply ≠ "" →
  SlackPost.ThreadTS reply ≠ SlackPost.TimeStamp reply →
  ImportWorkflowMessages cfg = true
  ∨ IntermediateUser.Username rootAuthor ≠ WorkflowUserName →
  Z.of_nat (size timestamps + 2) < Int64.modulus →
  ∃ rootPost replyPost threads' timestamps' w' v1 v2,
    transformChannelPosts cfg uploads channel [root; reply] users threads
      timestamps w
    = Some ((users, threads', timestamps'), w')
    ∧ heap w !! rootPost = None ∧ heap w !! replyPost = None
    ∧ rootPost ≠ replyPost
    ∧ LookupThread threads' (SlackPost.TimeStamp root) w'
      = Some ((Some rootPost, threads'), w')
    ∧ heap w' !! rootPost = Some v1
    ∧ IntermediatePost.Replies v1 = [replyPost]
    ∧ IntermediatePost.User v1 = IntermediateUser.Username rootAuthor
    ∧ heap w' !! replyPost = Some v2
    ∧ IntermediatePost.Replies v2 = []
    ∧ IntermediatePost.Message v2 = SlackPost.Text reply
    ∧ IntermediatePost.User v2 = IntermediateUser.Username replyAuthor.
Proof.
  intros Hplain1 Hplain2 Huser1 Huser2 Hauthor1 Hauthor2 Hfile1 Hfiles1 Hatts1
    Hfile2 Hfiles2 Hatts2 Hroot Hthread Hne Hneq Hworkflow Hsz.
  cbn [transformChannelPosts].
  (* the root *)
  set (np1 := newIntermediatePost rootAuthor channel (SlackPost.Text root)
                (SlackPost.TimeStamp root)).
  set (l1 := fresh (dom (heap w))).
  set (w1 := set_heap (<[l1 := np1]> (heap w)) w).
  assert (Hl1 : heap w !! l1 = None) by apply alloc_fresh.
  assert (Hv1 : heap w1 !! l1 = Some np1) by apply lookup_insert_eq.
  destruct (firstFree_exists timestamps (IntermediatePost.CreateAt np1))
    as (k1 & Hk1 & Hf1); [lia|].
  set (ts1 := <[bumped (IntermediatePost.CreateAt np1) k1 := true]> timestamps).
  set (threads1 := StoreThread threads (SlackPost.TimeStamp root) l1).
  set (r1 := IntermediatePost.Sanitise (resolvedPost channel np1 k1)).
  assert (Hstep1 : ∃ w2,
    transformPost cfg uploads channel root users threads timestamps w
    = Some ((users, threads1, ts1), w2)
    ∧ heap w2 = <[l1 := r1]> (heap w1)).
  { assert (HA : ∃ w2,
      AddPostToThreads root l1 threads channel timestamps
        (ImportWorkflowMessages cfg) w1
      = Some ((threads1, ts1), w2) ∧ heap w2 = <[l1 := r1]> (heap w1)).
    { rewrite (AddPostToThreads_phases _ _ _ _ _ _ _ _ _ Hv1 Hk1 Hf1).
      rewrite (classifyPost_root _ _ _ _ _ _ (resolvedPost channel np1 k1));
        [|intros [? ?]; by destruct Hroot
         |rewrite heap_withPost; apply lookup_insert_eq].
      eexists. split; [reflexivity|].
      destruct (HasThread threads _ _); cbn; by rewrite insert_insert_eq. }
    destruct HA as (w2 & HA & Hh). exists w2. split; [|done].
    rewrite (transformPost_plain_bare _ _ _ _ _ _ _ rootAuthor) by done.
    rewrite (bind_Some _ _ _ _ _ (eq_refl : alloc np1 w = Some (l1, w1))).
    by rewrite (bind_Some _ _ _ _ _ HA). }
  destruct Hstep1 as (w2 & Hrun1 & Hheap2).
  rewrite (bind_Some _ _ _ _ _ Hrun1).
  (* the reply *)
  set (np2 := newIntermediatePost replyAuthor channel (SlackPost.Text reply)
                (SlackPost.TimeStamp reply)).
  set (l2 := fresh (dom (heap w2))).
  set (w3 := set_heap (<[l2 := np2]> (heap w2)) w2).
  assert (Hl2 : heap w2 !! l2 = None) by apply alloc_fresh.
  assert (Hl12 : l1 ≠ l2).
  { intros E. rewrite <- E, Hheap2, lookup_insert_eq in Hl2. done. }
  assert (Hv2 : heap w3 !! l2 = Some np2) by apply lookup_insert_eq.
  destruct (firstFree_exists ts1 (IntermediatePost.CreateAt np2))
    as (k2 & Hk2 & Hf2).
  { pose proof (size_ledger_insert timestamps
                  (bumped (IntermediatePost.CreateAt np1) k1) (proj2 Hf1))
      as Hsize.
    unfold ts1. rewrite Hsize. lia. }
  set (w4 := withPost l2 (resolvedPost channel np2 k2) w3).
  assert (Hr4 : heap w4 !! l1 = Some r1).
  { unfold w4, w3. rewrite heap_withPost, lookup_insert_ne by done.
    cbn. rewrite lookup_insert_ne by done. rewrite Hheap2.
    apply lookup_insert_eq. }
  assert (Hfields : IntermediatePost.Replies r1 = []
                    ∧ IntermediatePost.User r1
                      = IntermediateUser.Username rootAuthor).
  { unfold r1. by destruct (Replies_resolvedPost channel np1 k1) as [-> ->]. }
  destruct Hfields as [Hreplies1 Husr1].
  set (w5 := withPost l1 (IntermediatePost.set_Replies
                            (IntermediatePost.Replies r1 ++ [l2]) r1) w4).
  assert (Hstep2 :
    transformPost cfg uploads channel reply users threads1 ts1 w2
    = Some ((users, threads1,
             <[bumped (IntermediatePost.CreateAt np2) k2 := true]> ts1), w5)).
  { assert (HA :
      AddPostToThreads reply l2 threads1 channel ts1
        (ImportWorkflowMessages cfg) w3
      = Some ((threads1,
               <[bumped (IntermediatePost.CreateAt np2) k2 := true]> ts1), w5)).
    { rewrite (AddPostToThreads_phases _ _ _ _ _ _ _ _ _ Hv2 Hk2 Hf2).
      fold w4.
      rewrite (classifyPost_append reply l2 threads1 _ _ w4 l1 threads1 w4 r1);
        [done|done| |done|].
      - rewrite Hthread. apply LookupThread_StoreThread.
      - rewrite Husr1. destruct Hworkflow; [by left|by right]. }
    rewrite (transformPost_plain_bare _ _ _ _ _ _ _ replyAuthor) by done.
    rewrite (bind_Some _ _ _ _ _ (eq_refl : alloc np2 w2 = Some (l2, w3))).
    by rewrite (bind_Some _ _ _ _ _ HA). }
  rewrite (bind_Some _ _ _ _ _ Hstep2).
  eexists l1, l2, threads1, _, w5, _, (resolvedPost channel np2 k2).
  split; [reflexivity|]. split; [done|].
  split.
  { destruct (heap w !! l2) as [x|] eqn:Hx; [|done].
    exfalso. assert (Hin : is_Some (heap w2 !! l2)).
    { rewrite Hheap2. destruct (decide (l2 = l1)) as [->|?]; [done|].
      rewrite lookup_insert_ne by done. cbn.
      rewrite lookup_insert_ne by done. by eexists. }
    rewrite Hl2 in Hin. by destruct Hin. }
  split; [done|].
  split; [apply LookupThread_StoreThread|].
  split; [unfold w5; rewrite heap_withPost; apply lookup_insert_eq|].
  split; [cbn; by rewrite Hreplies1|].
  split; [done|].
  split.
  { unfold w5, w4. rewrite heap_withPost, lookup_insert_ne by done.
    rewrite heap_withPost. apply lookup_insert_eq. }
  unfold resolvedPost, enrichForChannel. by case_decide.
Qed.

End thread.

(** ** The statements on sample data *)

Lemma files_attached_in_order_witness :
  ∃ w',
    addFilesToPost (H := Sample.env) (Sample.config false false)
      SampleExport.uploads SampleExport.messageWithFiles 1%positive
      (Sample.worldWith (Sample.postAt 10))
    = Some (tt, w')
    ∧ IntermediatePost.Attachments <$> heap w' !! 1%positive
      = Some ["attachments/F1_plan.pdf"]
    ∧ length (logs w') = 3%nat.
Proof.
  destruct (files_attached_in_order (H := Sample.env)
              (Sample.config false false) SampleExport.uploads
              SampleExport.messageWithFiles 1%positive
              (Sample.worldWith (Sample.postAt 10)) (Sample.postAt 10))
    as (w' & Hrun & Hheap & _ & Hlogs).
  - reflexivity.
  - exists w'. split; [exact Hrun|]. split.
    + rewrite Hheap, lookup_insert_eq. vm_compute. reflexivity.
    + rewrite Hlogs. reflexivity.
Defined.

Lemma reply_appended_unsanitised_witness :
  ∃ k w',
    AddPostToThreads (Sample.message "20" "10") 1%positive
      (mkMemoryStorage {[ "10" := 2%positive ]}) Sample.general
      {[ 10 := true ]} false
      (Sample.worldWith2 (Sample.postAt 20) (Sample.postAt 10))
    = Some ((mkMemoryStorage {[ "10" := 2%positive ]},
             <[bumped 20 k := true]> {[ 10 := true ]}), w')
    ∧ IntermediatePost.Replies <$> heap w' !! 2%positive
      = Some [1%positive]
    ∧ logs w' = [].
Proof.
  destruct (reply_appended_unsanitised (T := memoryStorage)
              (Sample.message "20" "10") 1%positive
              (mkMemoryStorage {[ "10" := 2%positive ]}) Sample.general
              {[ 10 := true ]} false (Sample.postAt 20)
              (Sample.worldWith2 (Sample.postAt 20) (Sample.postAt 10))
              2%positive (mkMemoryStorage {[ "10" := 2%positive ]})
              (Sample.worldWith2 (Sample.postAt 20) (Sample.postAt 10))
              (Sample.postAt 10))
    as (k & w' & Hrun & Hroot & _ & _ & Hlogs & _).
  - reflexivity.
  - vm_compute. reflexivity.
  - discriminate.
  - discriminate.
  - reflexivity.
  - reflexivity.
  - discriminate.
  - right. discriminate.
  - exists k, w'. split; [exact Hrun|]. split; [by rewrite Hroot|exact Hlogs].
Defined.

Lemma every_call_marks_and_records_witness :
  ∃ threads' timestamps' w' v',
    AddPostToThreads (Sample.message "20" "10") 1%positive
      (mkMemoryStorage {[ "10" := 2%positive ]}) SampleExport.groupChannel
      {[ 20 := true ]} false
      (Sample.worldWith2 (Sample.postAt 20) (Sample.postAt 10))
    = Some ((threads', timestamps'), w')
    ∧ size timestamps' = 2%nat
    ∧ heap w' !! 1%positive = Some v'
    ∧ IntermediatePost.IsDirect v' = true
    ∧ IntermediatePost.ChannelMembers v' = ["alice"; "bob"].
Proof.
  destruct (every_call_marks_and_records (T := memoryStorage)
              (Sample.message "20" "10") 1%positive
              (mkMemoryStorage {[ "10" := 2%positive ]})
              SampleExport.groupChannel {[ 20 := true ]} false
              (Sample.postAt 20)
              (Sample.worldWith2 (Sample.postAt 20) (Sample.postAt 10)))
    as (k & threads' & timestamps' & w' & v' & Hrun & _ & _ & Hsize & Hv'
        & _ & Hdirect & Hmembers & _).
  - reflexivity.
  - vm_compute. reflexivity.
  - intros r threads' w1 E. vm_compute in E. injection E as <- _ <-.
    vm_compute. by eexists.
  - exists threads', timestamps', w', v'. split; [exact Hrun|].
    split; [exact Hsize|]. split; [exact Hv'|].
    split; [exact Hdirect|exact Hmembers].
Defined.

Lemma posts_of_unknown_channels_skipped_witness :
  ∃ t' w',
    TransformPosts (H := Sample.env) (H0 := SampleExport.helpers)
      (SampleExport.config false true None) SampleExport.export
      SampleExport.transformer Sample.world
    = Some ((t', None), w')
    ∧ Intermediate.Posts (Transformer.Intermediate t') = []
    ∧ heap w' = ∅
    ∧ length (logs w') = 3%nat.
Proof.
  eexists _, _. split.
  - apply (posts_of_unknown_channels_skipped (H := Sample.env)
             (H0 := SampleExport.helpers)).
    repeat constructor.
  - repeat split.
Defined.

Lemma factory_failure_aborts_before_any_post_witness :
  ∃ w',
    TransformPosts (H := SampleExport.offlineEnv) (H0 := SampleExport.helpers)
      (SampleExport.config false false (Some Sample.redisConfig))
      SampleExport.export SampleExport.transformerWithGeneral Sample.world
    = Some ((SampleExport.transformerWithGeneral,
             Some "dial tcp: connection refused"), w')
    ∧ heap w' = ∅
    ∧ logs w' = [Logger Info "Transforming posts";
                 unknownChannelWarning "random"].
Proof.
  eexists. split.
  - apply (factory_failure_aborts_before_any_post
             (H := SampleExport.offlineEnv) (H0 := SampleExport.helpers)
             _ _ _ _ [("random", [Sample.message "5" ""])] "general"
             [Sample.message "10" ""; Sample.message "20" "10"] []
             Sample.general Sample.redisConfig).
    + reflexivity.
    + repeat constructor.
    + vm_compute. reflexivity.
    + reflexivity.
    + reflexivity.
    + reflexivity.
  - split; reflexivity.
Defined.


Lemma skip_posts_leaves_posts_alone_witness :
  ∃ t' w',
    Transform (H := Sample.env) (H0 := SampleExport.helpers)
      (SampleExport.config true false None) SampleExport.export
      SampleExport.transformer Sample.world
    = Some ((t', None), w')
    ∧ heap w' = ∅
    ∧ Intermediate.Posts (Transformer.Intermediate t') = [].
Proof.
  destruct (skip_posts_leaves_posts_alone (H := Sample.env)
              (H0 := SampleExport.helpers)
              (SampleExport.config true false None) SampleExport.export
              SampleExport.transformer Sample.world)
    as ([t' err] & w' & Hrun & -> & Hheap & _ & _ & Hposts).
  - reflexivity.
  - exists t', w'. split; [exact Hrun|]. split; [exact Hheap|exact Hposts].
Defined.

Lemma skip_channels_imports_no_post_witness :
  ∃ t' w',
    Transform (H := Sample.env) (H0 := SampleExport.helpers)
      (SampleExport.config false true None) SampleExport.export
      SampleExport.transformer Sample.world
    = Some ((t', None), w')
    ∧ heap w' = ∅
    ∧ Intermediate.PublicChannels (Transformer.Intermediate t') = []
    ∧ Intermediate.Posts (Transformer.Intermediate t') = [].
Proof.
  destruct (skip_channels_imports_no_post (H := Sample.env)
              (H0 := SampleExport.helpers)
              (SampleExport.config false true None) SampleExport.export
              SampleExport.transformer Sample.world)
    as ([t' err] & w' & Hrun & -> & Hheap & _ & _ & Hpublic & _ & _ & _
        & Hposts).
  - reflexivity.
  - reflexivity.
  - reflexivity.
  - reflexivity.
  - reflexivity.
  - exists t', w'. split; [exact Hrun|]. split; [exact Hheap|].
    split; [exact Hpublic|exact Hposts].
Defined.

Lemma group_and_direct_channels_name_their_members_witness :
  ∃ t' err w',
    Transform (H := Sample.env) (H0 := SampleExport.helpers)
      (SampleExport.config false false None) SampleExport.export
      SampleExport.transformer Sample.world
    = Some ((t', err), w')
    ∧ IntermediateChannel.MembersUsernames
      <$> Intermediate.GroupChannels (Transformer.Intermediate t')
      = [["alice"; "bob"]]
    ∧ Forall (membersNamed
                (Intermediate.UsersById (Transformer.Intermediate t')))
        (Intermediate.GroupChannels (Transformer.Intermediate t')).
Proof.
  destruct (group_and_direct_channels_name_their_members (H := Sample.env)
              (H0 := SampleExport.helpers)
              (SampleExport.config false false None) SampleExport.export
              SampleExport.transformer Sample.world)
    as ([t' err] & w' & Hrun & Hnamed).
  - reflexivity.
  - repeat constructor.
  - exists t', err, w'. split; [exact Hrun|].
    apply Forall_app in Hnamed as [Hgroup _]. split; [|exact Hgroup].
    vm_compute in Hrun. injection Hrun as <- _ _. vm_compute. reflexivity.
Defined.


Lemma message_without_known_author_dropped_witness :
  ∃ line,
    transformPost (H := Sample.env) (Sample.config false false) ∅
      Sample.general SampleExport.topicByStranger Sample.users
      newMemoryStorage ∅ Sample.world
    = Some ((Sample.users, newMemoryStorage, ∅),
            add_log (Logger Warn line) Sample.world).
Proof.
  apply (message_without_known_author_dropped (H := Sample.env)
           (T := memoryStorage)).
  - right. repeat split. left. reflexivity.
  - right. reflexivity.
Defined.

Lemma reply_joins_the_root_stored_before_witness :
  ∃ rootPost replyPost threads' timestamps' w' v1,
    transformChannelPosts (H := Sample.env) (Sample.config false false) ∅
      Sample.general [Sample.message "10" ""; Sample.message "20" "10"]
      Sample.users newMemoryStorage ∅ Sample.world
    = Some ((Sample.users, threads', timestamps'), w')
    ∧ rootPost ≠ replyPost
    ∧ heap w' !! rootPost = Some v1
    ∧ IntermediatePost.Replies v1 = [replyPost].
Proof.
  destruct (reply_joins_the_root_stored_before (H := Sample.env)
              (T := memoryStorage) (Sample.config false false) ∅
              Sample.general (Sample.message "10" "")
              (Sample.message "20" "10") Sample.users newMemoryStorage ∅
              Sample.world (Sample.user "U1" "alice")
              (Sample.user "U1" "alice"))
    as (rootPost & replyPost & threads' & timestamps' & w' & v1 & v2 & Hrun
        & _ & _ & Hdistinct & _ & Hroot & Hreplies & _).
  - reflexivity.
  - reflexivity.
  - discriminate.
  - discriminate.
  - reflexivity.
  - reflexivity.
  - reflexivity.
  - reflexivity.
  - reflexivity.
  - reflexivity.
  - reflexivity.
  - reflexivity.
  - left. reflexivity.
  - reflexivity.
  - discriminate.
  - discriminate.
  - right. discriminate.
  - vm_compute. reflexivity.
  - exists rootPost, replyPost, threads', timestamps', w', v1.
    split; [exact Hrun|]. split; [exact Hdistinct|].
    split; [exact Hroot|exact Hreplies].
Defined.
